(** * epub2tts: the chaptered-text-to-audio pipeline

    A shallow embedding of the text segmenter ([core/text_utils.py]), the
    document extractors ([core/ebook.py], [processors/*.py]) and the
    conversion orchestrator ([converters/book_converter.py]), followed by
    the properties of the specification that were checked against them. *)

From Stdlib Require Import String Ascii ZArith NArith QArith Bool Lia List.
From Stdlib Require Import Permutation Sorted DecimalString DecimalZ.
From Stdlib Require Import DecimalPos FinFun Qround Qpower Lqa.
Import ListNotations.

Set Implicit Arguments.

(* ===================================================================== *)
(** * Python values: [str], [list], exceptions *)
(* ===================================================================== *)

Module Py.

(** A Python [str] is a sequence of Unicode code points; [len] counts code
    points, which is what the chunker compares with [chunk_size]. *)
Definition char := N.
Definition pystr := list char.

(** An ASCII literal as a [str]. *)
Definition py (s : string) : pystr := map N_of_ascii (list_ascii_of_string s).

Definition len {A} (l : list A) : Z := Z.of_nat (length l).

(** Truthiness of a [str] or a [list]: non-empty. *)
Definition truthy {A} (l : list A) : bool :=
  match l with [] => false | _ :: _ => true end.

Fixpoint pystr_eqb (a b : pystr) : bool :=
  match a, b with
  | [], [] => true
  | x :: a', y :: b' => (x =? y)%N && pystr_eqb a' b'
  | _, _ => false
  end.

(** The part of the Unicode database that the code consults through the
    regular expression class [\w] and through [str.lower] on text that is
    not ASCII.  It belongs to the Python runtime, not to the repository,
    and is taken as a parameter. *)
Class Unicode := {
  uni_alnum : char -> bool;
  uni_lower : pystr -> pystr
}.

(** An instance for evaluating the code on ASCII text, where the table is
    never consulted. *)
Definition ascii_only : Unicode :=
  {| uni_alnum := fun _ => false; uni_lower := fun s => s |}.

Section Chars.
Local Open Scope N_scope.

Definition between (lo hi c : char) : bool := (lo <=? c) && (c <=? hi).

(** [str.isspace] on one code point, which is also [\s] of [re] on
    [str] patterns and the set [str.strip()] and [str.split()] use. *)
Definition isspace (c : char) : bool :=
  between 9 13 c || between 28 32 c || (c =? 133) || (c =? 160)
  || (c =? 5760) || between 8192 8202 c || (c =? 8232) || (c =? 8233)
  || (c =? 8239) || (c =? 8287) || (c =? 12288).

Definition is_upper_az (c : char) : bool := between 65 90 c.
Definition is_lower_az (c : char) : bool := between 97 122 c.
Definition is_digit (c : char) : bool := between 48 57 c.
Definition is_ascii (c : char) : bool := c <? 128.

(** [\w] on [str] patterns: alphanumeric or underscore. *)
Definition isword `{Unicode} (c : char) : bool :=
  if is_ascii c
  then is_upper_az c || is_lower_az c || is_digit c || (c =? 95)
  else uni_alnum c.

Definition ascii_lower (c : char) : char :=
  if is_upper_az c then c + 32 else c.

(** [str.lower()]. *)
Definition lower `{Unicode} (s : pystr) : pystr :=
  if forallb is_ascii s then map ascii_lower s else uni_lower s.
End Chars.

(** [str.lstrip()], [str.rstrip()], [str.strip()] without arguments. *)
Fixpoint lstrip (s : pystr) : pystr :=
  match s with
  | [] => []
  | c :: r => if isspace c then lstrip r else s
  end.

Definition rstrip (s : pystr) : pystr := rev (lstrip (rev s)).
Definition strip (s : pystr) : pystr := rstrip (lstrip s).

(** [str.split()] without arguments: the maximal runs of characters that
    are not whitespace.  [acc] holds the current run, reversed. *)
Fixpoint split_acc (acc : pystr) (s : pystr) : list pystr :=
  match s with
  | [] => match acc with [] => [] | _ => [rev acc] end
  | c :: r =>
      if isspace c
      then match acc with
           | [] => split_acc [] r
           | _ => rev acc :: split_acc [] r
           end
      else split_acc (c :: acc) r
  end.

Definition split (s : pystr) : list pystr := split_acc [] s.

(** [s.split(sep)] for a one-character separator: every piece, empty ones
    included. *)
Fixpoint split_on_acc (sep : char) (acc : pystr) (s : pystr) : list pystr :=
  match s with
  | [] => [rev acc]
  | c :: r =>
      if (c =? sep)%N then rev acc :: split_on_acc sep [] r
      else split_on_acc sep (c :: acc) r
  end.

Definition split_on (sep : char) (s : pystr) : list pystr :=
  split_on_acc sep [] s.

(** [sep.join(l)]. *)
Fixpoint join (sep : pystr) (l : list pystr) : pystr :=
  match l with
  | [] => []
  | [x] => x
  | x :: r => x ++ sep ++ join sep r
  end.

(** [s.replace(old, new)] for a one-character [old]. *)
Definition replace (old : char) (new : pystr) (s : pystr) : pystr :=
  flat_map (fun c => if (c =? old)%N then new else [c]) s.

Fixpoint startswith (s prefix : pystr) : bool :=
  match prefix, s with
  | [], _ => true
  | p :: prefix', c :: s' => (c =? p)%N && startswith s' prefix'
  | _ :: _, [] => false
  end.

(** [sub in s]. *)
Fixpoint contains (s sub : pystr) : bool :=
  startswith s sub ||
  match s with
  | [] => false
  | _ :: s' => contains s' sub
  end.

(** A slice bound as Python normalises it against a length. *)
Definition slice_bound (n i : Z) : nat :=
  Z.to_nat (if (i <? 0)%Z then Z.max (i + n) 0 else Z.min i n).

(** [l[lo:]] and [l[lo:hi]]. *)
Definition slice_from {A} (lo : Z) (l : list A) : list A :=
  skipn (slice_bound (len l) lo) l.

Definition slice {A} (lo hi : Z) (l : list A) : list A :=
  let a := slice_bound (len l) lo in
  let b := slice_bound (len l) hi in
  firstn (b - a) (skipn a l).

(** [str(i)] and the [{i}] of an f-string for an [int]. *)
Definition str_of_Z (i : Z) : pystr := py (NilZero.string_of_int (Z.to_int i)).

(** [range(0, stop, step)] for a positive [step]. *)
Definition range_by (stop step : Z) : list Z :=
  map (fun k => (Z.of_nat k * step)%Z)
      (seq 0 (Z.to_nat ((stop + step - 1) / step))).

(** [enumerate(l)]. *)
Definition enumerate {A} (l : list A) : list (Z * A) :=
  combine (map Z.of_nat (seq 0 (length l))) l.

(** The exceptions the modelled code raises or catches, each with the
    text [str(e)] gives. *)
Inductive exn :=
| IndexError (msg : pystr)
| NameError (msg : pystr)
| TypeError (msg : pystr)
| ValueError (msg : pystr)
| FileError (msg : pystr)
| ProcessingError (msg : pystr)
| ConversionError (msg : pystr)
| TTSEngineError (msg : pystr)
| ExternalError (msg : pystr).

Definition str_of_exn (e : exn) : pystr :=
  match e with
  | IndexError m | NameError m | TypeError m | ValueError m | FileError m
  | ProcessingError m | ConversionError m | TTSEngineError m
  | ExternalError m => m
  end.

(** The outcome of a call: a value, or a raised exception. *)
Inductive result (A : Type) :=
| Ok (a : A)
| Raise (e : exn).
Arguments Ok {A} a.
Arguments Raise {A} e.

Definition bind {A B} (r : result A) (k : A -> result B) : result B :=
  match r with
  | Ok a => k a
  | Raise e => Raise e
  end.

(** [try: body / except Exception as e: handler(e)]. *)
Definition try_except {A} (body : result A) (handler : exn -> result A)
  : result A :=
  match body with
  | Ok a => Ok a
  | Raise e => handler e
  end.

(** [l[i]] with Python's negative indices; out of range is [IndexError]. *)
Definition getitem {A} (l : list A) (i : Z) : result A :=
  let j := if (i <? 0)%Z then (i + len l)%Z else i in
  if (j <? 0)%Z then Raise (IndexError (py "list index out of range"))
  else match nth_error l (Z.to_nat j) with
       | Some a => Ok a
       | None => Raise (IndexError (py "list index out of range"))
       end.

End Py.

Import Py.

(* ===================================================================== *)
(** * Python's [float] *)
(* ===================================================================== *)

(** A [float] is a binary64 number.  A finite one is a rational, and the
    result of an arithmetic operation is the exact result rounded to the
    nearest float, to the one with an even last bit when two are equally
    near.  No operation modelled below reaches the overflow threshold. *)
Module PyFloat.

(** The integer nearest to [q]; of two equally near, the even one. *)
Definition round_half_even (q : Q) : Z :=
  let f := Qfloor q in
  match (q - inject_Z f ?= 1 # 2)%Q with
  | Lt => f
  | Gt => (f + 1)%Z
  | Eq => if Z.even f then f else (f + 1)%Z
  end.

(** [floor(log2(q))] for a positive [q]. *)
Definition ilog2 (q : Q) : Z :=
  let k := (Z.log2 (Qnum q) - Z.log2 (Zpos (Qden q)))%Z in
  if Qle_bool (2 ^ k) q then k else (k - 1)%Z.

(** The exponent of the last of the 53 bits of the float nearest to a
    positive [q]; it is -1074 for the subnormal numbers. *)
Definition ulp_exponent (q : Q) : Z := Z.max (ilog2 q - 52) (-1074).

Definition round_positive (q : Q) : Q :=
  let e := ulp_exponent q in
  Qred (inject_Z (round_half_even (q / 2 ^ e)) * 2 ^ e).

(** The float nearest to [q]. *)
Definition round (q : Q) : Q :=
  match (q ?= 0)%Q with
  | Eq => 0%Q
  | Gt => round_positive q
  | Lt => Qred (- round_positive (- q))
  end.

(** [float(z)], the conversion an [int] operand undergoes. *)
Definition of_int (z : Z) : Q := round (inject_Z z).

(** [a / b] on two [int]s: the quotient, rounded once. *)
Definition truediv (a b : Z) : Q := round (inject_Z a / inject_Z b).

(** [x + y], [x / y] and [x * y] on two [float]s. *)
Definition add (x y : Q) : Q := round (x + y).
Definition div (x y : Q) : Q := round (x / y).
Definition mul (x y : Q) : Q := round (x * y).

End PyFloat.

Declare Scope py_scope.
Delimit Scope py_scope with py.
Notation "x <- c ;; k" := (bind c (fun x => k))
  (at level 61, c at next level, right associativity) : py_scope.
Local Open Scope py_scope.
Local Open Scope Z_scope.

(* ===================================================================== *)
(** * core/text_utils.py *)
(* ===================================================================== *)

Module TextUtils.
Section TextUtils.
Context `{Unicode}.

(** [re.sub(r'\s+', ' ', text)]: every maximal run of whitespace becomes
    one space.  [in_run] tells that the previous character was
    whitespace. *)
Fixpoint sub_ws_runs (in_run : bool) (s : pystr) : pystr :=
  match s with
  | [] => []
  | c :: r =>
      if isspace c
      then if in_run then sub_ws_runs true r else 32%N :: sub_ws_runs true r
      else c :: sub_ws_runs false r
  end.

(** The class [[\x00-\x08\x0b\x0c\x0e-\x1f\x7f-\x9f]]. *)
Definition is_control (c : char) : bool :=
  (between 0 8 c || (c =? 11) || (c =? 12) || between 14 31 c
   || between 127 159 c)%N.

Definition clean_text (text : pystr) : pystr :=
  if negb (truthy text) then []
  else
    let text := sub_ws_runs false text in
    let text := replace 8217%N (py "'") (replace 8216%N (py "'") text) in
    let text := replace 8221%N [34%N] (replace 8220%N [34%N] text) in
    let text := replace 8212%N (py "--") (replace 8211%N (py "-") text) in
    let text := replace 8230%N (py "...") text in
    let text := filter (fun c => negb (is_control c)) text in
    strip text.

(** The pattern [(?<!\w\.\w.)(?<![A-Z][a-z]\.)(?<=\.|\?|\!)\s] at a
    character [c], with the text before it given reversed (nearest
    character first). *)
Definition lookbehind_abbrev (before : pystr) : bool :=
  match before with
  | p1 :: p2 :: p3 :: p4 :: _ =>
      isword p4 && (p3 =? 46)%N && isword p2 && negb (p1 =? 10)%N
  | _ => false
  end.

Definition lookbehind_title (before : pystr) : bool :=
  match before with
  | p1 :: p2 :: p3 :: _ => is_upper_az p3 && is_lower_az p2 && (p1 =? 46)%N
  | _ => false
  end.

Definition lookbehind_final (before : pystr) : bool :=
  match before with
  | p1 :: _ => ((p1 =? 46) || (p1 =? 63) || (p1 =? 33))%N
  | [] => false
  end.

Definition sentence_break (before : pystr) (c : char) : bool :=
  negb (lookbehind_abbrev before) && negb (lookbehind_title before)
  && lookbehind_final before && isspace c.

(** [re.split(pattern, text)]: the pieces between the matches. *)
Fixpoint re_split_acc (before acc : pystr) (s : pystr) : list pystr :=
  match s with
  | [] => [rev acc]
  | c :: r =>
      if sentence_break before c
      then rev acc :: re_split_acc (c :: before) [] r
      else re_split_acc (c :: before) (c :: acc) r
  end.

Definition split_into_sentences (text : pystr) : list pystr :=
  if negb (truthy text) then []
  else
    let sentences := re_split_acc [] [] text in
    map strip (filter (fun s => truthy (strip s)) sentences).

(** One iteration of the loop of [split_text_into_chunks] over the
    sentences; the state is [(chunks, current_chunk)]. *)
Definition chunk_step (chunk_size overlap : Z)
    (st : list pystr * pystr) (sentence : pystr) : list pystr * pystr :=
  let '(chunks, current_chunk) := st in
  if len current_chunk + len sentence >? chunk_size then
    let chunks := chunks ++ [strip current_chunk] in
    let words := split current_chunk in
    let overlap_text :=
      join (py " ") (slice_from (- Z.min (len words) overlap) words) in
    (chunks, overlap_text ++ py " " ++ sentence)
  else if truthy current_chunk
       then (chunks, current_chunk ++ py " " ++ sentence)
       else (chunks, sentence).

Definition split_text_into_chunks
    (text : pystr) (chunk_size overlap : Z) : list pystr :=
  if negb (truthy text) then []
  else
    let text := clean_text text in
    if len text <=? chunk_size then [text]
    else
      let sentences := split_into_sentences text in
      let '(chunks, current_chunk) :=
        fold_left (chunk_step chunk_size overlap) sentences ([], []) in
      if truthy (strip current_chunk)
      then chunks ++ [strip current_chunk]
      else chunks.

End TextUtils.

(** The defaults of [split_text_into_chunks(text, chunk_size=2000,
    overlap=50)]. *)
Definition default_chunk_size : Z := 2000.
Definition default_overlap : Z := 50.

End TextUtils.

Import TextUtils.

(* ===================================================================== *)
(** * processors/text_processor.py *)
(* ===================================================================== *)

Module TextProcessor.

(** A chapter dictionary.  The keys [is_sentence_index] and [is_full_text]
    are read with [chapter.get(key, False)]: an absent key is [false]. *)
Record chapter := {
  title : pystr;
  start_idx : Z;
  end_idx : Z;
  is_sentence_index : bool;
  is_full_text : bool
}.

(** The attributes of a processor the modelled methods read. *)
Record t := {
  text : pystr;
  chapters : list chapter
}.

Section TextProcessor.
Context `{Unicode}.

Definition chapter_markers : list pystr :=
  map py ["chapter"; "section"; "part"; "book"; "volume"; "prologue";
          "epilogue"; "introduction"; "conclusion"; "appendix";
          "preface"; "foreword"; "afterword"]%string.

(** The test of [_extract_chapters] on one line. *)
Definition is_chapter_line (line : pystr) : bool :=
  let line_lower := strip (lower line) in
  if existsb (fun marker => startswith line_lower marker) chapter_markers
  then true
  else (len (strip line) <? 50)
       && existsb (fun marker => contains line_lower marker) chapter_markers.

(** [_create_default_chapters].  With no sentence at all [chapter_size]
    is 0, [range] raises [ValueError], and the handler replaces the list
    by the single "Full Text" chapter. *)
Definition create_default_chapters (text : pystr) (chapters : list chapter)
  : list chapter :=
  let sentences := split_into_sentences text in
  let total_sentences := len sentences in
  let chapter_size :=
    if total_sentences <=? 50 then total_sentences
    else if total_sentences <=? 200 then 50
    else 100 in
  if chapter_size =? 0 then
    [ {| title := py "Full Text"; start_idx := 0; end_idx := 0;
         is_sentence_index := false; is_full_text := true |} ]
  else
    chapters ++
    map (fun i =>
           {| title := py "Section " ++ str_of_Z (i / chapter_size + 1);
              start_idx := i;
              end_idx := Z.min (i + chapter_size - 1) (total_sentences - 1);
              is_sentence_index := true; is_full_text := false |})
        (range_by total_sentences chapter_size).

(** The loop of [_extract_chapters] over [chapter_indices]. *)
Fixpoint marker_chapters (lines : list pystr) (chapter_indices : list Z)
  : list chapter :=
  match chapter_indices with
  | [] => []
  | start :: rest =>
      let e := match rest with
               | next :: _ => next - 1
               | [] => len lines - 1
               end in
      {| title := strip (nth (Z.to_nat start) lines []);
         start_idx := start; end_idx := e;
         is_sentence_index := false; is_full_text := false |}
      :: marker_chapters lines rest
  end.

Definition extract_chapters (text : pystr) : list chapter :=
  let lines := split_on 10%N text in
  let chapter_indices :=
    map fst (filter (fun il => is_chapter_line (snd il)) (enumerate lines)) in
  if negb (truthy chapter_indices) then create_default_chapters text []
  else marker_chapters lines chapter_indices.

(** [TextProcessor(file_path)] on a file whose content is [text]. *)
Definition init (text : pystr) : t :=
  {| text := text; chapters := extract_chapters text |}.

Definition get_chapters (self : t) : list chapter := chapters self.

Definition out_of_range_msg (chapter_index : Z) : pystr :=
  py "Chapter index out of range: " ++ str_of_Z chapter_index.

Definition get_chapter_text (self : t) (chapter_index : Z) : result pystr :=
  try_except
    (if (chapter_index <? 0) || (chapter_index >=? len (chapters self))
     then Raise (IndexError (out_of_range_msg chapter_index))
     else
       chapter <- getitem (chapters self) chapter_index ;;
       if is_full_text chapter then Ok (clean_text (text self))
       else if is_sentence_index chapter then
         let sentences := split_into_sentences (text self) in
         if (start_idx chapter <? 0) || (end_idx chapter >=? len sentences)
         then Ok []
         else Ok (clean_text
                    (join (py " ")
                       (slice (start_idx chapter) (end_idx chapter + 1)
                              sentences)))
       else
         let lines := split_on 10%N (text self) in
         if (start_idx chapter <? 0) || (end_idx chapter >=? len lines)
         then Ok []
         else Ok (clean_text
                    (join [10%N]
                       (slice (start_idx chapter) (end_idx chapter + 1)
                              lines))))
    (fun e => Raise (ProcessingError
                       (py "Error getting chapter text: " ++ str_of_exn e))).

Definition fallback_title (chapter_index : Z) : pystr :=
  py "Chapter " ++ str_of_Z (chapter_index + 1).

Definition get_chapter_title (self : t) (chapter_index : Z) : pystr :=
  match
    (if (chapter_index <? 0) || (chapter_index >=? len (chapters self))
     then Raise (IndexError (out_of_range_msg chapter_index))
     else chapter <- getitem (chapters self) chapter_index ;;
          Ok (title chapter))
  with
  | Ok s => s
  | Raise _ => fallback_title chapter_index
  end.

Definition get_full_text (self : t) : pystr := clean_text (text self).

End TextProcessor.
End TextProcessor.

(* ===================================================================== *)
(** * processors/pdf_processor.py *)
(* ===================================================================== *)

Module PDFProcessor.

(** An entry of the outline the PDF library hands over: a dictionary with
    optional keys [page_number] and [title], a list, or anything else. *)
#[warnings="-register-all"]
Inductive outline_item :=
| ODict (page_number : option Z) (title : option pystr)
| OList (items : list outline_item)
| OOther.

Record chapter := {
  title : pystr;
  page_start : Z;
  page_end : option Z;
  level : Z
}.

(** A page is what its [extract_text()] gives: the text ([None] and the
    empty string are both falsy and modelled by the empty text), or an
    exception of the library. *)
Definition page := result pystr.

Record t := {
  pages : list page;
  chapters : list chapter
}.

Section PDFProcessor.
Context `{Unicode}.

Definition with_page_end (c : chapter) (e : Z) : chapter :=
  {| title := title c; page_start := page_start c; page_end := Some e;
     level := level c |}.

(** [for i in range(len(self.chapters) - 1):
       self.chapters[i]['page_end'] = self.chapters[i + 1]['page_start'] - 1] *)
Fixpoint set_page_ends (chapters : list chapter) : list chapter :=
  match chapters with
  | c :: ((next :: _) as rest) =>
      with_page_end c (page_start next - 1) :: set_page_ends rest
  | _ => chapters
  end.

(** [if self.chapters and self.chapters[-1]['page_end'] is None: ...] *)
Fixpoint set_last_page_end (total_pages : Z) (chapters : list chapter)
  : list chapter :=
  match chapters with
  | [] => []
  | [c] => match page_end c with
           | None => [with_page_end c (total_pages - 1)]
           | Some _ => [c]
           end
  | c :: rest => c :: set_last_page_end total_pages rest
  end.

Definition outline_chapter (chapters : list chapter)
    (page_number : option Z) (otitle : option pystr) (lvl : Z) : chapter :=
  {| title := match otitle with
              | Some s => s
              | None => py "Chapter " ++ str_of_Z (len chapters + 1)
              end;
     page_start := match page_number with Some p => p | None => 0 end;
     page_end := None;
     level := lvl |}.

(** [_process_outline(outline, level)], with [self.chapters] threaded
    through. *)
Fixpoint process_item (total_pages : Z) (lvl : Z) (chapters : list chapter)
    (item : outline_item) {struct item} : list chapter :=
  match item with
  | ODict pn ot => chapters ++ [outline_chapter chapters pn ot lvl]
  | OList [parent; children] =>
      let chapters :=
        match parent with
        | ODict pn ot => chapters ++ [outline_chapter chapters pn ot lvl]
        | _ => chapters
        end in
      match children with
      | OList cs =>
          set_last_page_end total_pages
            (set_page_ends
               (fold_left (process_item total_pages (lvl + 1)) cs chapters))
      | _ => chapters
      end
  | _ => chapters
  end.

Definition process_outline (total_pages : Z) (outline : list outline_item)
    (lvl : Z) (chapters : list chapter) : list chapter :=
  set_last_page_end total_pages
    (set_page_ends
       (fold_left (process_item total_pages lvl) outline chapters)).

Definition create_default_chapters (total_pages : Z)
    (chapters : list chapter) : list chapter :=
  let chapter_size :=
    if total_pages <=? 10 then 1
    else if total_pages <=? 50 then 5
    else 10 in
  chapters ++
  map (fun i =>
         let e := Z.min (i + chapter_size - 1) (total_pages - 1) in
         {| title := py "Pages " ++ str_of_Z (i + 1) ++ py "-"
                     ++ str_of_Z (e + 1);
            page_start := i; page_end := Some e; level := 0 |})
      (range_by total_pages chapter_size).

(** [_extract_chapters]: [outline] is what reading [self.pdf.outline]
    gives; when that raises, the handler builds the default chapters. *)
Definition extract_chapters (pages : list page)
    (outline : result (list outline_item)) : list chapter :=
  match outline with
  | Ok o =>
      if truthy o then process_outline (len pages) o 0 []
      else create_default_chapters (len pages) []
  | Raise _ => create_default_chapters (len pages) []
  end.

(** [PDFProcessor(file_path)] on a document with these pages and
    outline. *)
Definition init (pages : list page) (outline : result (list outline_item))
  : t :=
  {| pages := pages; chapters := extract_chapters pages outline |}.

Definition get_chapters (self : t) : list chapter := chapters self.

(** The loop [for i in range(page_start, page_end + 1)] of
    [get_chapter_text], collecting the non-empty page texts. *)
Fixpoint page_texts (pages : list page) (idxs : list Z)
  : result (list pystr) :=
  match idxs with
  | [] => Ok []
  | i :: rest =>
      if i <? len pages then
        pg <- getitem pages i ;;
        page_text <- pg ;;
        texts <- page_texts pages rest ;;
        Ok (if truthy page_text then page_text :: texts else texts)
      else page_texts pages rest
  end.

Definition range_from (lo hi : Z) : list Z :=
  map (fun k => lo + Z.of_nat k) (seq 0 (Z.to_nat (hi - lo))).

Definition get_chapter_text (self : t) (chapter_index : Z) : result pystr :=
  try_except
    (if (chapter_index <? 0) || (chapter_index >=? len (chapters self))
     then Raise (IndexError (TextProcessor.out_of_range_msg chapter_index))
     else
       chapter <- getitem (chapters self) chapter_index ;;
       pe <- match page_end chapter with
             | Some e => Ok e
             | None => Raise (TypeError (py
                 "unsupported operand type(s) for +: 'NoneType' and 'int'"))
             end ;;
       texts <- page_texts (pages self)
                  (range_from (page_start chapter) (pe + 1)) ;;
       Ok (clean_text (join [10%N; 10%N] texts)))
    (fun e => Raise (ProcessingError
                       (py "Error getting chapter text: " ++ str_of_exn e))).

Definition get_chapter_title (self : t) (chapter_index : Z) : pystr :=
  match
    (if (chapter_index <? 0) || (chapter_index >=? len (chapters self))
     then Raise (IndexError (TextProcessor.out_of_range_msg chapter_index))
     else chapter <- getitem (chapters self) chapter_index ;;
          Ok (title chapter))
  with
  | Ok s => s
  | Raise _ => TextProcessor.fallback_title chapter_index
  end.

(** The block [f"Chapter: {chapter_title}\n\n{chapter_text}\n\n"]. *)
Definition chapter_block (chapter_title chapter_text : pystr) : pystr :=
  py "Chapter: " ++ chapter_title ++ [10%N; 10%N] ++ chapter_text
  ++ [10%N; 10%N].

(** The loop of [get_full_text] over [range(len(self.chapters))]. *)
Fixpoint full_text_blocks (self : t) (idxs : list Z) : result (list pystr) :=
  match idxs with
  | [] => Ok []
  | i :: rest =>
      let chapter_title := get_chapter_title self i in
      chapter_text <- get_chapter_text self i ;;
      texts <- full_text_blocks self rest ;;
      Ok (chapter_block chapter_title chapter_text :: texts)
  end.

Definition get_full_text (self : t) : result pystr :=
  try_except
    (texts <- full_text_blocks self (range_from 0 (len (chapters self))) ;;
     Ok (join [10%N] texts))
    (fun e => Raise (ProcessingError
                       (py "Error getting full text: " ++ str_of_exn e))).

End PDFProcessor.
End PDFProcessor.

(* ===================================================================== *)
(** * processors/epub_processor.py *)
(* ===================================================================== *)

Module EPUBProcessor.

(** A document item of the book, seen through the calls the code makes on
    it: [item.id], [item.get_type()], and what parsing its content gives
    ([soup.get_text()] once the script and style elements are removed, and
    the [.text] of the h1, h2 and h3 elements in document order), or the
    exception that decoding or parsing raises. *)
Record item := {
  id : pystr;
  is_document : bool;
  rendered_text : result pystr;
  headings : result (list pystr)
}.

(** The book as [epub.read_epub] returns it: the spine, a list of
    [(idref, linear)] pairs, and [get_item_with_id]. *)
Record book := {
  book_spine : list (pystr * pystr);
  get_item_with_id : pystr -> option item
}.

Record t := {
  the_book : book;
  spine : list (pystr * pystr)
}.

Section EPUBProcessor.
Context `{Unicode}.

(** [_load_epub]: the navigation entries first, then the others. *)
Definition init (b : book) : t :=
  {| the_book := b;
     spine :=
       filter (fun it => pystr_eqb (fst it) (py "nav")) (book_spine b)
       ++ filter (fun it => negb (pystr_eqb (fst it) (py "nav")))
                 (book_spine b) |}.

(** [get_chapters] reads [ebooklib.ITEM_DOCUMENT], but the module
    [epub_processor] imports [ebooklib] only inside [_load_epub], and
    [get_chapters] itself binds [epub] alone ([from ebooklib import
    epub]): the name [ebooklib] is bound neither locally nor globally
    there, and reading it raises [NameError]. *)
Definition ebooklib_bound_in_get_chapters : bool := false.

(** The loop of [get_chapters] over the spine.  [item and ...] reads
    [ebooklib] only for an item that was found. *)
Fixpoint collect_chapters (b : book) (spine : list (pystr * pystr))
    (chapters : list item) : result (list item) :=
  match spine with
  | [] => Ok chapters
  | item_id :: rest =>
      match get_item_with_id b (fst item_id) with
      | None => collect_chapters b rest chapters
      | Some it =>
          if ebooklib_bound_in_get_chapters then
            collect_chapters b rest
              (if is_document it then chapters ++ [it] else chapters)
          else Raise (NameError (py "name 'ebooklib' is not defined"))
      end
  end.

Definition get_chapters (self : t) : result (list item) :=
  try_except
    (collect_chapters (the_book self) (spine self) [])
    (fun e => Raise (ProcessingError
                       (py "Error getting chapters: " ++ str_of_exn e))).

Definition get_chapter_text (self : t) (chapter_index : Z) : result pystr :=
  try_except
    (chapters <- get_chapters self ;;
     if (chapter_index <? 0) || (chapter_index >=? len chapters)
     then Raise (IndexError (TextProcessor.out_of_range_msg chapter_index))
     else
       chapter <- getitem chapters chapter_index ;;
       text <- rendered_text chapter ;;
       Ok (clean_text text))
    (fun e => Raise (ProcessingError
                       (py "Error getting chapter text: " ++ str_of_exn e))).

(** [for heading in soup.find_all(['h1', 'h2', 'h3']):
       if heading.text.strip(): return heading.text.strip()] *)
Fixpoint first_heading (hs : list pystr) : option pystr :=
  match hs with
  | [] => None
  | h :: rest => if truthy (strip h) then Some (strip h)
                 else first_heading rest
  end.

Definition get_chapter_title (self : t) (chapter_index : Z) : pystr :=
  match
    (chapters <- get_chapters self ;;
     if (chapter_index <? 0) || (chapter_index >=? len chapters)
     then Raise (IndexError (TextProcessor.out_of_range_msg chapter_index))
     else
       chapter <- getitem chapters chapter_index ;;
       hs <- headings chapter ;;
       match first_heading hs with
       | Some h => Ok h
       | None =>
           if truthy (id chapter) then Ok (id chapter)
           else Ok (TextProcessor.fallback_title chapter_index)
       end)
  with
  | Ok s => s
  | Raise _ => TextProcessor.fallback_title chapter_index
  end.

Fixpoint full_text_blocks (self : t) (idxs : list Z) : result (list pystr) :=
  match idxs with
  | [] => Ok []
  | i :: rest =>
      let chapter_title := get_chapter_title self i in
      chapter_text <- get_chapter_text self i ;;
      texts <- full_text_blocks self rest ;;
      Ok (PDFProcessor.chapter_block chapter_title chapter_text :: texts)
  end.

Definition get_full_text (self : t) : result pystr :=
  try_except
    (chapters <- get_chapters self ;;
     texts <- full_text_blocks self
                (PDFProcessor.range_from 0 (len chapters)) ;;
     Ok (join [10%N] texts))
    (fun e => Raise (ProcessingError
                       (py "Error getting full text: " ++ str_of_exn e))).

End EPUBProcessor.
End EPUBProcessor.

(* ===================================================================== *)
(** * core/ebook.py *)
(* ===================================================================== *)

Module Ebook.

(** The processor [_load_processor] picks by file suffix. *)
Inductive processor :=
| Epub (p : EPUBProcessor.t)
| Pdf (p : PDFProcessor.t)
| Txt (p : TextProcessor.t).

(** An element of the chapter list a processor returns. *)
Inductive chapter_obj :=
| EpubChapter (c : EPUBProcessor.item)
| PdfChapter (c : PDFProcessor.chapter)
| TxtChapter (c : TextProcessor.chapter).

(** The attributes of an [Ebook] the modelled methods read and write:
    [self.chapters] caches the chapter list once it is not empty. *)
Record t := {
  the_processor : processor;
  chapters : list chapter_obj
}.

Section Ebook.
Context `{Unicode}.

Definition init (p : processor) : t :=
  {| the_processor := p; chapters := [] |}.

Definition processor_get_chapters (p : processor)
  : result (list chapter_obj) :=
  match p with
  | Epub p => cs <- EPUBProcessor.get_chapters p ;; Ok (map EpubChapter cs)
  | Pdf p => Ok (map PdfChapter (PDFProcessor.get_chapters p))
  | Txt p => Ok (map TxtChapter (TextProcessor.get_chapters p))
  end.

Definition processor_get_chapter_text (p : processor) (i : Z)
  : result pystr :=
  match p with
  | Epub p => EPUBProcessor.get_chapter_text p i
  | Pdf p => PDFProcessor.get_chapter_text p i
  | Txt p => TextProcessor.get_chapter_text p i
  end.

Definition processor_get_chapter_title (p : processor) (i : Z) : pystr :=
  match p with
  | Epub p => EPUBProcessor.get_chapter_title p i
  | Pdf p => PDFProcessor.get_chapter_title p i
  | Txt p => TextProcessor.get_chapter_title p i
  end.

Definition processor_get_full_text (p : processor) : result pystr :=
  match p with
  | Epub p => EPUBProcessor.get_full_text p
  | Pdf p => PDFProcessor.get_full_text p
  | Txt p => Ok (TextProcessor.get_full_text p)
  end.

(** Each method returns its outcome and the [Ebook] after the call. *)
Definition get_chapters (self : t) : result (list chapter_obj) * t :=
  if negb (truthy (chapters self)) then
    match processor_get_chapters (the_processor self) with
    | Ok cs => (Ok cs, {| the_processor := the_processor self;
                          chapters := cs |})
    | Raise e =>
        (Raise (FileError (py "Error loading chapters: " ++ str_of_exn e)),
         self)
    end
  else (Ok (chapters self), self).

Definition get_chapter_text (self : t) (chapter_index : Z)
  : result pystr * t :=
  match get_chapters self with
  | (Raise e, self) => (Raise e, self)
  | (Ok chapters, self) =>
      if (chapter_index <? 0) || (chapter_index >=? len chapters)
      then (Raise (IndexError
                     (TextProcessor.out_of_range_msg chapter_index)), self)
      else
        (try_except
           (processor_get_chapter_text (the_processor self) chapter_index)
           (fun e => Raise (FileError (py "Error getting chapter text: "
                                       ++ str_of_exn e))),
         self)
  end.

Definition get_chapter_title (self : t) (chapter_index : Z)
  : result pystr * t :=
  match get_chapters self with
  | (Raise e, self) => (Raise e, self)
  | (Ok chapters, self) =>
      if (chapter_index <? 0) || (chapter_index >=? len chapters)
      then (Raise (IndexError
                     (TextProcessor.out_of_range_msg chapter_index)), self)
      else
        (try_except
           (Ok (processor_get_chapter_title (the_processor self)
                  chapter_index))
           (fun _ => Ok (TextProcessor.fallback_title chapter_index)),
         self)
  end.

Definition get_full_text (self : t) : result pystr :=
  try_except
    (processor_get_full_text (the_processor self))
    (fun e => Raise (FileError (py "Error getting full text: "
                                ++ str_of_exn e))).

End Ebook.
End Ebook.

(* ===================================================================== *)
(** * core/audio_utils.py and converters/book_converter.py *)
(* ===================================================================== *)

Module BookConverter.

(** What a run does that can be observed from outside, in order. *)
Inductive event :=
| Synthesize (text output_path : pystr)
| Progress (overall_progress : Q)
| Status (msg : pystr)
| CombineAudioFiles (audio_files : list pystr) (output_file : pystr)
                    (format bitrate : pystr)
| Unlink (path : pystr)
| Rmdir (path : pystr).

(** A computation: its outcome and the events it produced. *)
Definition M (A : Type) : Type := result A * list event.

Definition ret {A} (a : A) : M A := (Ok a, []).
Definition raise {A} (e : exn) : M A := (Raise e, []).
Definition emit (ev : event) : M unit := (Ok tt, [ev]).
Definition lift {A} (r : result A) : M A := (r, []).

Definition bindM {A B} (m : M A) (k : A -> M B) : M B :=
  match m with
  | (Ok a, t) => let '(r, t') := k a in (r, t ++ t')
  | (Raise e, t) => (Raise e, t)
  end.

Definition try_exceptM {A} (m : M A) (handler : exn -> M A) : M A :=
  match m with
  | (Ok a, t) => (Ok a, t)
  | (Raise e, t) => let '(r, t') := handler e in (r, t ++ t')
  end.

Declare Scope conv_scope.
Delimit Scope conv_scope with conv.
Notation "x <~ c ;; k" := (bindM c (fun x => k))
  (at level 61, c at next level, right associativity) : conv_scope.
Notation "c ;;; k" := (bindM c (fun _ => k))
  (at level 61, right associativity) : conv_scope.
Local Open Scope conv_scope.

(** [self.config] after [__init__] applied the defaults.  [temp_dir] is
    [None] when the configuration gives none (or an empty one). *)
Record config := {
  chunk_size : Z;
  max_workers : Z;
  temp_dir : option pystr;
  keep_temp_files : bool;
  output_format : pystr;
  output_quality : Z
}.

Definition default_config : config :=
  {| chunk_size := 2000; max_workers := 4; temp_dir := None;
     keep_temp_files := false; output_format := py "mp3";
     output_quality := 192 |}.

(** The [ebook] object the converter holds, through the three methods it
    calls. *)
Record ebook_api := {
  get_chapters : result (list Ebook.chapter_obj);
  get_chapter_text : Z -> result pystr;
  get_chapter_title : Z -> result pystr
}.

(** The collaborators outside the repository: the speech engine; the
    file system ([tempfile.mkdtemp], asked once for the book and once for
    each chapter converted, [os.makedirs], [os.path.abspath],
    [os.unlink], [os.rmdir], and [tempfile.NamedTemporaryFile], which is
    given the lines written to the file and returns the name of the
    file); FFmpeg ([check_ffmpeg], and [subprocess.run] on a command
    line); and the order in which the worker pool completes the tasks of
    a chapter ([as_completed] yields each submitted task once, first
    finished first). *)
Record world := {
  save_to_file : pystr -> pystr -> result unit;
  mkdtemp : option Z -> result pystr;
  makedirs : pystr -> result unit;
  abspath : pystr -> pystr;
  unlink : pystr -> result unit;
  rmdir : pystr -> result unit;
  named_temporary_file : list pystr -> result pystr;
  ffmpeg_installed : bool;
  subprocess_run : list pystr -> result unit;
  as_completed : Z -> nat -> list nat
}.

(** [os.path.join(a, b)] on POSIX. *)
Definition path_join (a b : pystr) : pystr :=
  if startswith b (py "/") then b
  else if negb (truthy a) || startswith (rev a) (py "/") then a ++ b
  else a ++ py "/" ++ b.

Fixpoint drop_while (f : char -> bool) (s : pystr) : pystr :=
  match s with
  | [] => []
  | c :: r => if f c then drop_while f r else s
  end.

(** [os.path.dirname(p)] on POSIX: up to the last slash, without trailing
    slashes unless nothing else is left. *)
Definition dirname (p : pystr) : pystr :=
  let head := rev (drop_while (fun c => negb (c =? 47)%N) (rev p)) in
  if truthy head && negb (forallb (fun c => (c =? 47)%N) head)
  then rev (drop_while (fun c => (c =? 47)%N) (rev head))
  else head.

Section BookConverter.
Context `{Unicode}.
Variable ebook : ebook_api.
Variable w : world.
Variable cfg : config.

(** The working directory: the configured one, created if need be, or a
    fresh temporary one. *)
Definition working_dir (chapter_index : option Z) : result pystr :=
  match temp_dir cfg with
  | Some d => _ <- makedirs w d ;; Ok d
  | None => mkdtemp w chapter_index
  end.

(** [os.makedirs(os.path.dirname(os.path.abspath(output_file)))]. *)
Definition make_output_dir (output_file : pystr) : result unit :=
  makedirs w (dirname (abspath w output_file)).

(** The command line [combine_audio_files] runs. *)
Definition ffmpeg_cmd (file_list output_file format bitrate : pystr)
  : list pystr :=
  [py "ffmpeg"; py "-y"; py "-f"; py "concat"; py "-safe"; py "0";
   py "-i"; file_list;
   py "-c:a"; if pystr_eqb format (py "mp3") then py "libmp3lame"
              else py "copy";
   py "-b:a"; bitrate; output_file].

(** The body of the [try] block of [combine_audio_files]: the list of
    the files is written to a temporary file, the output directory is
    created, FFmpeg is run, and the temporary file is removed. *)
Definition ffmpeg_concat (audio_files : list pystr)
    (output_file format bitrate : pystr) : M bool :=
  file_list <~
    lift (named_temporary_file w
            (map (fun audio_file =>
                    py "file '" ++ abspath w audio_file ++ py "'" ++ [10%N])
                 audio_files)) ;;
  lift (make_output_dir output_file) ;;;
  lift (subprocess_run w (ffmpeg_cmd file_list output_file format bitrate)) ;;;
  emit (Unlink file_list) ;;;
  lift (unlink w file_list) ;;;
  ret true.

(** [combine_audio_files(audio_files, output_file, format, bitrate)]. *)
Definition combine_audio_files (audio_files : list pystr)
    (output_file format bitrate : pystr) : M bool :=
  emit (CombineAudioFiles audio_files output_file format bitrate) ;;;
  if negb (truthy audio_files) then ret false
  else if negb (ffmpeg_installed w) then
    raise (ProcessingError (py
      "FFmpeg is not installed. Please install FFmpeg to combine audio files."))
  else
    try_exceptM
      (ffmpeg_concat audio_files output_file format bitrate)
      (fun e => raise (ProcessingError
                         (py "Failed to combine audio files: "
                          ++ str_of_exn e))).

(** An optional callback is the events a call to it produces. *)
Definition callback := option (Z -> Z -> list event).

Definition call (cb : callback) (current total : Z) : M unit :=
  match cb with
  | Some f => (Ok tt, f current total)
  | None => ret tt
  end.

Definition chunk_file_name (chunk_index : Z) : pystr :=
  py "chunk_" ++ str_of_Z chunk_index ++ py "." ++ output_format cfg.

(** [_process_chunk(chunk, chunk_index, temp_dir)]: the path of the
    fragment, or [None] when the synthesis raised. *)
Definition process_chunk (chunk : pystr) (chunk_index : Z)
    (tmp : pystr) : M (option pystr) :=
  let chunk_file := path_join tmp (chunk_file_name chunk_index) in
  try_exceptM
    (emit (Synthesize chunk chunk_file) ;;;
     lift (save_to_file w chunk chunk_file) ;;;
     ret (Some chunk_file))
    (fun _ => ret None).

(** The loop [for i, future in enumerate(as_completed(future_to_chunk))].
    [futures] are the submitted tasks by chunk index, [completed] the
    enumerated completion order. *)
Fixpoint process_results (futures : list (M (option pystr)))
    (total : Z) (cb : callback) (completed : list (Z * nat))
    (chunk_files : list pystr) : M (list pystr) :=
  match completed with
  | [] => ret chunk_files
  | (i, chunk_index) :: rest =>
      match nth_error futures chunk_index with
      | None => process_results futures total cb rest chunk_files
      | Some future =>
          chunk_files <~
            try_exceptM
              (chunk_file <~ future ;;
               let chunk_files :=
                 match chunk_file with
                 | Some f => chunk_files ++ [f]
                 | None => chunk_files
                 end in
               call cb (i + 1) total ;;;
               ret chunk_files)
              (fun _ => ret chunk_files) ;;
          process_results futures total cb rest chunk_files
      end
  end.

(** [try: os.unlink(f) / except Exception: ...] and the like: what the
    removal raises is logged and goes no further. *)
Definition remove (ev : event) (outcome : result unit) : M unit :=
  try_exceptM (emit ev ;;; lift outcome) (fun _ => ret tt).

Fixpoint unlink_all (files : list pystr) : M unit :=
  match files with
  | [] => ret tt
  | f :: rest => remove (Unlink f) (unlink w f) ;;; unlink_all rest
  end.

(** [ThreadPoolExecutor(max_workers=max_workers)], which refuses a pool
    without workers. *)
Definition thread_pool_executor (max_workers : Z) : result unit :=
  if max_workers <=? 0
  then Raise (ValueError (py "max_workers must be greater than 0"))
  else Ok tt.

Definition bitrate : pystr := str_of_Z (output_quality cfg) ++ py "k".

Definition convert_chapter (chapter_index : Z) (output_file : option pystr)
    (progress_callback : callback) : M (option pystr) :=
  try_exceptM
    (chapter_text <~ lift (get_chapter_text ebook chapter_index) ;;
     chapter_title <~ lift (get_chapter_title ebook chapter_index) ;;
     if negb (truthy chapter_text) then ret None
     else
       tmp <~ lift (working_dir (Some chapter_index)) ;;
       let output_file :=
         match output_file with
         | Some (c :: f) => c :: f
         | _ =>
             path_join tmp
               (py "chapter_" ++ str_of_Z (chapter_index + 1) ++ py "_"
                ++ chapter_title ++ py "." ++ output_format cfg)
         end in
       lift (make_output_dir output_file) ;;;
       let chunks :=
         split_text_into_chunks chapter_text (chunk_size cfg)
           default_overlap in
       match chunks with
       | [] => ret None
       | [chunk] =>
           emit (Synthesize chunk output_file) ;;;
           lift (save_to_file w chunk output_file) ;;;
           call progress_callback 1 1 ;;;
           ret (Some output_file)
       | _ =>
           lift (thread_pool_executor (max_workers cfg)) ;;;
           let futures :=
             map (fun ic => process_chunk (snd ic) (fst ic) tmp)
                 (enumerate chunks) in
           chunk_files <~
             process_results futures (len chunks) progress_callback
               (enumerate (as_completed w chapter_index (length chunks)))
               [] ;;
           if truthy chunk_files then
             combine_audio_files chunk_files output_file
               (output_format cfg) bitrate ;;;
             (if negb (keep_temp_files cfg) then unlink_all chunk_files
              else ret tt) ;;;
             ret (Some output_file)
           else ret None
       end)
    (fun e => raise (ConversionError
                       (py "Error converting chapter "
                        ++ str_of_Z chapter_index ++ py ": "
                        ++ str_of_exn e))).

(** [overall_progress = (i + current / total) / len(chapters) * 100], on
    [int]s: a true division, and from there on [float] operations, the
    other operand converted. *)
Definition overall_progress (i current total nchapters : Z) : Q :=
  PyFloat.mul
    (PyFloat.div
       (PyFloat.add (PyFloat.of_int i) (PyFloat.truediv current total))
       (PyFloat.of_int nchapters))
    (PyFloat.of_int 100).

Definition status (status_callback : bool) (msg : pystr) : M unit :=
  if status_callback then emit (Status msg) else ret tt.

(** The loop of [convert_book] over [enumerate(chapters)]. *)
Fixpoint convert_chapters (progress_callback status_callback : bool)
    (nchapters : Z) (idxs : list Z) (chapter_files : list pystr)
  : M (list pystr) :=
  match idxs with
  | [] => ret chapter_files
  | i :: rest =>
      status status_callback
        (py "Converting chapter " ++ str_of_Z (i + 1) ++ py "/"
         ++ str_of_Z nchapters) ;;;
      let chapter_progress : callback :=
        Some (fun current total =>
                if progress_callback
                then [Progress (overall_progress i current total nchapters)]
                else []) in
      chapter_file <~ convert_chapter i None chapter_progress ;;
      convert_chapters progress_callback status_callback nchapters rest
        (match chapter_file with
         | Some f => chapter_files ++ [f]
         | None => chapter_files
         end)
  end.

Definition convert_book (output_file : pystr)
    (progress_callback status_callback : bool) : M (option pystr) :=
  try_exceptM
    (tmp <~ lift (working_dir None) ;;
     lift (make_output_dir output_file) ;;;
     chapters <~ lift (get_chapters ebook) ;;
     if negb (truthy chapters) then
       status status_callback (py "No chapters found in book") ;;;
       ret None
     else
       chapter_files <~
         convert_chapters progress_callback status_callback (len chapters)
           (map fst (enumerate chapters)) [] ;;
       if truthy chapter_files then
         status status_callback (py "Combining audio files...") ;;;
         combine_audio_files chapter_files output_file
           (output_format cfg) bitrate ;;;
         (if negb (keep_temp_files cfg) then unlink_all chapter_files
          else ret tt) ;;;
         (if negb (keep_temp_files cfg)
             && match temp_dir cfg with None => true | Some _ => false end
          then remove (Rmdir tmp) (rmdir w tmp) else ret tt) ;;;
         status status_callback
           (py "Book converted to " ++ output_file) ;;;
         ret (Some output_file)
       else
         status status_callback (py "No audio chapters generated") ;;;
         ret None)
    (fun e =>
       status status_callback (py "Error: " ++ str_of_exn e) ;;;
       raise (ConversionError (py "Error converting book: "
                               ++ str_of_exn e))).

End BookConverter.

(** The events of a run that are calls of the book's progress callback,
    and the lists handed to [combine_audio_files]. *)
Definition progress_values (t : list event) : list Q :=
  flat_map (fun ev => match ev with Progress q => [q] | _ => [] end) t.

Definition combined_lists (t : list event) : list (list pystr) :=
  flat_map (fun ev => match ev with
                      | CombineAudioFiles fs _ _ _ => [fs]
                      | _ => []
                      end) t.

(** An [Ebook] as the converter sees it: what its methods return. *)
Definition of_ebook `{Unicode} (e : Ebook.t) : ebook_api :=
  {| get_chapters := fst (Ebook.get_chapters e);
     get_chapter_text := fun i => fst (Ebook.get_chapter_text e i);
     get_chapter_title := fun i => fst (Ebook.get_chapter_title e i) |}.

End BookConverter.

(* ===================================================================== *)
(** * core/text_utils.py: word count and reading time *)
(* ===================================================================== *)

Module TextStats.
Section TextStats.
Context `{Unicode}.

(** [re.findall(r'\b\w+\b', text)] finds the maximal runs of word
    characters; [count_runs] counts them.  [in_word] tells that the
    previous character was a word character. *)
Fixpoint count_runs (in_word : bool) (s : pystr) : Z :=
  match s with
  | [] => 0
  | c :: r =>
      if isword c
      then (if in_word then 0 else 1) + count_runs true r
      else count_runs false r
  end.

Definition count_words (text : pystr) : Z :=
  if negb (truthy text) then 0 else count_runs false text.

(** [estimate_reading_time(text, wpm=150)], in minutes.  The division
    raises [ZeroDivisionError] for [wpm = 0]; the handler reads only its
    text. *)
Definition estimate_reading_time (text : pystr) (wpm : Z) : result Q :=
  if negb (truthy text) then Ok 0%Q
  else
    try_except
      (let word_count := count_words text in
       if wpm =? 0 then Raise (ExternalError (py "division by zero"))
       else Ok (inject_Z word_count / inject_Z wpm)%Q)
      (fun e => Raise (ProcessingError
                         (py "Failed to estimate reading time: "
                          ++ str_of_exn e))).

End TextStats.

Definition default_wpm : Z := 150.

End TextStats.

(* ===================================================================== *)
(** * Metadata: processors/*.py and core/ebook.py *)
(* ===================================================================== *)

Module Metadata.

(** A metadata dictionary: its keys in insertion order, each with a
    string or [None]. *)
Definition pydict := list (pystr * option pystr).

(** [d.get(key, default)]. *)
Fixpoint dict_get (d : pydict) (key : pystr) (default : option pystr)
  : option pystr :=
  match d with
  | [] => default
  | (k, v) :: rest =>
      if pystr_eqb k key then v else dict_get rest key default
  end.

(** [TextProcessor._load_text]: the metadata of a text file; [basename]
    is [os.path.basename(self.file_path)]. *)
Definition text_metadata (basename : pystr) : pydict :=
  [ (py "title", Some basename);
    (py "author", Some (py "Unknown"));
    (py "language", Some (py "en")) ].

(** [if not value: self.metadata[key] = None]. *)
Definition falsy_to_none (value : option pystr) : option pystr :=
  match value with
  | Some s => if truthy s then Some s else None
  | None => None
  end.

(** [PDFProcessor._extract_metadata].  [pdf_metadata] is what reading
    [self.pdf.metadata] gives: a dictionary of strings ([None] and the
    empty dictionary are both falsy and modelled by the empty one), or
    an exception of the library. *)
Definition pdf_extract_metadata (basename : pystr)
    (pdf_metadata : result pydict) : pydict :=
  match pdf_metadata with
  | Ok md =>
      let metadata :=
        if truthy md then
          [ (py "title", dict_get md (py "Title") None);
            (py "author", dict_get md (py "Author") None);
            (py "creator", dict_get md (py "Creator") None);
            (py "producer", dict_get md (py "Producer") None);
            (py "subject", dict_get md (py "Subject") None);
            (py "keywords", dict_get md (py "Keywords") None);
            (py "created", dict_get md (py "CreationDate") None);
            (py "modified", dict_get md (py "ModDate") None) ]
        else
          [ (py "title", Some basename);
            (py "author", Some (py "Unknown")) ] in
      map (fun kv => (fst kv, falsy_to_none (snd kv))) metadata
  | Raise _ =>
      [ (py "title", Some basename);
        (py "author", Some (py "Unknown")) ]
  end.

(** [EPUBProcessor._extract_metadata].  [dc name] is what
    [self.book.get_metadata('DC', name)] gives: the values recorded under
    the name, each the first component of a pair (the attributes are not
    read), or an exception of the library. *)
Definition epub_extract_metadata (basename : pystr)
    (dc : pystr -> result (list (option pystr))) : pydict :=
  match
    (title <- dc (py "title") ;;
     creator <- dc (py "creator") ;;
     language <- dc (py "language") ;;
     identifier <- dc (py "identifier") ;;
     publisher <- dc (py "publisher") ;;
     date <- dc (py "date") ;;
     rights <- dc (py "rights") ;;
     description <- dc (py "description") ;;
     Ok [ (py "title", title); (py "author", creator);
          (py "language", language); (py "identifier", identifier);
          (py "publisher", publisher); (py "date", date);
          (py "rights", rights); (py "description", description) ])
  with
  | Ok metadata =>
      map (fun kv => (fst kv, match snd kv with
                              | value :: _ => value
                              | [] => None
                              end)) metadata
  | Raise _ =>
      [ (py "title", Some basename);
        (py "author", Some (py "Unknown"));
        (py "language", Some (py "en")) ]
  end.

(** What the processor of a document has to extract its metadata from. *)
Inductive source :=
| EpubSource (dc : pystr -> result (list (option pystr)))
| PdfSource (pdf_metadata : result pydict)
| TxtSource.

(** [self.processor.get_metadata()]. *)
Definition get_metadata (basename : pystr) (src : source) : pydict :=
  match src with
  | EpubSource dc => epub_extract_metadata basename dc
  | PdfSource md => pdf_extract_metadata basename md
  | TxtSource => text_metadata basename
  end.

(** The attributes [Ebook._load_metadata] sets. *)
Record info := {
  title : option pystr;
  author : option pystr;
  language : option pystr
}.

Definition load_metadata (basename : pystr) (metadata : pydict) : info :=
  {| title := dict_get metadata (py "title") (Some basename);
     author := dict_get metadata (py "author") (Some (py "Unknown"));
     language := dict_get metadata (py "language") (Some (py "en")) |}.

(** The attributes of [Ebook(file_path)] for a document of this
    source. *)
Definition ebook_info (basename : pystr) (src : source) : info :=
  load_metadata basename (get_metadata basename src).

End Metadata.

(* ===================================================================== *)
(** * core/config.py *)
(* ===================================================================== *)

Module Config.

(** A [float]: a finite one by its value, a rational. *)
Inductive pyfloat :=
| FNum (q : Q)
| FNegZero
| FInf (negative : bool)
| FNan.

(** The values a configuration holds: what [json.load] can give, which
    covers what the defaults are made of and what the command line sets.
    A [VDict] is a [dict] with string keys, in insertion order. *)
#[warnings="-register-all"]
Inductive pyval :=
| VNone
| VBool (b : bool)
| VInt (i : Z)
| VFloat (x : pyfloat)
| VStr (s : pystr)
| VList (l : list pyval)
| VDict (d : list (pystr * pyval)).

(** The number a key is, when it is one: [True == 1 == 1.0]. *)
Definition number (v : pyval) : option Q :=
  match v with
  | VBool b => Some (if b then 1 else 0)%Q
  | VInt i => Some (inject_Z i)
  | VFloat (FNum q) => Some q
  | VFloat FNegZero => Some 0%Q
  | _ => None
  end.

(** Whether two keys are the same key of a [dict].  The [nan] of [json]
    is one object, which a [dict] finds by identity. *)
Definition key_eqb (a b : pyval) : bool :=
  match a, b with
  | VNone, VNone => true
  | VStr s, VStr s' => pystr_eqb s s'
  | VFloat (FInf n), VFloat (FInf n') => Bool.eqb n n'
  | VFloat FNan, VFloat FNan => true
  | _, _ =>
      match number a, number b with
      | Some x, Some y => Qeq_bool x y
      | _, _ => false
      end
  end.

(** [self.config]: a dictionary in insertion order.  Its keys are
    strings, unless a file put others there. *)
Definition dict := list (pyval * pyval).

(** [d.get(key, default)]. *)
Fixpoint dict_get (d : dict) (key default : pyval) : pyval :=
  match d with
  | [] => default
  | (k, v) :: rest =>
      if key_eqb k key then v else dict_get rest key default
  end.

(** [d[key] = value]: the value of an existing key is replaced where it
    stands, a new key is added at the end. *)
Fixpoint dict_set (d : dict) (key value : pyval) : dict :=
  match d with
  | [] => [(key, value)]
  | (k, v) :: rest =>
      if key_eqb k key then (k, value) :: rest
      else (k, v) :: dict_set rest key value
  end.

(** [type(v).__name__]. *)
Definition type_name (v : pyval) : pystr :=
  match v with
  | VNone => py "NoneType"
  | VBool _ => py "bool"
  | VInt _ => py "int"
  | VFloat _ => py "float"
  | VStr _ => py "str"
  | VList _ => py "list"
  | VDict _ => py "dict"
  end.

(** The elements of a value that can be iterated over: the characters of
    a string, the elements of a list, the keys of a dictionary. *)
Definition elements (v : pyval) : option (list pyval) :=
  match v with
  | VStr s => Some (map (fun c => VStr [c]) s)
  | VList l => Some l
  | VDict d => Some (map (fun kv => VStr (fst kv)) d)
  | _ => None
  end.

Definition hashable (v : pyval) : bool :=
  match v with
  | VList _ | VDict _ => false
  | _ => true
  end.

(** [d.update(other)] for an [other] that is no mapping: each element
    has to be a sequence of a key and a value.  The elements before the
    one that raises have been applied. *)
Fixpoint update_from_seq (d : dict) (i : Z) (items : list pyval)
  : result unit * dict :=
  match items with
  | [] => (Ok tt, d)
  | item :: rest =>
      match elements item with
      | None =>
          (Raise (TypeError
                    (py "cannot convert dictionary update sequence element #"
                     ++ str_of_Z i ++ py " to a sequence")), d)
      | Some [key; value] =>
          if hashable key
          then update_from_seq (dict_set d key value) (i + 1) rest
          else (Raise (TypeError (py "unhashable type: '" ++ type_name key
                                  ++ py "'")), d)
      | Some fast =>
          (Raise (ValueError
                    (py "dictionary update sequence element #"
                     ++ str_of_Z i ++ py " has length "
                     ++ str_of_Z (len fast) ++ py "; 2 is required")), d)
      end
  end.

(** [d.update(other)] for a mapping with string keys. *)
Definition update_from_mapping (d : dict) (other : list (pystr * pyval))
  : dict :=
  fold_left (fun d kv => dict_set d (VStr (fst kv)) (snd kv)) other d.

(** [d.update(other)]: the outcome, and [d] afterwards. *)
Definition dict_update (d : dict) (other : pyval) : result unit * dict :=
  match other with
  | VDict m => (Ok tt, update_from_mapping d m)
  | VList _ | VStr _ =>
      update_from_seq d 0
        (match elements other with Some items => items | None => [] end)
  | _ =>
      (Raise (TypeError (py "'" ++ type_name other
                         ++ py "' object is not iterable")), d)
  end.

(** The dictionary [__init__] starts from. *)
Definition defaults : dict :=
  [ (VStr (py "tts_engine"), VStr (py "edge"));
    (VStr (py "voice"), VStr (py "en-US-ChristopherNeural"));
    (VStr (py "language"), VStr (py "en"));
    (VStr (py "speed"), VInt 150);
    (VStr (py "volume"), VInt 100);
    (VStr (py "pitch"), VInt 0);
    (VStr (py "pause_length"), VInt 500);
    (VStr (py "chunk_size"), VInt 2000);
    (VStr (py "max_workers"), VInt 4);
    (VStr (py "temp_dir"), VNone);
    (VStr (py "keep_temp_files"), VBool false);
    (VStr (py "output_format"), VStr (py "mp3"));
    (VStr (py "output_quality"), VInt 192);
    (VStr (py "output_sample_rate"), VInt 44100);
    (VStr (py "whisper_model"), VStr (py "base"));
    (VStr (py "whisper_language"), VNone);
    (VStr (py "theme"), VStr (py "system"));
    (VStr (py "window_size"), VStr (py "800x600"));
    (VStr (py "recent_files"), VList []);
    (VStr (py "last_directory"), VNone) ].

(** The file system as the class uses it: the default path
    [Path.home() / ".epub2tts" / "config.json"]; creating the directory
    of a configuration file; whether a file exists; what opening a file
    and [json.load] give, a value or the exception of either; and
    whether a file can be written.  With it comes [float.__repr__],
    which [json.dump] writes a finite float with. *)
Record files := {
  default_config_file : pystr;
  mkdir_parent : pystr -> result unit;
  exists_file : pystr -> bool;
  load_json : pystr -> result pyval;
  writable : pystr -> result unit;
  float_repr : Q -> pystr
}.

(** The attributes of a [Config]. *)
Record t := {
  config : dict;
  config_file : pystr
}.

(** The outcome of [load] and [save], which raise [ConfigError] only. *)
Inductive outcome (A : Type) :=
| Done (a : A)
| ConfigError (msg : pystr).
Arguments Done {A} a.
Arguments ConfigError {A} msg.

(** [get] and [set], which the program calls with string keys. *)
Definition get (self : t) (key : pystr) (default : pyval) : pyval :=
  dict_get (config self) (VStr key) default.

Definition set (self : t) (key : pystr) (value : pyval) : t :=
  {| config := dict_set (config self) (VStr key) value;
     config_file := config_file self |}.

(** [load]: its outcome, and the [Config] afterwards: what [update] had
    applied when it raised stays applied. *)
Definition load (fs : files) (self : t) : outcome unit * t :=
  match load_json fs (config_file self) with
  | Ok loaded_config =>
      let '(updated, d) := dict_update (config self) loaded_config in
      (match updated with
       | Ok _ => Done tt
       | Raise e =>
           ConfigError (py "Failed to load configuration: " ++ str_of_exn e)
       end,
       {| config := d; config_file := config_file self |})
  | Raise e =>
      (ConfigError (py "Failed to load configuration: " ++ str_of_exn e),
       self)
  end.

(** The body of [__init__] once [self.config_file] is known: what
    [load] raises is logged and goes no further. *)
Definition init_at (fs : files) (path : pystr) : result t :=
  let self := {| config := defaults; config_file := path |} in
  _ <- mkdir_parent fs path ;;
  if exists_file fs path then Ok (snd (load fs self)) else Ok self.

(** [Config(config_file)]; [Config()] is [init fs None]. *)
Definition init (fs : files) (config_file : option pystr) : result t :=
  init_at fs
    (match config_file with
     | Some f => if truthy f then f else default_config_file fs
     | None => default_config_file fs
     end).

(** The key [json.dump] writes for a key of a dictionary. *)
Definition json_key (fs : files) (key : pyval) : pystr :=
  match key with
  | VStr s => s
  | VFloat FNan => py "NaN"
  | VFloat (FInf false) => py "Infinity"
  | VFloat (FInf true) => py "-Infinity"
  | VFloat FNegZero => py "-0.0"
  | VFloat (FNum q) => float_repr fs q
  | VBool true => py "true"
  | VBool false => py "false"
  | VNone => py "null"
  | VInt i => str_of_Z i
  | VList _ | VDict _ => []
  end.

Fixpoint object_set (d : list (pystr * pyval)) (key : pystr) (value : pyval)
  : list (pystr * pyval) :=
  match d with
  | [] => [(key, value)]
  | (k, v) :: rest =>
      if pystr_eqb k key then (k, value) :: rest
      else (k, v) :: object_set rest key value
  end.

(** What [json.load] reads from what [json.dump] wrote for a dictionary:
    every key as JSON writes it, a key written twice keeping its first
    place and its last value. *)
Definition dumped (fs : files) (d : dict) : list (pystr * pyval) :=
  fold_left (fun o kv => object_set o (json_key fs (fst kv)) (snd kv)) d [].

(** [save]: the file system afterwards, in which the file holds what
    [json.dump] wrote. *)
Definition save (fs : files) (self : t) : outcome files :=
  match writable fs (config_file self) with
  | Ok _ =>
      Done {| default_config_file := default_config_file fs;
              mkdir_parent := mkdir_parent fs;
              exists_file := fun p =>
                if pystr_eqb p (config_file self) then true
                else exists_file fs p;
              load_json := fun p =>
                if pystr_eqb p (config_file self)
                then Ok (VDict (dumped fs (config self)))
                else load_json fs p;
              writable := writable fs;
              float_repr := float_repr fs |}
  | Raise e =>
      ConfigError (py "Failed to save configuration: " ++ str_of_exn e)
  end.

(** [reset]: [self.__init__(self.config_file)], on a path object, which
    is never falsy. *)
Definition reset (fs : files) (self : t) : result t :=
  init_at fs (config_file self).

End Config.

(* ===================================================================== *)
(** * core/tts_engines.py: [get_tts_engine] *)
(* ===================================================================== *)

Module TTSEngines.

(** The names under which the engine classes are registered. *)
Definition engine_names : list pystr := [py "edge"; py "google"; py "xtts"].

Section TTSEngines.
(** The engine objects; what [engine_class(config)] gives for the class
    registered under a name; and [engine.is_available()]. *)
Variable engine : Type.
Variable construct : pystr -> result engine.
Variable is_available : engine -> result bool.

Definition get_tts_engine (engine_name : pystr) : result engine :=
  if negb (existsb (pystr_eqb engine_name) engine_names) then
    Raise (TTSEngineError (py "Unknown TTS engine: " ++ engine_name))
  else
    try_except
      (e <- construct engine_name ;;
       available <- is_available e ;;
       if negb available then
         Raise (TTSEngineError (py "TTS engine " ++ engine_name
                                ++ py " is not available"))
       else Ok e)
      (fun e => Raise (TTSEngineError
                         (py "Error initializing TTS engine " ++ engine_name
                          ++ py ": " ++ str_of_exn e))).

End TTSEngines.
End TTSEngines.

(* ===================================================================== *)
(** * cli.py: the [convert] and [extract] commands *)
(* ===================================================================== *)

Module Cli.
Import BookConverter.

(** The arguments of [convert] as [argparse] hands them over, defaults
    filled in: [voice] and [voice_sample] are [None] when not given. *)
Record args := {
  input_file : pystr;
  output : pystr;
  engine_name : pystr;
  voice : option pystr;
  language : pystr;
  voice_sample : option pystr;
  chunk_size : Z;
  processes : Z;
  text_only : bool;
  keep_temp : bool
}.

(** What a command does that can be observed: a line printed, a text
    file written, an event of the converter. *)
Inductive output_event :=
| Say (line : pystr)
| WriteText (path text : pystr)
| Run (ev : event).

(** An [Ebook] that was opened: what the converter calls, its title, and
    what [get_full_text] returns. *)
Record opened := {
  api : ebook_api;
  title : option pystr;
  full_text : result pystr
}.

(** What opening a document gives, for an [Ebook] in its initial state
    with the attributes [i]. *)
Definition open_as `{Unicode} (e : Ebook.t) (i : Metadata.info) : opened :=
  {| api := of_ebook e;
     title := Metadata.title i;
     full_text := Ebook.get_full_text e |}.

Section Cli.
Context `{Unicode}.
Variable engine : Type.

(** What lies outside the command: the configuration files; opening a
    document ([Ebook(path)]); the engine classes; the file system and
    FFmpeg the converter works with (the [save_to_file] of [world] is
    the engine's); writing a text file. *)
Record system := {
  fs : Config.files;
  open_ebook : pystr -> result opened;
  construct : Config.t -> pystr -> result engine;
  is_available : engine -> result bool;
  engine_save_to_file : engine -> pystr -> pystr -> result unit;
  the_world : world;
  write_text : pystr -> pystr -> result unit
}.

(** The overrides [convert_command] applies to the configuration. *)
Definition overrides (a : args) (config : Config.t) : Config.t :=
  let config := Config.set config (py "tts_engine")
                  (Config.VStr (engine_name a)) in
  let config := Config.set config (py "voice")
                  (match voice a with
                   | Some v => Config.VStr v
                   | None => Config.VNone
                   end) in
  let config := Config.set config (py "language")
                  (Config.VStr (language a)) in
  let config := Config.set config (py "chunk_size")
                  (Config.VInt (chunk_size a)) in
  let config := Config.set config (py "max_workers")
                  (Config.VInt (processes a)) in
  let config := Config.set config (py "keep_temp_files")
                  (Config.VBool (keep_temp a)) in
  match voice_sample a with
  | Some s => if truthy s
              then Config.set config (py "voice_sample") (Config.VStr s)
              else config
  | None => config
  end.

(** [BookConverter.__init__]: the settings read from the configuration.
    The result is [None] for a configuration whose values are not of the
    types the converter computes with. *)
Definition converter_config (config : Config.t) : option BookConverter.config :=
  match Config.get config (py "chunk_size") (Config.VInt 2000),
        Config.get config (py "max_workers") (Config.VInt 4),
        Config.get config (py "keep_temp_files") (Config.VBool false),
        Config.get config (py "output_format") (Config.VStr (py "mp3")),
        Config.get config (py "output_quality") (Config.VInt 192)
  with
  | Config.VInt cs, Config.VInt mw, Config.VBool keep, Config.VStr fmt,
    Config.VInt q =>
      match Config.get config (py "temp_dir") Config.VNone with
      | Config.VNone =>
          Some {| BookConverter.chunk_size := cs; max_workers := mw;
                  temp_dir := None; keep_temp_files := keep;
                  output_format := fmt; output_quality := q |}
      | Config.VStr d =>
          Some {| BookConverter.chunk_size := cs; max_workers := mw;
                  temp_dir := if truthy d then Some d else None;
                  keep_temp_files := keep;
                  output_format := fmt; output_quality := q |}
      | _ => None
      end
  | _, _, _, _, _ => None
  end.

(** The world of a converter that holds the engine [e]. *)
Definition with_engine (sys : system) (e : engine) : world :=
  {| save_to_file := engine_save_to_file sys e;
     mkdtemp := mkdtemp (the_world sys);
     makedirs := makedirs (the_world sys);
     abspath := abspath (the_world sys);
     unlink := unlink (the_world sys);
     rmdir := rmdir (the_world sys);
     named_temporary_file := named_temporary_file (the_world sys);
     ffmpeg_installed := ffmpeg_installed (the_world sys);
     subprocess_run := subprocess_run (the_world sys);
     as_completed := as_completed (the_world sys) |}.

(** The classes derived from [EPUB2TTSError]. *)
Definition is_epub2tts_error (e : exn) : bool :=
  match e with
  | FileError _ | ProcessingError _ | ConversionError _
  | TTSEngineError _ => true
  | _ => false
  end.

(** The two [except] clauses of a command. *)
Definition exit_code (body : result unit * list output_event)
  : Z * list output_event :=
  match body with
  | (Ok _, t) => (0, t)
  | (Raise e, t) =>
      (1, t ++ [Say ((if is_epub2tts_error e then py "Error: "
                      else py "Unexpected error: ") ++ str_of_exn e)])
  end.

(** [f"{ebook.title}"]. *)
Definition str_of_title (t : option pystr) : pystr :=
  match t with Some s => s | None => py "None" end.

(** The [try] block of [convert_command]. *)
Definition convert_body (sys : system) (a : args)
  : option (result unit * list output_event) :=
  match Config.init (fs sys) None with
  | Raise e => Some (Raise e, [])
  | Ok config =>
      let config := overrides a config in
      match open_ebook sys (input_file a) with
      | Raise e => Some (Raise e, [])
      | Ok ebook =>
          match TTSEngines.get_tts_engine (construct sys config)
                  (is_available sys) (engine_name a) with
          | Raise e => Some (Raise e, [])
          | Ok tts_engine =>
              if text_only a then
                match full_text ebook with
                | Raise e => Some (Raise e, [])
                | Ok text =>
                    match write_text sys (output a) text with
                    | Raise e => Some (Raise e, [])
                    | Ok _ =>
                        Some (Ok tt,
                              [WriteText (output a) text;
                               Say (py "Text extracted to " ++ output a)])
                    end
                end
              else
                match converter_config config with
                | None => None
                | Some cfg =>
                    let announce :=
                      Say (py "Converting " ++ str_of_title (title ebook)
                           ++ py " to audio...") in
                    let '(r, t) :=
                      convert_book (api ebook) (with_engine sys tts_engine)
                        cfg (output a) true true in
                    match r with
                    | Ok _ =>
                        Some (Ok tt,
                              announce :: map Run t
                              ++ [Say (10%N :: py "Audiobook saved to "
                                       ++ output a)])
                    | Raise e => Some (Raise e, announce :: map Run t)
                    end
                end
          end
      end
  end.

(** [convert_command(args)]: the exit code and what was observed. *)
Definition convert_command (sys : system) (a : args)
  : option (Z * list output_event) :=
  option_map exit_code (convert_body sys a).

(** [extract_command(args)], on the input and output files. *)
Definition extract_command (sys : system) (input_file output : pystr)
  : Z * list output_event :=
  exit_code
    (match open_ebook sys input_file with
     | Raise e => (Raise e, [])
     | Ok ebook =>
         match full_text ebook with
         | Raise e => (Raise e, [])
         | Ok text =>
             match write_text sys output text with
             | Raise e => (Raise e, [])
             | Ok _ => (Ok tt, [WriteText output text;
                                Say (py "Text extracted to " ++ output)])
             end
         end
     end).

End Cli.
End Cli.

(* ===================================================================== *)
(** * Vocabulary of the properties *)
(* ===================================================================== *)

(** Definitions the statements below are written with.  They are not part
    of the program: each names something the program computes inline, or
    a reading of the specification to compare the program with. *)

Module Spec.
Import Ebook BookConverter.

(** The spec's reading of the overlap: the last [k] tokens of a chunk,
    all of them when it has fewer. *)
Definition last_tokens (k : nat) (words : list pystr) : list pystr :=
  skipn (length words - k) words.



(** The events a callback produces when called. *)
Definition cb_events (cb : callback) (current total : Z) : list event :=
  match cb with
  | Some f => f current total
  | None => []
  end.

(** What one completed task contributes: its fragment, if it has one, and
    its events followed by those of the progress callback. *)
Definition fragment_of (futures : list (M (option pystr)))
    (kj : Z * nat) : list pystr :=
  match nth_error futures (snd kj) with
  | Some (Ok (Some f), _) => [f]
  | _ => []
  end.

Definition events_of (futures : list (M (option pystr))) (total : Z)
    (cb : callback) (kj : Z * nat) : list event :=
  match nth_error futures (snd kj) with
  | Some (_, ev) => ev ++ cb_events cb (fst kj + 1) total
  | None => []
  end.

Definition never_raises {A} (m : M A) : Prop :=
  match fst m with Ok _ => True | Raise _ => False end.

(** The callback [convert_book] hands to [convert_chapter] for chapter
    [i] of [n]. *)
Definition book_callback (pc : bool) (i n : Z) : callback :=
  Some (fun current total =>
          if pc then [Progress (overall_progress i current total n)]
          else []).

(** The specification's progress metric,
    (chapters_fully_done + current_chapter_fraction_done) / total_chapters
    x 100, where [current] of the [total] tasks of the current chapter
    are done; in the arithmetic of floats. *)
Definition progress_metric (chapters_fully_done current total
    total_chapters : Z) : Q :=
  let current_chapter_fraction_done := PyFloat.truediv current total in
  PyFloat.mul
    (PyFloat.div
       (PyFloat.add (PyFloat.of_int chapters_fully_done)
          current_chapter_fraction_done)
       (PyFloat.of_int total_chapters))
    (PyFloat.of_int 100).

(** The counts [1, ..., total]. *)
Definition counts (total : Z) : list Z :=
  map (fun k => Z.of_nat k + 1) (seq 0 (Z.to_nat total)).

(** What chapter [fst it] of a book of [n] chapters reports when its
    [snd it] tasks complete one after the other. *)
Definition chapter_reports (n : Z) (it : Z * Z) : list Q :=
  map (fun current => progress_metric (fst it) current (snd it) n)
      (counts (snd it)).

(** Chapter [i] has [total] chunks. *)
Definition chunk_count `{Unicode} (ebook : ebook_api) (cfg : config)
    (i total : Z) : Prop :=
  exists text,
    get_chapter_text ebook i = Ok text
    /\ total = len (split_text_into_chunks text (chunk_size cfg)
                      default_overlap).

Section Chapter.
Variable w : world.
Variable cfg : config.
Variable tmp : pystr.

(** The chapter's output file (the one asked for, unless that is [None]
    or empty) and the fragment paths, in the working directory [tmp]. *)
Definition chapter_output (chapter_index : Z) (chapter_title : pystr)
    (output_file : option pystr) : pystr :=
  match output_file with
  | Some (c :: f) => c :: f
  | _ =>
      path_join tmp
        (py "chapter_" ++ str_of_Z (chapter_index + 1) ++ py "_"
         ++ chapter_title ++ py "." ++ output_format cfg)
  end.

Definition fragment_path (j : nat) : pystr :=
  path_join tmp (chunk_file_name cfg (Z.of_nat j)).

(** Chunk [j] exists and the engine synthesized it. *)
Definition synthesized (chunks : list pystr) (j : nat) : bool :=
  match nth_error chunks j with
  | Some chunk =>
      match save_to_file w chunk (fragment_path j) with
      | Ok _ => true
      | Raise _ => false
      end
  | None => false
  end.

Definition submitted (chunks : list pystr) : list (M (option pystr)) :=
  map (fun ic => process_chunk w cfg (snd ic) (fst ic) tmp)
      (enumerate chunks).

End Chapter.

End Spec.

(* ===================================================================== *)
(** * Concrete documents and collaborators *)
(* ===================================================================== *)

Module Demo.
Import Ebook BookConverter.
#[local] Existing Instance ascii_only.

(** A text file with one marked chapter. *)
Definition one_chapter_txt : TextProcessor.t :=
  TextProcessor.init (py "Chapter 1
Hello.").

(** A PDF of two pages without outline: two default chapters of one page
    each. *)
Definition two_page_pdf : PDFProcessor.t :=
  PDFProcessor.init [Ok (py "A."); Ok (py "B.")] (Ok []).


(** A text file with one chapter of three sentences, and a configuration
    whose [chunk_size] of 20 splits that chapter into three chunks. *)
Definition demo_book : ebook_api :=
  of_ebook (Ebook.init (Ebook.Txt (TextProcessor.init (py "Chapter 1
aa bb. cc dd. ee ff.")))).

Definition demo_cfg (size : Z) : config :=
  {| chunk_size := size; max_workers := 4; temp_dir := Some (py "/tmp/work");
     keep_temp_files := false; output_format := py "mp3";
     output_quality := 192 |}.

(** An engine that fails on the output paths listed in [failing], a
    working FFmpeg, and a pool that completes the tasks in [order]. *)
Definition demo_world (failing : list pystr) (order : list nat) : world :=
  {| save_to_file := fun _ path =>
       if existsb (pystr_eqb path) failing
       then Raise (TTSEngineError (py "synthesis failed"))
       else Ok tt;
     mkdtemp := fun _ => Ok (py "/tmp/epub2tts_0");
     makedirs := fun _ => Ok tt;
     abspath := fun path => path;
     unlink := fun _ => Ok tt;
     rmdir := fun _ => Ok tt;
     named_temporary_file := fun _ => Ok (py "/tmp/list.txt");
     ffmpeg_installed := true;
     subprocess_run := fun _ => Ok tt;
     as_completed := fun _ _ => order |}.

(** A text file of two chapters, the first of three chunks and the second
    of two when [chunk_size] is 20, and a pool that completes the tasks of
    every chapter last submitted first. *)
Definition two_chapter_book : ebook_api :=
  of_ebook (Ebook.init (Ebook.Txt (TextProcessor.init (py "Chapter 1
aa bb. cc dd. ee ff.
Chapter 2
gg hh. ii jj.")))).

Definition reversing_world : world :=
  {| save_to_file := fun _ _ => Ok tt;
     mkdtemp := fun _ => Ok (py "/tmp/epub2tts_0");
     makedirs := fun _ => Ok tt;
     abspath := fun path => path;
     unlink := fun _ => Ok tt;
     rmdir := fun _ => Ok tt;
     named_temporary_file := fun _ => Ok (py "/tmp/list.txt");
     ffmpeg_installed := true;
     subprocess_run := fun _ => Ok tt;
     as_completed := fun _ m => rev (seq 0 m) |}.

(** A text file with three marked chapters. *)
Definition three_chapter_txt : TextProcessor.t :=
  TextProcessor.init (py "Chapter 1
One fish.
Chapter 2
Two fish.
Chapter 3
Red fish.").

(** A text file of sixty sentences on one line, without any marker. *)
Definition sixty_sentences : pystr :=
  join (py " ")
    (map (fun k => py "S" ++ str_of_Z (Z.of_nat k) ++ py " x.") (seq 0 60)).

(** A PDF without pages: it has no chapter. *)
Definition empty_book : ebook_api :=
  of_ebook (Ebook.init (Ebook.Pdf (PDFProcessor.init [] (Ok [])))).

End Demo.

(** ** Texts, sentences and chunks *)

Module Shape.

(** The typographic characters [clean_text] rewrites: curly quotes,
    dashes and the ellipsis. *)
Definition typographic : list char :=
  [8216; 8217; 8220; 8221; 8211; 8212; 8230]%N.

(** A character of a cleaned text: not a control character, not
    typographic, and no whitespace other than the space. *)
Definition clean_char (c : char) : bool :=
  negb (is_control c)
  && negb (existsb (N.eqb c) typographic)
  && (negb (isspace c) || (c =? 32)%N).

(** A character as the replacements of [clean_text] leave it once the
    characters of [gone] have been rewritten. *)
Definition rewritten (gone : list char) (c : char) : Prop :=
  (isspace c = true -> c = 32%N) /\ ~ In c gone.

Definition nonspace (c : char) : bool := negb (isspace c).

(** No whitespace but single spaces: after a space ([after_space]) comes
    a character that is not whitespace. *)
Fixpoint single_spaced (after_space : bool) (s : pystr) : bool :=
  match s with
  | [] => true
  | c :: r =>
      if isspace c
      then negb after_space && (c =? 32)%N && single_spaced true r
      else single_spaced false r
  end.

(** A sentence as [split_into_sentences] returns it: non-empty and
    trimmed. *)
Definition solid (s : pystr) : Prop := s <> [] /\ strip s = s.

(** [s] occurs in [c] as a contiguous piece. *)
Definition infix (s c : pystr) : Prop := exists a b, c = a ++ s ++ b.

(** The state [(chunks, current_chunk)] of the chunker holds [s]: in a
    closed chunk or in the buffer. *)
Definition kept (st : list pystr * pystr) (s : pystr) : Prop :=
  Exists (infix s) (fst st) \/ infix s (snd st).

(** A word: one or more word characters. *)
Definition is_word `{Unicode} (w : pystr) : bool :=
  truthy w && forallb isword w.

End Shape.

(** ** Chapters *)

Module Layout.

(** Spans [(first, last)] that follow one another without gap or overlap
    from [lo] to [hi]: the first starts at [lo], each next one starts
    right after the one before ends, and the last ends at [hi]. *)
Fixpoint tiles (lo hi : Z) (spans : list (Z * Z)) : Prop :=
  match spans with
  | [] => lo = hi + 1
  | (s, e) :: rest => s = lo /\ tiles (e + 1) hi rest
  end.

(** The lines (or sentences) of a chapter of a text file. *)
Definition text_span (c : TextProcessor.chapter) : Z * Z :=
  (TextProcessor.start_idx c, TextProcessor.end_idx c).

(** The pages of a chapter of a PDF, once [page_end] is set. *)
Definition pdf_span (c : PDFProcessor.chapter) : option (Z * Z) :=
  option_map (pair (PDFProcessor.page_start c)) (PDFProcessor.page_end c).

(** The [chapter_indices] of [TextProcessor._extract_chapters]: the
    numbers of the lines that pass the marker test. *)
Definition marker_lines `{Unicode} (text : pystr) : list Z :=
  map fst (filter (fun il => TextProcessor.is_chapter_line (snd il))
                  (enumerate (split_on 10%N text))).

(** The last chapter of the list under construction is still open, or
    closed at the last page. *)
Fixpoint last_end_ok (total_pages : Z) (chapters : list PDFProcessor.chapter)
  : Prop :=
  match chapters with
  | [] => True
  | [c] => PDFProcessor.page_end c = None
           \/ PDFProcessor.page_end c = Some (total_pages - 1)
  | _ :: rest => last_end_ok total_pages rest
  end.

End Layout.

(** ** Runs of the converter *)

Module Run.
Import BookConverter.

(** The events of a run that remove something. *)
Definition deletion (ev : event) : bool :=
  match ev with
  | Unlink _ | Rmdir _ => true
  | _ => false
  end.

(** A file that [combine_audio_files] wrote the list of its inputs to. *)
Definition list_file (w : world) (path : pystr) : Prop :=
  exists lines, named_temporary_file w lines = Ok path.

(** The calls of the speech engine in a run: text and output path. *)
Definition synthesize_calls (t : list event) : list (pystr * pystr) :=
  flat_map (fun ev => match ev with
                      | Synthesize text path => [(text, path)]
                      | _ => []
                      end) t.

(** The loop of [convert_book] seen from the outcomes of its calls of
    [convert_chapter]: the chapter files gathered, or the first exception
    raised. *)
Fixpoint gather (outcome : Z -> result (option pystr)) (idxs : list Z)
    (chapter_files : list pystr) : result (list pystr) :=
  match idxs with
  | [] => Ok chapter_files
  | i :: rest =>
      match outcome i with
      | Ok chapter_file =>
          gather outcome rest
            (match chapter_file with
             | Some f => chapter_files ++ [f]
             | None => chapter_files
             end)
      | Raise e => Raise e
      end
  end.

(** The tasks submitted for the chunks of a chapter: each chunk with the
    path of its fragment in the working directory [tmp]. *)
Definition chunk_tasks (cfg : config) (tmp : pystr) (chunks : list pystr)
  : list (pystr * pystr) :=
  map (fun ic => (snd ic, path_join tmp (chunk_file_name cfg (fst ic))))
      (enumerate chunks).

(** The files of the chapters that gave one, in the order of [idxs]. *)
Definition picked (r : Z -> option pystr) (idxs : list Z) : list pystr :=
  flat_map (fun i => match r i with Some f => [f] | None => [] end) idxs.

End Run.

Module Samples.
Import BookConverter.
#[local] Existing Instance ascii_only.

(** A PDF of two pages, the second of which cannot be read. *)
Definition torn_pdf : ebook_api :=
  of_ebook (Ebook.init (Ebook.Pdf
    (PDFProcessor.init [Ok (py "A."); Raise (ExternalError (py "bad page"))]
                       (Ok [])))).

End Samples.

(** ** Configurations *)

Module Settings.
Import Config.

(** The keys of a dictionary. *)
Definition keys (d : dict) : list pyval := map fst d.

(** A dictionary as the class keeps it as long as [set] and files that
    hold a JSON object are all that wrote to it: every key a string, no
    key twice, and every key of the defaults present. *)
Definition complete (d : dict) : Prop :=
  Forall (fun k => exists s, k = VStr s) (keys d)
  /\ NoDup (keys d)
  /\ incl (keys defaults) (keys d).

(** [key in d]. *)
Definition has_key (d : dict) (key : pystr) : bool :=
  existsb (fun k => key_eqb k (VStr key)) (keys d).

(** A JSON object as a dictionary. *)
Definition of_object (m : list (pystr * pyval)) : dict :=
  map (fun kv => (VStr (fst kv), snd kv)) m.

(** The key and the value that an element of a sequence stands for: the
    element is itself a sequence of two, the first of them hashable. *)
Definition entry_of (item : pyval) : option (pyval * pyval) :=
  match elements item with
  | Some [key; value] => if hashable key then Some (key, value) else None
  | _ => None
  end.

(** The entries of a sequence up to its first element that stands for
    none. *)
Fixpoint leading_entries (items : list pyval) : list (pyval * pyval) :=
  match items with
  | [] => []
  | item :: rest =>
      match entry_of item with
      | Some kv => kv :: leading_entries rest
      | None => []
      end
  end.

(** [d[key] = value] for each entry in turn. *)
Definition assign (d : dict) (entries : list (pyval * pyval)) : dict :=
  fold_left (fun d kv => dict_set d (fst kv) (snd kv)) entries d.

End Settings.

Module ConfigSamples.
Import Config.

(** A home directory without configuration file.  No float is a key in
    these examples, so that how one is written does not matter. *)
Definition no_files : files :=
  {| default_config_file := py "/home/user/.epub2tts/config.json";
     mkdir_parent := fun _ => Ok tt;
     exists_file := fun _ => false;
     load_json := fun _ => Raise (ExternalError (py "No such file"));
     writable := fun _ => Ok tt;
     float_repr := fun _ => py "0.0" |}.

(** The files in which every path holds [content]. *)
Definition holding (content : pyval) : files :=
  {| default_config_file := py "/home/user/.epub2tts/config.json";
     mkdir_parent := fun _ => Ok tt;
     exists_file := fun _ => true;
     load_json := fun _ => Ok content;
     writable := fun _ => Ok tt;
     float_repr := fun _ => py "0.0" |}.

(** The default configuration with one setting changed. *)
Definition edited : t :=
  set {| config := defaults;
         config_file := py "/home/user/.epub2tts/config.json" |}
      (py "chunk_size") (VInt 500).

(** A configuration file with one known and one unknown key:
    [{"chunk_size": 500, "voice_sample": "me.wav"}]. *)
Definition saved_file : files :=
  holding (VDict [(py "chunk_size", VInt 500);
                  (py "voice_sample", VStr (py "me.wav"))]).

(** A configuration file that holds no object: [[["chunk_size", 5], 7]]. *)
Definition broken_file : files :=
  holding (VList [VList [VStr (py "chunk_size"); VInt 5]; VInt 7]).

End ConfigSamples.

(** ** Command lines *)

Module CliSamples.
Import BookConverter Cli.
#[local] Existing Instance ascii_only.

(** [convert book.pdf book.mp3] with the defaults of the parser. *)
Definition plain_args (input : pystr) : args :=
  {| input_file := input; output := py "book.mp3";
     engine_name := py "edge"; voice := None; language := py "en";
     voice_sample := None; chunk_size := 2000; processes := 4;
     text_only := false; keep_temp := false |}.

(** A system without configuration file, whose engines all work, that
    opens every path as the document [e]. *)
Definition system_with (e : Ebook.t) : system unit :=
  {| fs := ConfigSamples.no_files;
     open_ebook := fun _ =>
       Ok (open_as e {| Metadata.title := None; Metadata.author := None;
                        Metadata.language := None |});
     construct := fun _ _ => Ok tt;
     is_available := fun _ => Ok true;
     engine_save_to_file := fun _ _ _ => Ok tt;
     the_world := Demo.reversing_world;
     write_text := fun _ _ => Ok tt |}.

(** A PDF without pages, and an EPUB with an empty spine. *)
Definition empty_pdf : Ebook.t :=
  Ebook.init (Ebook.Pdf (PDFProcessor.init [] (Ok []))).

Definition empty_epub : EPUBProcessor.t :=
  EPUBProcessor.init {| EPUBProcessor.book_spine := [];
                        EPUBProcessor.get_item_with_id := fun _ => None |}.

End CliSamples.

(* ===================================================================== *)
(** * Properties of the rounding of floats *)
(* ===================================================================== *)

Module FloatFacts.
Import PyFloat.
Local Open Scope Q_scope.

Lemma pow2_pos (e : Z) : 0 < 2 ^ e.
Proof. apply Qpower_0_lt. reflexivity. Qed.

Lemma pow2_le (a b : Z) : (a <= b)%Z -> 2 ^ a <= 2 ^ b.
Proof. intros Hab. apply Qpower_le_compat_l; [exact Hab | discriminate]. Qed.

Lemma pow2_lt (a b : Z) : (a < b)%Z -> 2 ^ a < 2 ^ b.
Proof. intros Hab. apply Qpower_lt_compat_l; [exact Hab | reflexivity]. Qed.

Lemma pow2_plus (a b : Z) : 2 ^ (a + b) == 2 ^ a * 2 ^ b.
Proof. apply Qpower_plus. discriminate. Qed.

Lemma pow2_Z (a : Z) : (0 <= a)%Z -> inject_Z (2 ^ a) == 2 ^ a.
Proof. intros Ha. now rewrite Zpower_Qpower. Qed.

Lemma round_half_even_near (q : Q) :
  inject_Z (round_half_even q) - (1 # 2) <= q
  /\ q <= inject_Z (round_half_even q) + (1 # 2).
Proof.
  unfold round_half_even.
  pose proof (Qfloor_le q) as Hlo. pose proof (Qlt_floor q) as Hhi.
  rewrite inject_Z_plus in Hhi. change (inject_Z 1) with 1 in Hhi.
  destruct (q - inject_Z (Qfloor q) ?= 1 # 2) eqn:Hc.
  - apply Qeq_alt in Hc.
    destruct (Z.even (Qfloor q)); rewrite ?inject_Z_plus;
      change (inject_Z 1) with 1; split; lra.
  - apply Qlt_alt in Hc. split; lra.
  - apply Qgt_alt in Hc. rewrite inject_Z_plus.
    change (inject_Z 1) with 1. split; lra.
Qed.

Lemma round_half_even_le (x y : Q) :
  x <= y -> (round_half_even x <= round_half_even y)%Z.
Proof.
  intros Hxy. pose proof (Qfloor_resp_le _ _ Hxy) as Hf.
  unfold round_half_even.
  pose proof (Qfloor_le x) as Hxlo. pose proof (Qlt_floor x) as Hxhi.
  pose proof (Qfloor_le y) as Hylo. pose proof (Qlt_floor y) as Hyhi.
  rewrite inject_Z_plus in Hxhi, Hyhi.
  change (inject_Z 1) with 1 in Hxhi, Hyhi.
  assert (Hcases : (Qfloor x < Qfloor y)%Z \/ Qfloor x = Qfloor y) by lia.
  destruct Hcases as [Hlt | Heq].
  - destruct (x - inject_Z (Qfloor x) ?= 1 # 2);
      destruct (y - inject_Z (Qfloor y) ?= 1 # 2);
      repeat match goal with |- context [Z.even ?z] => destruct (Z.even z) end;
      lia.
  - rewrite <- Heq in *.
    destruct (x - inject_Z (Qfloor x) ?= 1 # 2) eqn:Hcx;
      destruct (y - inject_Z (Qfloor x) ?= 1 # 2) eqn:Hcy;
      repeat match goal with |- context [Z.even ?z] => destruct (Z.even z) end;
      try lia; exfalso;
      repeat match goal with
             | H : (_ ?= _) = Eq |- _ => apply Qeq_alt in H
             | H : (_ ?= _) = Lt |- _ => apply Qlt_alt in H
             | H : (_ ?= _) = Gt |- _ => apply Qgt_alt in H
             end; lra.
Qed.

Lemma round_half_even_Z (z : Z) : round_half_even (inject_Z z) = z.
Proof.
  unfold round_half_even. rewrite Qfloor_Z.
  replace (inject_Z z - inject_Z z ?= 1 # 2) with Lt; [reflexivity |].
  symmetry. rewrite <- Qlt_alt. lra.
Qed.

Lemma round_half_even_eq (x : Q) (z : Z) :
  x == inject_Z z -> round_half_even x = z.
Proof.
  intros Hx.
  pose proof (@round_half_even_le x (inject_Z z)) as H1.
  pose proof (@round_half_even_le (inject_Z z) x) as H2.
  rewrite round_half_even_Z in H1, H2.
  specialize (H1 ltac:(lra)). specialize (H2 ltac:(lra)). lia.
Qed.

Lemma round_half_even_upper (x : Q) (z : Z) :
  x <= inject_Z z -> (round_half_even x <= z)%Z.
Proof.
  intros Hx. rewrite <- (round_half_even_Z z). now apply round_half_even_le.
Qed.

Lemma round_half_even_lower (x : Q) (z : Z) :
  inject_Z z <= x -> (z <= round_half_even x)%Z.
Proof.
  intros Hx. rewrite <- (round_half_even_Z z). now apply round_half_even_le.
Qed.

(** [ilog2] is the base-2 logarithm rounded down. *)
Lemma ilog2_spec (q : Q) :
  0 < q -> 2 ^ ilog2 q <= q /\ q < 2 ^ (ilog2 q + 1).
Proof.
  intros Hq. destruct q as [n d]. unfold ilog2. cbn [Qnum Qden].
  assert (Hn : (0 < n)%Z).
  { unfold Qlt in Hq. cbn in Hq. lia. }
  set (a := Z.log2 n). set (b := Z.log2 (Zpos d)).
  destruct (Z.log2_spec n Hn) as [Ha1 Ha2]. fold a in Ha1, Ha2.
  destruct (Z.log2_spec (Zpos d) (Pos2Z.is_pos d)) as [Hb1 Hb2].
  fold b in Hb1, Hb2.
  assert (Ha0 : (0 <= a)%Z) by apply Z.log2_nonneg.
  assert (Hb0 : (0 <= b)%Z) by apply Z.log2_nonneg.
  assert (Hq' : n # d == inject_Z n / inject_Z (Zpos d)) by apply Qmake_Qdiv.
  assert (Hd : 0 < inject_Z (Zpos d)) by reflexivity.
  assert (Hqd : (n # d) * inject_Z (Zpos d) == inject_Z n).
  { rewrite Hq'. field. discriminate. }
  change (Z.succ a) with (a + 1)%Z in Ha2.
  change (Z.succ b) with (b + 1)%Z in Hb2.
  rewrite Zle_Qle in Ha1, Hb1. rewrite Zlt_Qlt in Ha2, Hb2.
  rewrite pow2_Z in Ha1, Ha2, Hb1, Hb2 by lia.
  pose proof (pow2_plus (a - b) b) as Hk. replace (a - b + b)%Z with a in Hk by lia.
  pose proof (pow2_plus (a - b + 1) b) as Hk1.
  replace (a - b + 1 + b)%Z with (a + 1)%Z in Hk1 by lia.
  pose proof (pow2_plus (a - b - 1) (b + 1)) as Hk2.
  replace (a - b - 1 + (b + 1))%Z with a in Hk2 by lia.
  pose proof (pow2_pos (a - b)) as Hp0.
  pose proof (pow2_pos (a - b + 1)) as Hp1.
  pose proof (pow2_pos (a - b - 1)) as Hp2.
  pose proof (pow2_pos b) as Hpb.
  destruct (Qle_bool (2 ^ (a - b)) (n # d)) eqn:Hle.
  - apply Qle_bool_iff in Hle. split; [exact Hle |].
    apply Qnot_le_lt. intro Habs.
    assert (2 ^ (a + 1) <= inject_Z n); [| lra].
    rewrite Hk1, <- Hqd.
    apply Qle_trans with ((n # d) * 2 ^ b).
    + apply Qmult_le_compat_r; [exact Habs | lra].
    + apply Qmult_le_l; [exact Hq | exact Hb1].
  - assert (Hlt : n # d < 2 ^ (a - b)).
    { apply Qnot_le_lt. intro Habs. apply Qle_bool_iff in Habs. congruence. }
    replace (a - b - 1 + 1)%Z with (a - b)%Z by lia.
    split; [| exact Hlt].
    apply Qnot_lt_le. intro Habs.
    assert (inject_Z n < 2 ^ a); [| lra].
    rewrite Hk2, <- Hqd.
    apply Qlt_le_trans with ((n # d) * 2 ^ (b + 1)).
    + apply Qmult_lt_l; [exact Hq | exact Hb2].
    + apply Qmult_le_compat_r; [lra | lra].
Qed.

Lemma ilog2_le (x y : Q) : 0 < x -> x <= y -> (ilog2 x <= ilog2 y)%Z.
Proof.
  intros Hx Hxy.
  destruct (ilog2_spec Hx) as [Hx1 _].
  destruct (@ilog2_spec y) as [_ Hy2]; [lra |].
  destruct (Z_le_gt_dec (ilog2 x) (ilog2 y)) as [Hle | Hgt]; [exact Hle |].
  exfalso. pose proof (@pow2_le (ilog2 y + 1) (ilog2 x)) as Hp.
  specialize (Hp ltac:(lia)). lra.
Qed.

Lemma ulp_exponent_le (x y : Q) :
  0 < x -> x <= y -> (ulp_exponent x <= ulp_exponent y)%Z.
Proof.
  intros Hx Hxy. unfold ulp_exponent.
  pose proof (ilog2_le Hx Hxy). lia.
Qed.

Lemma scaled_lt (x : Q) :
  0 < x -> x / 2 ^ ulp_exponent x < 2 ^ 53.
Proof.
  intros Hx. destruct (ilog2_spec Hx) as [_ Hhi].
  pose proof (pow2_pos (ulp_exponent x)) as Hp.
  apply Qlt_shift_div_r; [exact Hp |].
  rewrite <- pow2_plus.
  eapply Qlt_le_trans; [exact Hhi |]. apply pow2_le.
  unfold ulp_exponent. lia.
Qed.

Lemma scaled_ge (x : Q) :
  0 < x -> (-1074 < ilog2 x - 52)%Z -> 2 ^ 52 <= x / 2 ^ ulp_exponent x.
Proof.
  intros Hx He. destruct (ilog2_spec Hx) as [Hlo _].
  pose proof (pow2_pos (ulp_exponent x)) as Hp.
  apply Qle_shift_div_l; [exact Hp |].
  rewrite <- pow2_plus.
  eapply Qle_trans; [| exact Hlo]. apply pow2_le.
  unfold ulp_exponent. lia.
Qed.

Lemma round_positive_eq (x : Q) :
  round_positive x
  == inject_Z (round_half_even (x / 2 ^ ulp_exponent x)) * 2 ^ ulp_exponent x.
Proof. unfold round_positive. apply Qred_correct. Qed.

Lemma round_positive_upper (x : Q) :
  0 < x -> round_positive x <= 2 ^ (ulp_exponent x + 53).
Proof.
  intros Hx. rewrite round_positive_eq, pow2_plus.
  rewrite (Qmult_comm (2 ^ ulp_exponent x)).
  apply Qmult_le_compat_r; [| apply Qlt_le_weak, pow2_pos].
  apply Qle_trans with (inject_Z (2 ^ 53)); [| now rewrite pow2_Z].
  rewrite <- Zle_Qle. apply round_half_even_upper.
  rewrite pow2_Z by lia. apply Qlt_le_weak. now apply scaled_lt.
Qed.

Lemma round_positive_lower (x : Q) :
  0 < x -> (-1074 < ilog2 x - 52)%Z ->
  2 ^ (ulp_exponent x + 52) <= round_positive x.
Proof.
  intros Hx He. rewrite round_positive_eq, pow2_plus.
  rewrite (Qmult_comm (2 ^ ulp_exponent x)).
  apply Qmult_le_compat_r; [| apply Qlt_le_weak, pow2_pos].
  apply Qle_trans with (inject_Z (2 ^ 52)); [now rewrite pow2_Z |].
  rewrite <- Zle_Qle. apply round_half_even_lower.
  rewrite pow2_Z by lia. now apply scaled_ge.
Qed.

Lemma round_positive_nonneg (x : Q) : 0 < x -> 0 <= round_positive x.
Proof.
  intros Hx. rewrite round_positive_eq.
  apply Qmult_le_0_compat; [| apply Qlt_le_weak, pow2_pos].
  change 0 with (inject_Z 0). rewrite <- Zle_Qle.
  apply round_half_even_lower.
  apply Qlt_le_weak. apply Qlt_shift_div_l; [apply pow2_pos | ].
  change (inject_Z 0) with 0. lra.
Qed.

Lemma round_positive_le (x y : Q) :
  0 < x -> x <= y -> round_positive x <= round_positive y.
Proof.
  intros Hx Hxy. assert (Hy : 0 < y) by lra.
  pose proof (ulp_exponent_le Hx Hxy) as He.
  assert (Hc : (ulp_exponent x < ulp_exponent y)%Z
               \/ ulp_exponent x = ulp_exponent y) by lia.
  destruct Hc as [Hlt | Heq].
  - eapply Qle_trans; [now apply round_positive_upper |].
    eapply Qle_trans; [| apply round_positive_lower; [exact Hy |]].
    + apply pow2_le. lia.
    + unfold ulp_exponent in *. lia.
  - rewrite !round_positive_eq, Heq.
    apply Qmult_le_compat_r; [| apply Qlt_le_weak, pow2_pos].
    rewrite <- Zle_Qle. apply round_half_even_le.
    apply Qmult_le_compat_r; [exact Hxy |].
    apply Qlt_le_weak, Qinv_lt_0_compat, pow2_pos.
Qed.

Lemma round_0 (x : Q) : x == 0 -> round x = 0.
Proof. intros Hx. unfold round. apply Qeq_alt in Hx. now rewrite Hx. Qed.

Lemma round_pos (x : Q) : 0 < x -> round x = round_positive x.
Proof.
  intros Hx. unfold round.
  replace (x ?= 0) with Gt; [reflexivity |]. symmetry.
  now rewrite <- Qgt_alt.
Qed.

(** Rounding keeps the order of the numbers that are not negative. *)
Lemma round_le (x y : Q) : 0 <= x -> x <= y -> round x <= round y.
Proof.
  intros Hx Hxy.
  destruct (Qlt_le_dec 0 x) as [Hpos | Hzero].
  - rewrite !round_pos by lra. now apply round_positive_le.
  - rewrite (@round_0 x) by lra.
    destruct (Qlt_le_dec 0 y) as [Hy | Hy].
    + rewrite round_pos by exact Hy. now apply round_positive_nonneg.
    + rewrite (@round_0 y) by lra. apply Qle_refl.
Qed.

Lemma round_nonneg (x : Q) : 0 <= x -> 0 <= round x.
Proof.
  intros Hx. rewrite <- (@round_0 0) by reflexivity.
  apply round_le; [apply Qle_refl | exact Hx].
Qed.

(** An integer of at most 53 bits is a float. *)
Lemma round_Z (z : Z) : (0 <= z <= 2 ^ 53)%Z -> round (inject_Z z) == inject_Z z.
Proof.
  intros Hz. assert (Hc : z = 0%Z \/ (0 < z)%Z) by lia.
  destruct Hc as [-> | Hpos]; [reflexivity |].
  assert (Hq : 0 < inject_Z z).
  { change 0 with (inject_Z 0). now rewrite <- Zlt_Qlt. }
  rewrite round_pos by exact Hq. rewrite round_positive_eq.
  set (e := ulp_exponent (inject_Z z)).
  assert (He : (-1074 <= e <= 1)%Z).
  { subst e. unfold ulp_exponent. split; [lia |].
    destruct (ilog2_spec Hq) as [Hlo _].
    assert (Hl : (ilog2 (inject_Z z) <= 53)%Z).
    { destruct (Z_le_gt_dec (ilog2 (inject_Z z)) 53) as [Hle | Hgt];
        [exact Hle | exfalso].
      pose proof (@pow2_lt 53 (ilog2 (inject_Z z)) ltac:(lia)) as Hp.
      assert (inject_Z z <= 2 ^ 53); [| lra].
      rewrite <- pow2_Z by lia. rewrite <- Zle_Qle. lia. }
    lia. }
  assert (Hc : (e <= 0)%Z \/ e = 1%Z) by lia.
  destruct Hc as [Hneg | He1].
  - rewrite (@round_half_even_eq _ (z * 2 ^ (- e))).
    + rewrite inject_Z_mult, pow2_Z by lia.
      rewrite <- Qmult_assoc, <- pow2_plus.
      replace (- e + e)%Z with 0%Z by lia. apply Qmult_1_r.
    + rewrite inject_Z_mult, pow2_Z by lia.
      rewrite Qpower_opp. reflexivity.
  - (* the exponent 1 is reached by 2^53 only *)
    assert (Hz53 : z = (2 ^ 53)%Z).
    { unfold e, ulp_exponent in He1.
      assert (Hl : (53 <= ilog2 (inject_Z z))%Z) by lia.
      destruct (ilog2_spec Hq) as [Hlo _].
      pose proof (@pow2_le 53 (ilog2 (inject_Z z)) Hl) as Hp.
      assert (Hge : 2 ^ 53 <= inject_Z z) by lra.
      rewrite <- pow2_Z in Hge by lia. rewrite <- Zle_Qle in Hge. lia. }
    clearbody e. subst e z.
    rewrite (@round_half_even_eq _ (2 ^ 52)); reflexivity.
Qed.

End FloatFacts.

(* ===================================================================== *)
(** * Properties of the text segmenter *)
(* ===================================================================== *)

Import TextUtils.

Module TextUtilsFacts.
Import Spec.

Section Facts.
Context `{Unicode}.

Lemma truthy_false_nil {A} (l : list A) : truthy l = false -> l = [].
Proof. destruct l; [reflexivity | discriminate]. Qed.

Lemma truthy_true_cons {A} (l : list A) : l <> [] -> truthy l = true.
Proof. destruct l; [congruence | reflexivity]. Qed.

(** C2 (as amended).  A non-empty text whose cleaned form is no longer
    than [chunk_size] comes back as exactly one chunk, the cleaned
    text. *)
Theorem chunk_short_text (T : pystr) (chunk_size overlap : Z) :
  T <> [] ->
  len (clean_text T) <= chunk_size ->
  split_text_into_chunks T chunk_size overlap = [clean_text T].
Proof.
  intros HT Hlen. unfold split_text_into_chunks.
  rewrite (truthy_true_cons HT). cbn [negb].
  apply Z.leb_le in Hlen. rewrite Hlen. reflexivity.
Qed.

(** C3.  With [chunk_size = 20] the two sentences of
    ["aaaa bbbb cccc. dddd eeee ffff."] are 15 characters each, yet the
    second chunk is the whole text, 31 characters: the overlap words
    that seed a new chunk are not counted against [chunk_size]. *)
Theorem chunk_exceeds_chunk_size :
  let text := py "aaaa bbbb cccc. dddd eeee ffff." in
  split_into_sentences (clean_text text)
    = [py "aaaa bbbb cccc."; py "dddd eeee ffff."]
  /\ split_text_into_chunks text 20 default_overlap
    = [py "aaaa bbbb cccc."; py "aaaa bbbb cccc. dddd eeee ffff."]
  /\ len (py "aaaa bbbb cccc.") = 15
  /\ len (py "dddd eeee ffff.") = 15
  /\ len (py "aaaa bbbb cccc. dddd eeee ffff.") = 31.
Proof. repeat split; vm_compute; reflexivity. Qed.

(** The same bound is missed by one inside a chunk: the test
    [len(current_chunk) + len(sentence) > chunk_size] leaves out the
    joining space. *)
Example chunk_exceeds_by_separator :
  split_text_into_chunks (py "aaaa. bbbb. cccc.") 10 default_overlap
    = [py "aaaa. bbbb."; py "aaaa. bbbb. cccc."]
  /\ len (py "aaaa. bbbb.") = 11.
Proof. split; vm_compute; reflexivity. Qed.

(** C4.  With [overlap = 0] the slice [words[-0:]] is the whole list:
    the chunk that follows ["aa bb."] is seeded with both its words, not
    with its last zero words. *)
Theorem chunk_overlap_zero_takes_all_words :
  chunk_step 8 0 ([], py "aa bb.") (py "cc dd.")
    = ([py "aa bb."], py "aa bb. cc dd.")
  /\ split_text_into_chunks (py "aa bb. cc dd.") 8 0
    = [py "aa bb."; py "aa bb. cc dd."]
  /\ slice_from (- Z.min (len (split (py "aa bb."))) 0) (split (py "aa bb."))
    = [py "aa"; py "bb."]
  /\ last_tokens 0 (split (py "aa bb.")) = [].
Proof. repeat split; vm_compute; reflexivity. Qed.

(** C10.  When the first sentence alone exceeds [chunk_size] the empty
    buffer is closed as a chunk: the first chunk returned is the empty
    string. *)
Theorem chunk_emits_empty_chunk :
  split_into_sentences (clean_text (py "abcdefgh. xy."))
    = [py "abcdefgh."; py "xy."]
  /\ chunk_step 5 default_overlap ([], []) (py "abcdefgh.")
    = ([ [] ], py " abcdefgh.")
  /\ split_text_into_chunks (py "abcdefgh. xy.") 5 default_overlap
    = [ []; py "abcdefgh."; py "abcdefgh. xy." ].
Proof. repeat split; vm_compute; reflexivity. Qed.

Lemma slice_from_last {A} (k : Z) (l : list A) :
  1 <= k ->
  slice_from (- Z.min (len l) k) l = skipn (length l - Z.to_nat k) l.
Proof.
  intros Hk. unfold slice_from, slice_bound, len.
  destruct l as [| a l]; [now rewrite !skipn_nil |].
  f_equal. cbn [length].
  destruct (Z.ltb_spec (- Z.min (Z.of_nat (S (length l))) k) 0); lia.
Qed.

(** For a positive [overlap] the overflow branch does what C4 says: the
    buffer is closed as a chunk, trimmed, and the next buffer is the last
    [overlap] tokens of the closed one, joined by single spaces, then a
    space and the sentence that did not fit. *)
Lemma chunk_step_overflow (chunk_size overlap : Z) (chunks : list pystr)
    (current_chunk sentence : pystr) :
  len current_chunk + len sentence > chunk_size ->
  1 <= overlap ->
  chunk_step chunk_size overlap (chunks, current_chunk) sentence
  = (chunks ++ [strip current_chunk],
     join (py " ") (last_tokens (Z.to_nat overlap) (split current_chunk))
     ++ py " " ++ sentence).
Proof.
  intros Hover Hk. unfold chunk_step, last_tokens.
  replace (len current_chunk + len sentence >? chunk_size) with true
    by (symmetry; apply Z.gtb_lt; lia).
  now rewrite slice_from_last.
Qed.

(** While the sentence fits, it is appended to the buffer after a space
    (or starts the buffer), and no chunk is closed. *)
Lemma chunk_step_fits (chunk_size overlap : Z) (chunks : list pystr)
    (current_chunk sentence : pystr) :
  len current_chunk + len sentence <= chunk_size ->
  chunk_step chunk_size overlap (chunks, current_chunk) sentence
  = (chunks,
     if truthy current_chunk then current_chunk ++ py " " ++ sentence
     else sentence).
Proof.
  intros Hfit. unfold chunk_step.
  replace (len current_chunk + len sentence >? chunk_size) with false
    by (symmetry; rewrite Z.gtb_ltb; apply Z.ltb_ge; lia).
  destruct (truthy current_chunk); reflexivity.
Qed.

Lemma lstrip_head (s : pystr) :
  lstrip s = [] \/ exists c t, lstrip s = c :: t /\ isspace c = false.
Proof.
  induction s as [| c s IH]; [now left |].
  cbn [lstrip]. destruct (isspace c) eqn:Hc; [exact IH |].
  right. now exists c, s.
Qed.

Lemma lstrip_idem (s : pystr) : lstrip (lstrip s) = lstrip s.
Proof.
  destruct (lstrip_head s) as [-> | (c & t & -> & Hc)]; [reflexivity |].
  cbn [lstrip]. now rewrite Hc.
Qed.

Lemma lstrip_app_nonspace (l : pystr) (c : char) :
  isspace c = false -> exists x, lstrip (l ++ [c]) = x ++ [c].
Proof.
  intros Hc. induction l as [| a l IH].
  - exists []. cbn. now rewrite Hc.
  - cbn [app lstrip]. destruct (isspace a); [exact IH |].
    now exists (a :: l).
Qed.

Lemma rstrip_idem (s : pystr) : rstrip (rstrip s) = rstrip s.
Proof. unfold rstrip. now rewrite rev_involutive, lstrip_idem. Qed.

Lemma lstrip_rstrip_lstrip (s : pystr) :
  lstrip (rstrip (lstrip s)) = rstrip (lstrip s).
Proof.
  destruct (lstrip_head s) as [-> | (c & t & -> & Hc)]; [reflexivity |].
  unfold rstrip. cbn [rev].
  destruct (@lstrip_app_nonspace (rev t) c Hc) as [x ->].
  rewrite rev_app_distr. cbn [rev app lstrip]. now rewrite Hc.
Qed.

(** Trimming a trimmed text changes nothing. *)
Lemma strip_idem (s : pystr) : strip (strip s) = strip s.
Proof. unfold strip. now rewrite lstrip_rstrip_lstrip, rstrip_idem. Qed.

Lemma chunk_step_stripped (chunk_size overlap : Z)
    (sentences : list pystr) (st : list pystr * pystr) :
  Forall (fun c => strip c = c) (fst st) ->
  Forall (fun c => strip c = c)
    (fst (fold_left (chunk_step chunk_size overlap) sentences st)).
Proof.
  revert st. induction sentences as [| s sentences IH]; intros [chunks cur] Hst;
    [exact Hst |].
  cbn [fold_left]. apply IH. unfold chunk_step.
  destruct (len cur + len s >? chunk_size).
  - cbn [fst] in *. apply Forall_app. split; [exact Hst |].
    constructor; [apply strip_idem | constructor].
  - destruct (truthy cur); exact Hst.
Qed.

(** Every chunk returned has neither leading nor trailing whitespace: it
    is its own trimmed form. *)
Lemma chunks_are_stripped (T : pystr) (chunk_size overlap : Z) :
  Forall (fun c => strip c = c) (split_text_into_chunks T chunk_size overlap).
Proof.
  unfold split_text_into_chunks.
  destruct (truthy T) eqn:HT; cbn [negb]; [| constructor].
  destruct (len (clean_text T) <=? chunk_size).
  - constructor; [| constructor]. unfold clean_text. rewrite HT. cbn [negb].
    apply strip_idem.
  - pose proof (@chunk_step_stripped chunk_size overlap
                  (split_into_sentences (clean_text T)) ([], []))
      as Hfold.
    destruct (fold_left _ _ _) as [chunks cur]. cbn [fst] in Hfold.
    specialize (Hfold (Forall_nil _)).
    destruct (truthy (strip cur)); [| exact Hfold].
    apply Forall_app. split; [exact Hfold |].
    constructor; [apply strip_idem | constructor].
Qed.

(** A text of whitespace alone is cleaned to the empty string, which is
    returned as the single chunk. *)
Example chunk_of_blank_text :
  split_text_into_chunks (py "  ") 5 default_overlap = [ [] ].
Proof. vm_compute; reflexivity. Qed.

End Facts.

(** [chunk_step_overflow] at the default overlap of 50 words. *)
Lemma chunk_step_overflow_witness :
  @chunk_step 8 50 ([], py "aa bb.") (py "cc dd.")
  = ([py "aa bb."], py "aa bb. cc dd.").
Proof.
  apply (@chunk_step_overflow 8 50 [] (py "aa bb.") (py "cc dd."));
    vm_compute; [reflexivity | discriminate].
Defined.

(** C2, witness of the amended statement. *)
Lemma chunk_short_text_witness :
  @split_text_into_chunks ascii_only (py "Hello world.") 2000 50
  = [clean_text (py "Hello world.")].
Proof.
  apply (@chunk_short_text ascii_only (py "Hello world.") 2000 50).
  - discriminate.
  - vm_compute. discriminate.
Defined.

(** C2, as stated, fails twice.  The empty text gives no chunk at all; and
    the one-character text "…" (U+2026) is cleaned to the three characters
    "...", longer than [chunk_size = 1], and comes back as two chunks, the
    first of them empty. *)
Lemma chunk_short_text_counterexample :
  ~ (forall (U : Unicode) (T : pystr) (chunk_size overlap : Z),
        len T <= chunk_size ->
        split_text_into_chunks T chunk_size overlap = [clean_text T])
  /\ @split_text_into_chunks ascii_only [] 5 50 = []
  /\ @split_text_into_chunks ascii_only [8230%N] 1 50 = [ []; py "..." ].
Proof.
  split; [| split; vm_compute; reflexivity].
  intro Hc.
  assert (Hle : len [8230%N] <= 1) by (vm_compute; discriminate).
  specialize (Hc ascii_only [8230%N] 1 50 Hle).
  vm_compute in Hc. discriminate.
Qed.

End TextUtilsFacts.

(* ===================================================================== *)
(** * Properties of the document extractors *)
(* ===================================================================== *)

Module ExtractorFacts.
Import Ebook Spec Demo.

Section Facts.
Context `{Unicode}.

Lemma out_of_range_test (i : Z) {A} (l : list A) :
  i < 0 \/ len l <= i -> (i <? 0) || (i >=? len l) = true.
Proof.
  intros [Hi | Hi]; apply orb_true_iff; [left | right].
  - now apply Z.ltb_lt.
  - apply Z.geb_le. lia.
Qed.

Lemma len_map {A B} (f : A -> B) (l : list A) : len (map f l) = len l.
Proof. unfold len. now rewrite length_map. Qed.

(** What each processor answers to an index outside its chapter list. *)
Lemma processor_text_out_of_range (p : processor) (i : Z)
    (chs : list chapter_obj) :
  processor_get_chapters p = Ok chs ->
  i < 0 \/ len chs <= i ->
  processor_get_chapter_text p i
  = Raise (ProcessingError (py "Error getting chapter text: "
                            ++ TextProcessor.out_of_range_msg i)).
Proof.
  intros Hchs Hi. destruct p as [p | p | p]; cbn in *.
  - unfold EPUBProcessor.get_chapter_text.
    destruct (EPUBProcessor.get_chapters p) as [cs | e]; cbn in *;
      [| discriminate].
    injection Hchs as <-. rewrite len_map in Hi.
    now rewrite out_of_range_test by exact Hi.
  - injection Hchs as <-. rewrite len_map in Hi.
    unfold PDFProcessor.get_chapter_text, PDFProcessor.get_chapters in *.
    now rewrite out_of_range_test by exact Hi.
  - injection Hchs as <-. rewrite len_map in Hi.
    unfold TextProcessor.get_chapter_text, TextProcessor.get_chapters in *.
    now rewrite out_of_range_test by exact Hi.
Qed.

(** Where the chapter list can be read (always for PDF and plain text,
    for EPUB only when no entry of the spine resolves to an item), every
    index outside [0, len(chapters)) is answered as the specification
    says: [Ebook.get_chapter_text] raises [IndexError] "Chapter index out
    of range", whether or not the chapter list is cached yet, and the
    processor's own [get_chapter_text] raises a [ProcessingError] that
    carries the same message; neither returns a text. *)
Lemma get_chapter_text_out_of_range (p : processor) (i : Z)
    (chs : list chapter_obj) :
  processor_get_chapters p = Ok chs ->
  i < 0 \/ len chs <= i ->
  (forall e : Ebook.t,
      the_processor e = p ->
      chapters e = [] \/ chapters e = chs ->
      fst (get_chapter_text e i)
      = Raise (IndexError (TextProcessor.out_of_range_msg i)))
  /\ processor_get_chapter_text p i
     = Raise (ProcessingError (py "Error getting chapter text: "
                               ++ TextProcessor.out_of_range_msg i)).
Proof.
  intros Hchs Hi. split; [| now apply processor_text_out_of_range with chs].
  intros e Hp Hcache. unfold get_chapter_text, get_chapters.
  destruct Hcache as [Hc | Hc]; rewrite Hc.
  - cbn [truthy negb]. rewrite Hp, Hchs.
    now rewrite out_of_range_test by exact Hi.
  - destruct chs as [| c chs'].
    + cbn [truthy negb]. rewrite Hp, Hchs.
      now rewrite out_of_range_test by exact Hi.
    + cbn [truthy negb]. now rewrite out_of_range_test by exact Hi.
Qed.

(** C6.  A PDF whose outline holds an entry with an empty title: the
    entry becomes chapter 0, its stored title is returned as it is, and
    [get_chapter_title], also that of the [Ebook], returns the empty
    string for the valid index 0. *)
Theorem pdf_chapter_title_can_be_empty :
  let p := PDFProcessor.init [Ok (py "Some text.")]
             (Ok [PDFProcessor.ODict (Some 0) (Some [])]) in
  len (PDFProcessor.chapters p) = 1
  /\ PDFProcessor.get_chapter_title p 0 = []
  /\ fst (get_chapter_title (Ebook.init (Pdf p)) 0) = Ok [].
Proof. repeat split; vm_compute; reflexivity. Qed.

Lemma in_range_test (i : Z) {A} (l : list A) :
  0 <= i < len l -> (i <? 0) || (i >=? len l) = false.
Proof.
  intros Hi. apply orb_false_iff. split.
  - apply Z.ltb_ge. lia.
  - rewrite Z.geb_leb. apply Z.leb_gt. lia.
Qed.

(** For a valid index [Ebook.get_chapter_title] returns a title and does
    not raise: the title the processor gives, which itself is the
    synthesized "Chapter N" whenever its own extraction raises. *)
Lemma get_chapter_title_never_raises (e e' : Ebook.t) (i : Z)
    (chs : list chapter_obj) :
  get_chapters e = (Ok chs, e') ->
  0 <= i < len chs ->
  fst (get_chapter_title e i)
  = Ok (processor_get_chapter_title (the_processor e) i).
Proof.
  intros Hg Hi. unfold get_chapter_title. rewrite Hg.
  rewrite in_range_test by exact Hi. cbn [fst try_except].
  unfold get_chapters in Hg.
  destruct (negb (truthy (chapters e)));
    [destruct (processor_get_chapters (the_processor e)) |];
    inversion Hg; reflexivity.
Qed.

Lemma fallback_title_not_empty (i : Z) : TextProcessor.fallback_title i <> [].
Proof. discriminate. Qed.

Lemma first_heading_not_empty (hs : list pystr) (h : pystr) :
  EPUBProcessor.first_heading hs = Some h -> h <> [].
Proof.
  induction hs as [| a hs IH]; [discriminate |].
  cbn [EPUBProcessor.first_heading].
  destruct (truthy (strip a)) eqn:Ha; [| exact IH].
  intros [= <-]. destruct (strip a); [discriminate | discriminate].
Qed.

(** The EPUB processor never gives an empty title: a heading is used only
    when its trimmed text is not empty, the item's id only when it is not
    empty, and everything else is "Chapter N". *)
Lemma epub_chapter_title_not_empty (p : EPUBProcessor.t) (i : Z) :
  EPUBProcessor.get_chapter_title p i <> [].
Proof.
  unfold EPUBProcessor.get_chapter_title.
  destruct (EPUBProcessor.get_chapters p) as [cs | e]; cbn [bind];
    [| apply fallback_title_not_empty].
  destruct ((i <? 0) || (i >=? len cs)); [apply fallback_title_not_empty |].
  destruct (getitem cs i) as [c | e]; cbn [bind];
    [| apply fallback_title_not_empty].
  destruct (EPUBProcessor.headings c) as [hs | e]; cbn [bind];
    [| apply fallback_title_not_empty].
  destruct (EPUBProcessor.first_heading hs) as [h |] eqn:Hh.
  - eapply first_heading_not_empty; eassumption.
  - destruct (truthy (EPUBProcessor.id c)) eqn:Hid;
      [| apply fallback_title_not_empty].
    destruct (EPUBProcessor.id c); [discriminate | discriminate].
Qed.

Lemma epub_collect_chapters (b : EPUBProcessor.book)
    (spine : list (pystr * pystr)) (acc cs : list EPUBProcessor.item) :
  EPUBProcessor.collect_chapters b spine acc = Ok cs -> cs = acc.
Proof.
  induction spine as [| it spine IH]; cbn; [now intros [= <-] |].
  destruct (EPUBProcessor.get_item_with_id b (fst it)); [discriminate | exact IH].
Qed.

(** [EPUBProcessor.get_chapters] never returns a chapter: the list is
    empty when no spine entry resolves to an item, and as soon as one does
    the read of the unbound name [ebooklib] raises. *)
Lemma epub_get_chapters_empty_or_raises (p : EPUBProcessor.t) :
  EPUBProcessor.get_chapters p = Ok []
  \/ EPUBProcessor.get_chapters p
     = Raise (ProcessingError
                (py "Error getting chapters: name 'ebooklib' is not defined")).
Proof.
  unfold EPUBProcessor.get_chapters.
  destruct (EPUBProcessor.collect_chapters _ _ _) as [cs | e] eqn:Hc; cbn.
  - left. f_equal. eapply epub_collect_chapters; eassumption.
  - right. revert Hc. generalize (@nil EPUBProcessor.item).
    induction (EPUBProcessor.spine p) as [| it spine IH]; intros acc;
      cbn; [discriminate |].
    destruct (EPUBProcessor.get_item_with_id _ _); [| apply IH].
    now intros [= <-].
Qed.

Lemma epub_collect_chapters_raises (b : EPUBProcessor.book)
    (spine : list (pystr * pystr)) (acc : list EPUBProcessor.item) :
  (exists entry, In entry spine
                 /\ EPUBProcessor.get_item_with_id b (fst entry) <> None) ->
  EPUBProcessor.collect_chapters b spine acc
  = Raise (NameError (py "name 'ebooklib' is not defined")).
Proof.
  intros (entry & Hin & Hitem).
  induction spine as [| it spine IH]; [destruct Hin |].
  cbn [EPUBProcessor.collect_chapters].
  destruct (EPUBProcessor.get_item_with_id b (fst it)) as [found |] eqn:Hit;
    [reflexivity |].
  destruct Hin as [-> | Hin]; [congruence | now apply IH].
Qed.

(** C5.  An EPUB whose spine names an item of the book, any document
    among them, has chapters by design; but the chapter list is read
    before the index is looked at, and reading it raises (the name
    [ebooklib] is not bound in [get_chapters]).  So for every index,
    those outside the range included, [EPUBProcessor.get_chapter_text]
    and [Ebook.get_chapter_text] fail with the error of the chapter
    list, which says nothing of the index, and never with the
    out-of-range condition. *)
Theorem epub_get_chapter_text_fails_on_chapter_list (p : EPUBProcessor.t)
    (i : Z) :
  (exists entry,
      In entry (EPUBProcessor.spine p)
      /\ EPUBProcessor.get_item_with_id (EPUBProcessor.the_book p)
           (fst entry) <> None) ->
  EPUBProcessor.get_chapter_text p i
  = Raise (ProcessingError (py
      "Error getting chapter text: Error getting chapters: name 'ebooklib' is not defined"))
  /\ (forall e : Ebook.t,
        the_processor e = Epub p -> chapters e = [] ->
        fst (get_chapter_text e i)
        = Raise (FileError (py
            "Error loading chapters: Error getting chapters: name 'ebooklib' is not defined")))
  /\ EPUBProcessor.get_chapter_text p i
     <> Raise (ProcessingError (py "Error getting chapter text: "
                                ++ TextProcessor.out_of_range_msg i)).
Proof.
  intros Hspine.
  assert (Hch : EPUBProcessor.get_chapters p
                = Raise (ProcessingError (py
                    "Error getting chapters: name 'ebooklib' is not defined"))).
  { unfold EPUBProcessor.get_chapters.
    now rewrite (@epub_collect_chapters_raises _ _ [] Hspine). }
  assert (Htext : EPUBProcessor.get_chapter_text p i
                  = Raise (ProcessingError (py
                      "Error getting chapter text: Error getting chapters: name 'ebooklib' is not defined"))).
  { unfold EPUBProcessor.get_chapter_text. now rewrite Hch. }
  split; [exact Htext |]. split.
  - intros e Hp Hcache. unfold get_chapter_text, get_chapters.
    rewrite Hcache. cbn [truthy negb]. rewrite Hp.
    cbn [processor_get_chapters]. now rewrite Hch.
  - rewrite Htext. intros [= Habs].
Qed.





End Facts.

Section Concrete.
#[local] Existing Instance ascii_only.

Example one_chapter_txt_chapters :
  TextProcessor.chapters one_chapter_txt
  = [ {| TextProcessor.title := py "Chapter 1";
         TextProcessor.start_idx := 0; TextProcessor.end_idx := 1;
         TextProcessor.is_sentence_index := false;
         TextProcessor.is_full_text := false |} ].
Proof. vm_compute; reflexivity. Qed.

(** A plain-text document with the marker lines "Chapter 1", "Chapter 2",
    "Chapter 3" has exactly three chapters, in that order, titled by the
    marker lines, each with a text that is not empty. *)
Example three_marked_chapters :
  map TextProcessor.title (TextProcessor.chapters three_chapter_txt)
  = [py "Chapter 1"; py "Chapter 2"; py "Chapter 3"]
  /\ map (TextProcessor.get_chapter_text three_chapter_txt) [0; 1; 2]
     = [Ok (py "Chapter 1 One fish."); Ok (py "Chapter 2 Two fish.");
        Ok (py "Chapter 3 Red fish.")].
Proof. split; vm_compute; reflexivity. Qed.

(** A plain-text document without markers and with 60 sentences has two
    chapters: sentences 0 to 49 and 50 to 59. *)
Example sixty_sentences_two_chapters :
  length (split_into_sentences sixty_sentences) = 60%nat
  /\ map (fun c => (TextProcessor.title c, TextProcessor.start_idx c,
                    TextProcessor.end_idx c,
                    TextProcessor.is_sentence_index c))
         (TextProcessor.chapters (TextProcessor.init sixty_sentences))
     = [(py "Section 1", 0, 49, true); (py "Section 2", 50, 59, true)].
Proof. split; vm_compute; reflexivity. Qed.

Example two_page_pdf_chapters :
  map PDFProcessor.title (PDFProcessor.chapters two_page_pdf)
  = [py "Pages 1-1"; py "Pages 2-2"].
Proof. vm_compute; reflexivity. Qed.

(** [get_chapter_title_never_raises] on the text file with one chapter. *)
Lemma get_chapter_title_never_raises_witness :
  fst (get_chapter_title (Ebook.init (Txt one_chapter_txt)) 0)
  = Ok (py "Chapter 1").
Proof.
  apply (@get_chapter_title_never_raises
           (Ebook.init (Txt one_chapter_txt))
           (snd (get_chapters (Ebook.init (Txt one_chapter_txt)))) 0
           (map TxtChapter (TextProcessor.chapters one_chapter_txt))).
  - reflexivity.
  - vm_compute. split; [discriminate | reflexivity].
Defined.

(** A book whose spine names one document: [get_chapters] raises. *)
Example epub_get_chapters_raises :
  let doc := {| EPUBProcessor.id := py "ch1";
                EPUBProcessor.is_document := true;
                EPUBProcessor.rendered_text := Ok (py "Hello.");
                EPUBProcessor.headings := Ok [py "One"] |} in
  let p := EPUBProcessor.init
             {| EPUBProcessor.book_spine := [(py "ch1", py "yes")];
                EPUBProcessor.get_item_with_id := fun _ => Some doc |} in
  EPUBProcessor.get_chapters p
  = Raise (ProcessingError
             (py "Error getting chapters: name 'ebooklib' is not defined"))
  /\ EPUBProcessor.get_chapter_title p 0 = py "Chapter 1"
  /\ fst (get_chapter_title (Ebook.init (Epub p)) 0)
     = Raise (FileError (py
         "Error loading chapters: Error getting chapters: name 'ebooklib' is not defined")).
Proof. repeat split; vm_compute; reflexivity. Qed.

(** C5, witness: the book whose spine names one document, asked for
    index 5. *)
Lemma epub_get_chapter_text_fails_on_chapter_list_witness :
  let doc := {| EPUBProcessor.id := py "ch1";
                EPUBProcessor.is_document := true;
                EPUBProcessor.rendered_text := Ok (py "Hello.");
                EPUBProcessor.headings := Ok [py "One"] |} in
  let p := EPUBProcessor.init
             {| EPUBProcessor.book_spine := [(py "ch1", py "yes")];
                EPUBProcessor.get_item_with_id := fun _ => Some doc |} in
  EPUBProcessor.get_chapter_text p 5
  = Raise (ProcessingError (py
      "Error getting chapter text: Error getting chapters: name 'ebooklib' is not defined"))
  /\ (forall e : Ebook.t,
        the_processor e = Epub p -> chapters e = [] ->
        fst (get_chapter_text e 5)
        = Raise (FileError (py
            "Error loading chapters: Error getting chapters: name 'ebooklib' is not defined")))
  /\ EPUBProcessor.get_chapter_text p 5
     <> Raise (ProcessingError (py "Error getting chapter text: "
                                ++ TextProcessor.out_of_range_msg 5)).
Proof.
  apply (@epub_get_chapter_text_fails_on_chapter_list ascii_only
           (EPUBProcessor.init
              {| EPUBProcessor.book_spine := [(py "ch1", py "yes")];
                 EPUBProcessor.get_item_with_id := fun _ =>
                   Some {| EPUBProcessor.id := py "ch1";
                           EPUBProcessor.is_document := true;
                           EPUBProcessor.rendered_text := Ok (py "Hello.");
                           EPUBProcessor.headings := Ok [py "One"] |} |})
           5).
  exists (py "ch1", py "yes"). split; [now left | discriminate].
Defined.

(** [get_chapter_text_out_of_range] on the text file with one chapter,
    asked for index 5. *)
Lemma get_chapter_text_out_of_range_witness :
(forall e : Ebook.t,
    the_processor e = Txt one_chapter_txt ->
    chapters e = []
    \/ chapters e = map TxtChapter (TextProcessor.chapters one_chapter_txt) ->
    fst (get_chapter_text e 5)
    = Raise (IndexError (py "Chapter index out of range: 5")))
/\ processor_get_chapter_text (Txt one_chapter_txt) 5
   = Raise (ProcessingError
              (py "Error getting chapter text: Chapter index out of range: 5")).
Proof.
apply (@get_chapter_text_out_of_range ascii_only (Txt one_chapter_txt) 5).
- reflexivity.
- right. vm_compute. discriminate.
Defined.



End Concrete.

End ExtractorFacts.

(* ===================================================================== *)
(** * Properties of the conversion orchestrator *)
(* ===================================================================== *)

Module ConverterFacts.
Import BookConverter Spec Demo.
Local Open Scope conv_scope.

Section Facts.
Context `{Unicode}.
Variable ebook : ebook_api.
Variable w : world.
Variable cfg : config.

Local Abbreviation chapter_output := (Spec.chapter_output cfg).
Local Abbreviation fragment_path := (Spec.fragment_path cfg).
Local Abbreviation synthesized := (Spec.synthesized w cfg).
Local Abbreviation submitted := (Spec.submitted w cfg).

Lemma fst_bindM {A B} (m : M A) (k : A -> M B) :
  fst (bindM m k)
  = match fst m with Ok a => fst (k a) | Raise e => Raise e end.
Proof. destruct m as [[a | e] t]; cbn; [destruct (k a) |]; reflexivity. Qed.

Lemma snd_bindM {A B} (m : M A) (k : A -> M B) :
  snd (bindM m k)
  = snd m ++ match fst m with Ok a => snd (k a) | Raise _ => [] end.
Proof.
  destruct m as [[a | e] t]; cbn; [destruct (k a); reflexivity |].
  now rewrite app_nil_r.
Qed.

Lemma snd_try_raise {A} (m : M A) (f : exn -> exn) :
  snd (try_exceptM m (fun e => raise (f e))) = snd m.
Proof. destruct m as [[a | e] t]; cbn; [| rewrite app_nil_r]; reflexivity. Qed.

Lemma fst_try_raise {A} (m : M A) (f : exn -> exn) :
  fst (try_exceptM m (fun e => raise (f e)))
  = match fst m with Ok a => Ok a | Raise e => Raise (f e) end.
Proof. destruct m as [[a | e] t]; reflexivity. Qed.

(** A task submitted to the pool never raises: [_process_chunk] catches
    what the engine raises and returns [None]. *)
Lemma process_chunk_outcome (chunk : pystr) (chunk_index : Z) (tmp : pystr) :
  let chunk_file := path_join tmp (chunk_file_name cfg chunk_index) in
  process_chunk w cfg chunk chunk_index tmp
  = (Ok (match save_to_file w chunk chunk_file with
         | Ok _ => Some chunk_file
         | Raise _ => None
         end),
     [Synthesize chunk chunk_file]).
Proof.
  cbn. unfold process_chunk. cbn.
  destruct (save_to_file w chunk _); reflexivity.
Qed.

Lemma process_results_outcome (futures : list (M (option pystr)))
    (total : Z) (cb : callback) (completed : list (Z * nat)) :
  Forall never_raises futures ->
  forall chunk_files,
    process_results futures total cb completed chunk_files
    = (Ok (chunk_files ++ flat_map (fragment_of futures) completed),
       flat_map (events_of futures total cb) completed).
Proof.
  intros Hnr. induction completed as [| [k j] rest IH]; intros files.
  - cbn. now rewrite app_nil_r.
  - cbn [process_results flat_map]. unfold fragment_of at 1, events_of at 1.
    cbn [fst snd].
    destruct (nth_error futures j) as [fut |] eqn:Hj.
    + assert (Hf : never_raises fut).
      { rewrite Forall_forall in Hnr. apply Hnr.
        eapply nth_error_In; eassumption. }
      destruct fut as [[r | e] ev]; [| destruct Hf].
      unfold call, cb_events.
      destruct cb as [f |]; cbn; rewrite IH; cbn;
        destruct r; cbn; rewrite <- ?app_assoc, ?app_nil_r; reflexivity.
    + rewrite IH. reflexivity.
Qed.

Lemma bindM_lift_ok {A B} (a : A) (k : A -> M B) :
  bindM (lift (Ok a)) k = k a.
Proof. unfold bindM, lift. destruct (k a); reflexivity. Qed.

Lemma bindM_lift_raise {A B} (e : exn) (k : A -> M B) :
  bindM (lift (Raise e)) k = (Raise e, []).
Proof. reflexivity. Qed.

Lemma nth_error_combine_seq {A} (l : list A) (start j : nat) :
  nth_error (combine (map Z.of_nat (seq start (length l))) l) j
  = option_map (fun a => (Z.of_nat (start + j), a)) (nth_error l j).
Proof.
  revert start j. induction l as [| a l IH]; intros start j.
  - destruct j; reflexivity.
  - destruct j; cbn.
    + now rewrite Nat.add_0_r.
    + rewrite IH. now rewrite Nat.add_succ_r.
Qed.

Lemma nth_error_enumerate {A} (l : list A) (j : nat) :
  nth_error (enumerate l) j
  = option_map (fun a => (Z.of_nat j, a)) (nth_error l j).
Proof. unfold enumerate. now rewrite nth_error_combine_seq. Qed.

Lemma nth_error_submitted (tmp : pystr) (chunks : list pystr) (j : nat) :
  nth_error (submitted tmp chunks) j
  = option_map
      (fun chunk =>
         (Ok (if synthesized tmp chunks j then Some (fragment_path tmp j)
              else None),
          [Synthesize chunk (fragment_path tmp j)]))
      (nth_error chunks j).
Proof.
  unfold submitted. rewrite nth_error_map, nth_error_enumerate.
  unfold synthesized.
  destruct (nth_error chunks j) as [chunk |]; cbn [option_map]; [| reflexivity].
  cbn [fst snd]. rewrite process_chunk_outcome. unfold fragment_path.
  destruct (save_to_file w chunk _); reflexivity.
Qed.

Lemma submitted_never_raise (tmp : pystr) (chunks : list pystr) :
  Forall never_raises (submitted tmp chunks).
Proof.
  apply Forall_forall. intros fut Hin.
  apply In_nth_error in Hin. destruct Hin as [j Hj].
  rewrite nth_error_submitted in Hj.
  destruct (nth_error chunks j); cbn in Hj; [| discriminate].
  injection Hj as <-. exact I.
Qed.

Lemma fragment_of_submitted (tmp : pystr) (chunks : list pystr) (kj : Z * nat) :
  fragment_of (submitted tmp chunks) kj
  = if synthesized tmp chunks (snd kj) then [fragment_path tmp (snd kj)] else [].
Proof.
  unfold fragment_of. rewrite nth_error_submitted. unfold synthesized.
  destruct (nth_error chunks (snd kj)) as [chunk |]; cbn [option_map];
    [| reflexivity].
  destruct (save_to_file w chunk _); reflexivity.
Qed.

Lemma flat_map_combine_snd {A B C} (g : B -> list C) (ks : list A)
    (l : list B) :
  length ks = length l ->
  flat_map (fun kj => g (snd kj)) (combine ks l) = flat_map g l.
Proof.
  revert ks. induction l as [| b l IH]; intros [| k ks] Hlen;
    try discriminate; cbn; [reflexivity |].
  rewrite IH; [reflexivity | now injection Hlen].
Qed.

Lemma flat_map_if_filter {A B} (p : A -> bool) (f : A -> B) (l : list A) :
  flat_map (fun a => if p a then [f a] else []) l = map f (filter p l).
Proof.
  induction l as [| a l IH]; [reflexivity |].
  cbn [flat_map filter]. rewrite IH. destruct (p a); reflexivity.
Qed.

(** The fragments collected by the loop: those of the synthesized chunks,
    in completion order. *)
Lemma collected_fragments (tmp : pystr) (chunks : list pystr) (order : list nat) :
  flat_map (fragment_of (submitted tmp chunks)) (enumerate order)
  = map (fragment_path tmp) (filter (synthesized tmp chunks) order).
Proof.
  rewrite (flat_map_ext _ _ (fragment_of_submitted tmp chunks)).
  unfold enumerate.
  rewrite (flat_map_combine_snd
             (fun j => if synthesized tmp chunks j then [fragment_path tmp j]
                       else []))
    by now rewrite length_map, length_seq.
  apply flat_map_if_filter.
Qed.

(** [convert_chapter] on a chapter that splits into at least two chunks:
    what is left once the loop over the completed tasks has run. *)
Lemma thread_pool_executor_ok (max_workers : Z) :
  0 < max_workers -> thread_pool_executor max_workers = Ok tt.
Proof.
  intros Hw. unfold thread_pool_executor.
  now replace (max_workers <=? 0) with false by (symmetry; apply Z.leb_gt; lia).
Qed.

Lemma thread_pool_executor_refuses (max_workers : Z) :
  max_workers <= 0 ->
  thread_pool_executor max_workers
  = Raise (ValueError (py "max_workers must be greater than 0")).
Proof.
  intros Hw. unfold thread_pool_executor.
  now replace (max_workers <=? 0) with true by (symmetry; apply Z.leb_le; lia).
Qed.

(** [convert_chapter] up to the point where the chunks are there. *)
Lemma convert_chapter_chunks (i : Z) (out : option pystr) (cb : callback)
    (text title tmp : pystr) :
  get_chapter_text ebook i = Ok text ->
  get_chapter_title ebook i = Ok title ->
  truthy text = true ->
  working_dir w cfg (Some i) = Ok tmp ->
  make_output_dir w (chapter_output tmp i title out) = Ok tt ->
  let output_file := chapter_output tmp i title out in
  let chunks :=
    split_text_into_chunks text (chunk_size cfg) default_overlap in
  convert_chapter ebook w cfg i out cb
  = try_exceptM
      (match chunks with
       | [] => ret None
       | [chunk] =>
           emit (Synthesize chunk output_file) ;;;
           lift (save_to_file w chunk output_file) ;;;
           call cb 1 1 ;;;
           ret (Some output_file)
       | _ =>
           lift (thread_pool_executor (max_workers cfg)) ;;;
           chunk_files <~
             process_results (submitted tmp chunks) (len chunks) cb
               (enumerate (as_completed w i (length chunks))) [] ;;
           if truthy chunk_files then
             combine_audio_files w chunk_files output_file
               (output_format cfg) (bitrate cfg) ;;;
             (if negb (keep_temp_files cfg) then unlink_all w chunk_files
              else ret tt) ;;;
             ret (Some output_file)
           else ret None
       end)
      (fun e => raise (ConversionError
                         (py "Error converting chapter " ++ str_of_Z i
                          ++ py ": " ++ str_of_exn e))).
Proof.
  intros Htext Htitle Htruthy Hdir Hmk output_file chunks.
  unfold convert_chapter.
  rewrite Htext, bindM_lift_ok, Htitle, bindM_lift_ok, Htruthy.
  cbn [negb]. rewrite Hdir, bindM_lift_ok.
  fold (chapter_output tmp i title out). now rewrite Hmk, bindM_lift_ok.
Qed.

(** A pool without workers: a chapter of several chunks is not converted,
    and the engine is not called. *)
Lemma convert_chapter_without_workers (i : Z) (out : option pystr)
    (cb : callback) (text title tmp : pystr) :
  get_chapter_text ebook i = Ok text ->
  get_chapter_title ebook i = Ok title ->
  text <> [] ->
  working_dir w cfg (Some i) = Ok tmp ->
  make_output_dir w (chapter_output tmp i title out) = Ok tt ->
  (2 <= length (split_text_into_chunks text (chunk_size cfg)
                  default_overlap))%nat ->
  max_workers cfg <= 0 ->
  convert_chapter ebook w cfg i out cb
  = (Raise (ConversionError
              (py "Error converting chapter " ++ str_of_Z i
               ++ py ": max_workers must be greater than 0")), []).
Proof.
  intros Htext Htitle Hne Hdir Hmk Hlen Hw.
  rewrite (convert_chapter_chunks i out cb Htext Htitle
             (TextUtilsFacts.truthy_true_cons Hne) Hdir Hmk).
  cbv zeta.
  destruct (split_text_into_chunks text (chunk_size cfg) default_overlap)
    as [| c1 [| c2 rest]]; cbn [length] in Hlen; try lia.
  now rewrite thread_pool_executor_refuses by exact Hw.
Qed.

Lemma convert_chapter_multi (i : Z) (out : option pystr) (cb : callback)
    (text title tmp c1 c2 : pystr) (rest : list pystr) :
  get_chapter_text ebook i = Ok text ->
  get_chapter_title ebook i = Ok title ->
  truthy text = true ->
  working_dir w cfg (Some i) = Ok tmp ->
  make_output_dir w (chapter_output tmp i title out) = Ok tt ->
  split_text_into_chunks text (chunk_size cfg) default_overlap
  = c1 :: c2 :: rest ->
  0 < max_workers cfg ->
  let chunks := c1 :: c2 :: rest in
  let order := as_completed w i (length chunks) in
  let output := chapter_output tmp i title out in
  convert_chapter ebook w cfg i out cb
  = try_exceptM
      (bindM
         (Ok (map (fragment_path tmp) (filter (synthesized tmp chunks) order)),
          flat_map (events_of (submitted tmp chunks) (len chunks) cb)
                   (enumerate order))
         (fun chunk_files =>
            if truthy chunk_files then
              combine_audio_files w chunk_files output
                (output_format cfg) (bitrate cfg) ;;;
              (if negb (keep_temp_files cfg) then unlink_all w chunk_files
               else ret tt) ;;;
              ret (Some output)
            else ret None))
      (fun e => raise (ConversionError
                         (py "Error converting chapter " ++ str_of_Z i
                          ++ py ": " ++ str_of_exn e))).
Proof.
  intros Htext Htitle Htruthy Hdir Hmk Hsplit Hw chunks order output.
  rewrite (convert_chapter_chunks i out cb Htext Htitle Htruthy Hdir Hmk).
  cbv zeta. rewrite Hsplit. fold chunks.
  rewrite thread_pool_executor_ok, bindM_lift_ok by exact Hw.
  rewrite (process_results_outcome _ _ _ (submitted_never_raise tmp chunks)).
  rewrite collected_fragments. reflexivity.
Qed.

Lemma combined_lists_app (t1 t2 : list event) :
  combined_lists (t1 ++ t2) = combined_lists t1 ++ combined_lists t2.
Proof. apply flat_map_app. Qed.

Lemma progress_values_app (t1 t2 : list event) :
  progress_values (t1 ++ t2) = progress_values t1 ++ progress_values t2.
Proof. apply flat_map_app. Qed.

(** A removal raises nothing, whatever becomes of it. *)
Lemma remove_outcome (ev : event) (outcome : result unit) :
  remove ev outcome = (Ok tt, [ev]).
Proof. destruct outcome as [[] | e]; reflexivity. Qed.

Lemma unlink_all_outcome (files : list pystr) :
  unlink_all w files = (Ok tt, map Unlink files).
Proof.
  induction files as [| f files IH]; [reflexivity |].
  cbn [unlink_all map]. now rewrite remove_outcome, IH.
Qed.

Lemma combined_lists_unlink_all (files : list pystr) :
  fst (unlink_all w files) = Ok tt
  /\ combined_lists (snd (unlink_all w files)) = []
  /\ progress_values (snd (unlink_all w files)) = [].
Proof.
  rewrite unlink_all_outcome. cbn [fst snd].
  repeat split; induction files as [| f files IH]; cbn; auto.
Qed.

(** The events of the [try] block of [combine_audio_files]: the removal
    of the list file it wrote, once FFmpeg has run, or none. *)
Lemma ffmpeg_concat_events (files : list pystr)
    (output format rate : pystr) :
  snd (ffmpeg_concat w files output format rate) = []
  \/ exists lines file_list,
       named_temporary_file w lines = Ok file_list
       /\ snd (ffmpeg_concat w files output format rate) = [Unlink file_list].
Proof.
  unfold ffmpeg_concat.
  destruct (named_temporary_file w _) as [file_list | e] eqn:Hfile;
    [| now left].
  rewrite bindM_lift_ok.
  destruct (make_output_dir w output) as [[] | e]; [| now left].
  rewrite bindM_lift_ok.
  destruct (subprocess_run w _) as [[] | e]; [| now left].
  rewrite bindM_lift_ok. right. eexists. exists file_list.
  split; [exact Hfile |].
  destruct (unlink w file_list) as [[] | e]; reflexivity.
Qed.

Lemma ffmpeg_concat_returns (files : list pystr)
    (output format rate : pystr) (b : bool) :
  fst (ffmpeg_concat w files output format rate) = Ok b -> b = true.
Proof.
  unfold ffmpeg_concat.
  destruct (named_temporary_file w _) as [file_list | e];
    [| discriminate].
  rewrite bindM_lift_ok.
  destruct (make_output_dir w output) as [[] | e]; [| discriminate].
  rewrite bindM_lift_ok.
  destruct (subprocess_run w _) as [[] | e]; [| discriminate].
  rewrite bindM_lift_ok.
  destruct (unlink w file_list) as [[] | e]; cbn; congruence.
Qed.

Lemma ffmpeg_concat_quiet (files : list pystr)
    (output format rate : pystr) :
  combined_lists (snd (ffmpeg_concat w files output format rate)) = []
  /\ progress_values (snd (ffmpeg_concat w files output format rate)) = [].
Proof.
  destruct (ffmpeg_concat_events files output format rate)
    as [-> | (lines & file_list & _ & ->)]; now split.
Qed.

(** The events of the loop over the completed tasks hold no call of
    [combine_audio_files], unless the callback makes one. *)
Lemma combined_lists_loop (tmp : pystr) (chunks : list pystr) (cb : callback)
    (total : Z) (completed : list (Z * nat)) :
  (forall c t, combined_lists (cb_events cb c t) = []) ->
  combined_lists
    (flat_map (events_of (submitted tmp chunks) total cb) completed) = [].
Proof.
  intros Hcb. induction completed as [| [k j] rest IH]; [reflexivity |].
  cbn [flat_map]. rewrite combined_lists_app, IH, app_nil_r.
  unfold events_of. cbn [fst snd]. rewrite nth_error_submitted.
  destruct (nth_error chunks j); cbn [option_map]; [| reflexivity].
  rewrite combined_lists_app, Hcb. reflexivity.
Qed.

(** What [combine_audio_files] does with a list that is not empty. *)
Lemma combine_audio_files_outcome (files : list pystr)
    (output format rate : pystr) :
  files <> [] ->
  combine_audio_files w files output format rate
  = (if ffmpeg_installed w then
       match fst (ffmpeg_concat w files output format rate) with
       | Ok _ => Ok true
       | Raise e =>
           Raise (ProcessingError (py "Failed to combine audio files: "
                                   ++ str_of_exn e))
       end
     else
       Raise (ProcessingError (py
         "FFmpeg is not installed. Please install FFmpeg to combine audio files.")),
     CombineAudioFiles files output format rate
     :: (if ffmpeg_installed w
         then snd (ffmpeg_concat w files output format rate) else [])).
Proof.
  intros Hne. unfold combine_audio_files.
  rewrite (TextUtilsFacts.truthy_true_cons Hne). cbn [negb].
  destruct (ffmpeg_installed w); cbn [negb]; [| reflexivity].
  pose proof (@ffmpeg_concat_returns files output format rate) as Hret.
  destruct (ffmpeg_concat w files output format rate) as [[b | e] t].
  - cbn [fst] in Hret. rewrite (Hret b eq_refl). reflexivity.
  - cbn. now rewrite app_nil_r.
Qed.

Lemma combined_lists_combine_audio_files (files : list pystr)
    (output format rate : pystr) :
  files <> [] ->
  combined_lists (snd (combine_audio_files w files output format rate))
  = [files].
Proof.
  intros Hne. rewrite combine_audio_files_outcome by exact Hne.
  cbn [snd]. change (CombineAudioFiles files output format rate :: ?t)
    with ([CombineAudioFiles files output format rate] ++ t).
  rewrite combined_lists_app.
  destruct (ffmpeg_installed w); [| reflexivity].
  destruct (ffmpeg_concat_quiet files output format rate) as [-> _].
  reflexivity.
Qed.

(** C7 (as amended).  For a chapter whose text and title are retrieved,
    whose directories can be created and whose text splits into at least
    two chunks, with a pool of at least one worker, whatever the order in
    which the tasks complete: the fragments handed to
    [combine_audio_files] are exactly those of the chunks whose synthesis
    succeeded, a failed chunk losing its own fragment only;
    [convert_chapter] returns [None] exactly when no chunk was
    synthesized; with a fragment and a working FFmpeg it returns the
    chapter's output file; and it raises only when the combination itself
    fails, never because a synthesis did. *)
Theorem convert_chapter_drops_failed_chunks (i : Z) (out : option pystr)
    (cb : callback) (text title tmp : pystr) (chunks : list pystr) :
  get_chapter_text ebook i = Ok text ->
  get_chapter_title ebook i = Ok title ->
  text <> [] ->
  working_dir w cfg (Some i) = Ok tmp ->
  make_output_dir w (chapter_output tmp i title out) = Ok tt ->
  split_text_into_chunks text (chunk_size cfg) default_overlap = chunks ->
  (2 <= length chunks)%nat ->
  0 < max_workers cfg ->
  Permutation (as_completed w i (length chunks)) (seq 0 (length chunks)) ->
  (forall c t, combined_lists (cb_events cb c t) = []) ->
  let done :=
    filter (synthesized tmp chunks) (as_completed w i (length chunks)) in
  let fragments := map (fragment_path tmp) done in
  let output := chapter_output tmp i title out in
  let concat :=
    ffmpeg_concat w fragments output (output_format cfg) (bitrate cfg) in
  let r := convert_chapter ebook w cfg i out cb in
  (forall j, In j done
             <-> (j < length chunks)%nat /\ synthesized tmp chunks j = true)
  /\ combined_lists (snd r) = (if truthy done then [fragments] else [])
  /\ (fst r = Ok None <-> done = [])
  /\ (done <> [] -> ffmpeg_installed w = true ->
      fst concat = Ok true ->
      fst r = Ok (Some output))
  /\ (forall e, fst r = Raise e ->
      done <> []
      /\ (ffmpeg_installed w = false
          \/ exists e', fst concat = Raise e')).
Proof.
  intros Htext Htitle Hne Hdir Hmk Hsplit Hlen Hw Hperm Hcb done fragments
    output concat r.
  split.
  { intro j. unfold done. rewrite filter_In. split.
    - intros [Hj Hs]. split; [| exact Hs].
      apply (Permutation_in _ Hperm) in Hj. apply in_seq in Hj. lia.
    - intros [Hj Hs]. split; [| exact Hs].
      apply (Permutation_in _ (Permutation_sym Hperm)). apply in_seq. lia. }
  destruct chunks as [| c1 [| c2 rest]]; cbn [length] in Hlen; try lia.
  pose proof (convert_chapter_multi i out cb Htext Htitle
                (TextUtilsFacts.truthy_true_cons Hne) Hdir Hmk Hsplit Hw)
    as Hshape.
  cbv zeta in Hshape. fold done in Hshape. fold fragments in Hshape.
  fold output in Hshape. subst r. rewrite Hshape. clear Hshape.
  rewrite fst_try_raise, snd_try_raise, fst_bindM, snd_bindM.
  cbn [fst snd]. rewrite combined_lists_app, combined_lists_loop by exact Hcb.
  cbn [app].
  assert (Htr : truthy fragments = truthy done).
  { unfold fragments. destruct done; reflexivity. }
  rewrite Htr.
  destruct done as [| d ds] eqn:Hd.
  - cbn. repeat split; try congruence; try discriminate.
  - cbn [truthy].
    assert (Hfne : fragments <> []) by (unfold fragments; discriminate).
    rewrite fst_bindM, snd_bindM, combined_lists_app,
      combined_lists_combine_audio_files by exact Hfne.
    rewrite combine_audio_files_outcome by exact Hfne.
    cbn [fst snd]. fold concat.
    destruct (ffmpeg_installed w) eqn:Hinst.
    + destruct (fst concat) as [b | e'] eqn:Hcat.
      * rewrite fst_bindM, snd_bindM.
        destruct (combined_lists_unlink_all fragments) as (Hun1 & Hun2 & _).
        destruct (keep_temp_files cfg); cbn [negb].
        -- cbn. repeat split; try congruence; try discriminate.
        -- rewrite Hun1, combined_lists_app, Hun2.
           cbn. repeat split; try congruence; try discriminate.
      * cbn. repeat split; try congruence; try discriminate.
        right. now exists e'.
    + cbn. repeat split; try congruence; try discriminate.
      now left.
Qed.

(** A document without chapters: once the directories are there,
    [convert_book] returns [None], tells the status callback once, and
    raises nothing. *)
Lemma convert_book_no_chapters (output_file tmp : pystr) (pc : bool) :
  working_dir w cfg None = Ok tmp ->
  make_output_dir w output_file = Ok tt ->
  get_chapters ebook = Ok [] ->
  convert_book ebook w cfg output_file pc true
  = (Ok None, [Status (py "No chapters found in book")]).
Proof.
  intros Hdir Hmk Hch. unfold convert_book.
  now rewrite Hdir, bindM_lift_ok, Hmk, bindM_lift_ok, Hch, bindM_lift_ok.
Qed.

(** ** Progress *)

Lemma of_int_nonneg (z : Z) : 0 <= z -> (0 <= PyFloat.of_int z)%Q.
Proof.
  intros Hz. apply FloatFacts.round_nonneg.
  change 0%Q with (inject_Z 0). now rewrite <- Zle_Qle.
Qed.

Lemma of_int_ge_1 (z : Z) : 1 <= z -> (1 <= PyFloat.of_int z)%Q.
Proof.
  intros Hz. unfold PyFloat.of_int.
  apply Qle_trans with (PyFloat.round (inject_Z 1)).
  - now rewrite FloatFacts.round_Z.
  - apply FloatFacts.round_le; [discriminate |]. now rewrite <- Zle_Qle.
Qed.

Lemma of_int_small (z : Z) :
  0 <= z <= 2 ^ 53 -> (PyFloat.of_int z == inject_Z z)%Q.
Proof. apply FloatFacts.round_Z. Qed.

Lemma frac_le_1 (c t : Z) :
  1 <= c <= t -> (inject_Z c / inject_Z t <= 1)%Q.
Proof.
  intros Hc. apply Qle_shift_div_r.
  - change 0%Q with (inject_Z 0). rewrite <- Zlt_Qlt. lia.
  - rewrite Qmult_1_l. rewrite <- Zle_Qle. lia.
Qed.

Lemma frac_nonneg (c t : Z) :
  0 <= c -> 0 < t -> (0 <= inject_Z c / inject_Z t)%Q.
Proof.
  intros Hc Ht. apply Qle_shift_div_l.
  - change 0%Q with (inject_Z 0). rewrite <- Zlt_Qlt. lia.
  - rewrite Qmult_0_l. change 0%Q with (inject_Z 0).
    rewrite <- Zle_Qle. lia.
Qed.

Lemma frac_le (c c' t : Z) :
  0 < t -> c <= c' -> (inject_Z c / inject_Z t <= inject_Z c' / inject_Z t)%Q.
Proof.
  intros Ht Hc. unfold Qdiv. apply Qmult_le_compat_r.
  - rewrite <- Zle_Qle. exact Hc.
  - apply Qinv_le_0_compat. change 0%Q with (inject_Z 0).
    rewrite <- Zle_Qle. lia.
Qed.

Lemma truediv_range (c t : Z) :
  1 <= c <= t ->
  (0 <= PyFloat.truediv c t)%Q /\ (PyFloat.truediv c t <= 1)%Q.
Proof.
  intros Hc. unfold PyFloat.truediv. split.
  - apply FloatFacts.round_nonneg, frac_nonneg; lia.
  - apply Qle_trans with (PyFloat.round (inject_Z 1)).
    + apply FloatFacts.round_le; [apply frac_nonneg; lia |].
      now apply frac_le_1.
    + now rewrite FloatFacts.round_Z.
Qed.

Lemma truediv_le (c c' t : Z) :
  0 < t -> 0 <= c <= c' ->
  (PyFloat.truediv c t <= PyFloat.truediv c' t)%Q.
Proof.
  intros Ht Hc. apply FloatFacts.round_le.
  - apply frac_nonneg; lia.
  - apply frac_le; lia.
Qed.

(** The operations that follow the sum keep the order. *)
Lemma scale_le (x y : Q) (n : Z) :
  1 <= n -> (0 <= x)%Q -> (x <= y)%Q ->
  (PyFloat.mul (PyFloat.div (PyFloat.round x) (PyFloat.of_int n))
     (PyFloat.of_int 100)
   <= PyFloat.mul (PyFloat.div (PyFloat.round y) (PyFloat.of_int n))
        (PyFloat.of_int 100))%Q.
Proof.
  intros Hn Hx Hxy.
  pose proof (of_int_ge_1 Hn) as HN.
  pose proof (@of_int_nonneg 100 ltac:(lia)) as H100.
  pose proof (FloatFacts.round_nonneg Hx) as Hrx.
  pose proof (FloatFacts.round_le Hx Hxy) as Hrxy.
  assert (Hinv : (0 <= / PyFloat.of_int n)%Q).
  { apply Qinv_le_0_compat. apply Qle_trans with 1%Q; [discriminate | exact HN]. }
  assert (Hdx : (0 <= PyFloat.round x / PyFloat.of_int n)%Q).
  { unfold Qdiv. now apply Qmult_le_0_compat. }
  assert (Hd : (PyFloat.round x / PyFloat.of_int n
                <= PyFloat.round y / PyFloat.of_int n)%Q).
  { unfold Qdiv. now apply Qmult_le_compat_r. }
  unfold PyFloat.mul, PyFloat.div.
  apply FloatFacts.round_le.
  - apply Qmult_le_0_compat; [now apply FloatFacts.round_nonneg | exact H100].
  - apply Qmult_le_compat_r; [| exact H100].
    now apply FloatFacts.round_le.
Qed.

(** Within a chapter the value grows with the count. *)
Lemma overall_progress_same (n i c c' t : Z) :
  1 <= n -> 0 <= i -> 1 <= c <= c' -> c' <= t ->
  (overall_progress i c t n <= overall_progress i c' t n)%Q.
Proof.
  intros Hn Hi Hc Hc'. unfold overall_progress, PyFloat.add.
  destruct (@truediv_range c t) as [Hf0 _]; [lia |].
  pose proof (of_int_nonneg Hi) as Hi0.
  apply scale_le; [exact Hn | |].
  - apply Qle_trans with (PyFloat.of_int i + 0)%Q;
      [now rewrite Qplus_0_r | now apply Qplus_le_r].
  - apply Qplus_le_r. apply truediv_le; lia.
Qed.

(** From one chapter to a later one the value does not fall. *)
Lemma overall_progress_later (n i c t i' c' t' : Z) :
  1 <= n -> 0 <= i < i' -> i' <= 2 ^ 53 ->
  1 <= c <= t -> 1 <= c' <= t' ->
  (overall_progress i c t n <= overall_progress i' c' t' n)%Q.
Proof.
  intros Hn Hi Hi' Hc Hc'. unfold overall_progress, PyFloat.add.
  destruct (truediv_range Hc) as [Hf0 Hf1].
  destruct (truediv_range Hc') as [Hf0' Hf1'].
  pose proof (@of_int_nonneg i ltac:(lia)) as Hi0.
  apply scale_le; [exact Hn | |].
  - apply Qle_trans with (PyFloat.of_int i + 0)%Q;
      [now rewrite Qplus_0_r | now apply Qplus_le_r].
  - rewrite (@of_int_small i), (@of_int_small i') by lia.
    apply Qle_trans with (inject_Z i + 1)%Q; [now apply Qplus_le_r |].
    apply Qle_trans with (inject_Z i' + 0)%Q; [| now apply Qplus_le_r].
    rewrite Qplus_0_r. change 1%Q with (inject_Z 1).
    rewrite <- inject_Z_plus, <- Zle_Qle. lia.
Qed.

Lemma StronglySorted_app {A} (R : A -> A -> Prop) (l1 l2 : list A) :
  StronglySorted R l1 -> StronglySorted R l2 ->
  (forall x y, In x l1 -> In y l2 -> R x y) ->
  StronglySorted R (l1 ++ l2).
Proof.
  intros H1 H2 H12. induction H1 as [| a l1 Hs IH Ha]; [exact H2 |].
  cbn. constructor.
  - apply IH. intros x y Hx Hy. apply H12; [now right | exact Hy].
  - apply Forall_app. split; [exact Ha |].
    apply Forall_forall. intros y Hy. apply H12; [now left | exact Hy].
Qed.

Lemma In_counts (total c : Z) : In c (counts total) -> 1 <= c <= total.
Proof.
  unfold counts. rewrite in_map_iff. intros (k & <- & Hk).
  apply in_seq in Hk. lia.
Qed.

Lemma In_chapter_reports (n : Z) (it : Z * Z) (v : Q) :
  In v (chapter_reports n it) ->
  exists c, 1 <= c <= snd it /\ v = overall_progress (fst it) c (snd it) n.
Proof.
  unfold chapter_reports. rewrite in_map_iff. intros (c & <- & Hc).
  exists c. split; [now apply In_counts | reflexivity].
Qed.

Lemma chapter_reports_sorted (n : Z) (it : Z * Z) :
  1 <= n -> 0 <= fst it -> StronglySorted Qle (chapter_reports n it).
Proof.
  intros Hn Hi. destruct it as [i total]. cbn [fst] in Hi.
  unfold chapter_reports, counts. cbn [fst snd]. rewrite map_map.
  assert (Hgen : forall m start,
             (start + m <= Z.to_nat total)%nat ->
             StronglySorted Qle
               (map (fun k => progress_metric i (Z.of_nat k + 1) total n)
                    (seq start m))).
  { induction m as [| m IH]; intros start Hle; [constructor |].
    cbn [seq map]. constructor; [apply IH; lia |].
    apply Forall_forall. intros v Hv. apply in_map_iff in Hv.
    destruct Hv as (k & <- & Hk). apply in_seq in Hk.
    apply overall_progress_same; lia. }
  apply Hgen. lia.
Qed.

(** The values reported by chapters in ascending order never fall. *)
Lemma reports_sorted (n : Z) (reporting : list (Z * Z)) :
  1 <= n ->
  StronglySorted Z.lt (map fst reporting) ->
  Forall (fun it => 0 <= fst it <= 2 ^ 53) reporting ->
  StronglySorted Qle (flat_map (chapter_reports n) reporting).
Proof.
  intros Hn Hs Hb. induction reporting as [| it rest IH]; [constructor |].
  cbn [map] in Hs. inversion Hs as [| ? ? Hs' Hlt]; subst.
  inversion Hb as [| ? ? Hit Hb']; subst.
  cbn [flat_map]. apply StronglySorted_app.
  - apply chapter_reports_sorted; lia.
  - now apply IH.
  - intros x y Hx Hy. apply In_chapter_reports in Hx.
    destruct Hx as (c & Hc & ->).
    apply in_flat_map in Hy. destruct Hy as (it' & Hit' & Hy).
    apply In_chapter_reports in Hy. destruct Hy as (c' & Hc' & ->).
    rewrite Forall_forall in Hlt, Hb'.
    specialize (Hlt (fst it') (in_map fst _ _ Hit')).
    specialize (Hb' it' Hit'). cbv beta in Hb'.
    apply overall_progress_later; lia.
Qed.

Lemma pv_bindM_nil {A B} (m : M A) (k : A -> M B) :
  progress_values (snd m) = [] ->
  (forall a, progress_values (snd (k a)) = []) ->
  progress_values (snd (bindM m k)) = [].
Proof.
  intros Hm Hk. rewrite snd_bindM, progress_values_app, Hm.
  destruct (fst m); [apply Hk | reflexivity].
Qed.

Lemma pv_bindM_tail {A B} (m : M A) (k : A -> M B) :
  (forall a, progress_values (snd (k a)) = []) ->
  progress_values (snd (bindM m k)) = progress_values (snd m).
Proof.
  intros Hk. rewrite snd_bindM, progress_values_app.
  destruct (fst m); [rewrite Hk |]; apply app_nil_r.
Qed.

Lemma pv_status (sc : bool) (msg : pystr) :
  progress_values (snd (status sc msg)) = [].
Proof. destruct sc; reflexivity. Qed.

Lemma pv_combine_audio_files (files : list pystr) (output format rate : pystr) :
  progress_values (snd (combine_audio_files w files output format rate)) = [].
Proof.
  destruct files as [| f files]; [reflexivity |].
  rewrite combine_audio_files_outcome by discriminate. cbn [snd].
  destruct (ffmpeg_installed w); [| reflexivity].
  destruct (ffmpeg_concat_quiet (f :: files) output format rate) as [_ Hq].
  cbn [progress_values flat_map app]. exact Hq.
Qed.

Lemma pv_unlink_all (files : list pystr) :
  progress_values (snd (unlink_all w files)) = [].
Proof. apply combined_lists_unlink_all. Qed.

Lemma pv_remove (ev : event) (outcome : result unit) :
  (forall q, ev <> Progress q) ->
  progress_values (snd (remove ev outcome)) = [].
Proof.
  intros Hev. rewrite remove_outcome. cbn.
  destruct ev; try reflexivity. now destruct (Hev overall_progress0).
Qed.

Lemma progress_values_loop (tmp : pystr) (chunks : list pystr) (cb : callback)
    (total : Z) (order : list nat) :
  (forall j, In j order -> (j < length chunks)%nat) ->
  forall ks : list Z,
    length ks = length order ->
    progress_values
      (flat_map (events_of (submitted tmp chunks) total cb) (combine ks order))
    = flat_map (fun k => progress_values (cb_events cb (k + 1) total)) ks.
Proof.
  induction order as [| j order IH]; intros Hin [| k ks] Hlen;
    try discriminate; [reflexivity |].
  cbn [combine flat_map]. rewrite progress_values_app.
  rewrite IH; [| intros j' Hj'; apply Hin; now right | now injection Hlen].
  f_equal. unfold events_of. cbn [fst snd]. rewrite nth_error_submitted.
  destruct (nth_error chunks j) as [chunk |] eqn:Hj; [reflexivity |].
  apply nth_error_None in Hj. specialize (Hin j (or_introl eq_refl)). lia.
Qed.

Lemma no_progress_after_loop (chunk_files : list pystr) (output : pystr) :
  progress_values
    (snd (if truthy chunk_files then
            combine_audio_files w chunk_files output
              (output_format cfg) (bitrate cfg) ;;;
            (if negb (keep_temp_files cfg) then unlink_all w chunk_files
             else ret tt) ;;;
            ret (Some output)
          else ret None)) = [].
Proof.
  destruct (truthy chunk_files); [| reflexivity].
  apply pv_bindM_nil; [apply pv_combine_audio_files | intros _].
  apply pv_bindM_nil; [| reflexivity].
  destruct (keep_temp_files cfg); [reflexivity | apply pv_unlink_all].
Qed.

(** The progress calls of one chapter: none, or those for the counts
    [1, ..., total] of its [total] chunks, whatever the order in which the
    tasks complete; a chapter that gives a file has made them. *)
Lemma chapter_progress (pc : bool) (i n : Z) :
  (forall m, Permutation (as_completed w i m) (seq 0 m)) ->
  let r := convert_chapter ebook w cfg i None (book_callback pc i n) in
  exists total : Z,
    progress_values (snd r) = chapter_reports n (i, total)
    /\ (total = 0 \/ (1 <= total /\ chunk_count ebook cfg i total))
    /\ (pc = true -> forall f, fst r = Ok (Some f) -> 1 <= total).
Proof.
  intros Hperm. cbv zeta.
  destruct (get_chapter_text ebook i) as [text | e] eqn:Htext.
  2: { exists 0. unfold convert_chapter.
       rewrite Htext, bindM_lift_raise.
       repeat split; [now left | intros _ f Hf; discriminate]. }
  destruct (get_chapter_title ebook i) as [title | e] eqn:Htitle.
  2: { exists 0. unfold convert_chapter.
       rewrite Htext, bindM_lift_ok, Htitle, bindM_lift_raise.
       repeat split; [now left | intros _ f Hf; discriminate]. }
  destruct (truthy text) eqn:Htr.
  2: { exists 0. unfold convert_chapter.
       rewrite Htext, bindM_lift_ok, Htitle, bindM_lift_ok, Htr.
       repeat split; [now left | intros _ f Hf; discriminate]. }
  destruct (working_dir w cfg (Some i)) as [tmp | e] eqn:Hdir.
  2: { exists 0. unfold convert_chapter.
       rewrite Htext, bindM_lift_ok, Htitle, bindM_lift_ok, Htr.
       cbn [negb]. rewrite Hdir, bindM_lift_raise.
       repeat split; [now left | intros _ f Hf; discriminate]. }
  destruct (make_output_dir w (chapter_output tmp i title None))
    as [[] | e] eqn:Hmk.
  2: { exists 0. unfold convert_chapter.
       rewrite Htext, bindM_lift_ok, Htitle, bindM_lift_ok, Htr.
       cbn [negb]. rewrite Hdir, bindM_lift_ok.
       fold (chapter_output tmp i title None).
       rewrite Hmk, bindM_lift_raise.
       repeat split; [now left | intros _ f Hf; discriminate]. }
  assert (Hcount : forall total,
             total = len (split_text_into_chunks text (chunk_size cfg)
                            default_overlap) ->
             chunk_count ebook cfg i total).
  { intros total ->. now exists text. }
  pose proof (convert_chapter_chunks i None (book_callback pc i n)
                Htext Htitle Htr Hdir Hmk) as Hshape.
  cbv zeta in Hshape.
  destruct (split_text_into_chunks text (chunk_size cfg) default_overlap)
    as [| c1 [| c2 rest]] eqn:Hsplit.
  - rewrite Hshape. exists 0.
    repeat split; [now left | intros _ f Hf; discriminate].
  - rewrite Hshape. rewrite fst_try_raise, snd_try_raise.
    rewrite !fst_bindM, !snd_bindM. cbn [emit lift fst snd app].
    destruct (save_to_file w c1 _) as [[] | e].
    2: { exists 0. repeat split; [now left | intros _ f Hf; discriminate]. }
    destruct pc.
    + exists 1. split; [reflexivity |]. split; [| intros; lia].
      right. split; [lia |]. now apply Hcount.
    + exists 0. repeat split; [now left | intros Habs; discriminate].
  - destruct (Z_lt_le_dec 0 (max_workers cfg)) as [Hw | Hw].
    2: { exists 0. rewrite Hshape.
         rewrite thread_pool_executor_refuses by exact Hw.
         rewrite bindM_lift_raise.
         repeat split; [now left | intros _ f Hf; discriminate]. }
    clear Hshape.
    rewrite (convert_chapter_multi i None (book_callback pc i n)
               Htext Htitle Htr Hdir Hmk Hsplit Hw).
    rewrite snd_try_raise, snd_bindM. cbn [fst snd].
    rewrite progress_values_app, no_progress_after_loop, app_nil_r.
    set (chunks := c1 :: c2 :: rest).
    set (m := length chunks).
    assert (Hlen : length (as_completed w i m) = m).
    { rewrite (Permutation_length (Hperm m)). apply length_seq. }
    unfold enumerate. rewrite progress_values_loop.
    + rewrite Hlen. destruct pc.
      * exists (len chunks). split; [| split].
        -- unfold chapter_reports, counts. cbn [fst snd].
           unfold len. fold m. rewrite Nat2Z.id.
           rewrite flat_map_concat_map, !map_map.
           cbn [book_callback cb_events progress_values flat_map app fst snd].
           induction (seq 0 m) as [| k l IHl]; [reflexivity |].
           cbn [map concat app]. now rewrite IHl.
        -- right. split; [subst m chunks; unfold len; cbn [length]; lia |].
           apply Hcount. reflexivity.
        -- intros _ f _. subst m chunks. unfold len. cbn [length]. lia.
      * exists 0. split; [| split; [now left | intros Habs; discriminate]].
        cbn [book_callback cb_events progress_values flat_map map].
        induction (map Z.of_nat (seq 0 m)) as [| k l IHl]; [reflexivity |].
        cbn [flat_map app]. exact IHl.
    + intros j Hj. apply (Permutation_in _ (Hperm m)) in Hj.
      apply in_seq in Hj. subst m. lia.
    + now rewrite length_map, length_seq.
Qed.

(** The progress calls of the loop over the chapters. *)
Lemma convert_chapters_progress (pc sc : bool) (n : Z) (idxs : list Z) :
  (forall i m, Permutation (as_completed w i m) (seq 0 m)) ->
  StronglySorted Z.lt idxs ->
  forall chapter_files,
  let outcome := fun j =>
    fst (convert_chapter ebook w cfg j None (book_callback pc j n)) in
  let run := convert_chapters ebook w cfg pc sc n idxs chapter_files in
  exists reporting : list (Z * Z),
    progress_values (snd run) = flat_map (chapter_reports n) reporting
    /\ StronglySorted Z.lt (map fst reporting)
    /\ Forall (fun it => In (fst it) idxs /\ 1 <= snd it
                         /\ chunk_count ebook cfg (fst it) (snd it))
         reporting
    /\ (pc = true ->
        (exists files, fst run = Ok files) ->
        forall j f, In j idxs -> outcome j = Ok (Some f) ->
                    In j (map fst reporting)).
Proof.
  intros Hperm Hsorted. cbv zeta.
  induction Hsorted as [| i rest Hrest IH Hi]; intros files.
  - exists []. repeat split; try constructor. intros _ _ j f [].
  - cbn [convert_chapters]. fold (book_callback pc i n).
    destruct (chapter_progress pc i n (Hperm i))
      as (total & Hpv_i & Htotal & Hfile).
    cbv zeta in Hpv_i, Hfile.
    rewrite snd_bindM, progress_values_app, pv_status, app_nil_l.
    rewrite fst_bindM.
    assert (Hst : fst (status sc
                         (py "Converting chapter " ++ str_of_Z (i + 1)
                          ++ py "/" ++ str_of_Z n)) = Ok tt)
      by (destruct sc; reflexivity).
    rewrite Hst, snd_bindM, fst_bindM, progress_values_app, Hpv_i.
    destruct (fst (convert_chapter ebook w cfg i None (book_callback pc i n)))
      as [chapter_file | e] eqn:Hout.
    + destruct (IH (match chapter_file with
                    | Some f => files ++ [f]
                    | None => files
                    end))
        as (reporting & Hpv_r & Hs_r & Hin_r & Hall_r).
      rewrite Hpv_r.
      assert (Hin_tail : Forall (fun it => In (fst it) (i :: rest)
                                           /\ 1 <= snd it
                                           /\ chunk_count ebook cfg (fst it)
                                                (snd it)) reporting).
      { eapply Forall_impl; [| exact Hin_r]. intros it (Hit & Hrest').
        split; [now right | exact Hrest']. }
      assert (Hlt : Forall (Z.lt i) (map fst reporting)).
      { apply Forall_forall. intros j Hj. apply in_map_iff in Hj.
        destruct Hj as (it & <- & Hit).
        rewrite Forall_forall in Hin_r, Hi.
        apply Hi. now apply (Hin_r it Hit). }
      destruct Htotal as [-> | (Hpos & Hcount)].
      * exists reporting. split; [reflexivity |]. split; [exact Hs_r |].
        split; [exact Hin_tail |].
        intros Hpc Hok j f [<- | Hj] Hjf.
        -- rewrite Hjf in Hout. injection Hout as <-.
           specialize (Hfile Hpc f eq_refl). lia.
        -- now apply (Hall_r Hpc Hok j f).
      * exists ((i, total) :: reporting). split; [reflexivity |].
        split; [cbn [map fst]; now constructor |].
        split; [constructor; [cbn [fst snd]; repeat split; auto; now left
                            | exact Hin_tail] |].
        intros Hpc Hok j f [<- | Hj] Hjf; [now left |].
        right. now apply (Hall_r Hpc Hok j f).
    + rewrite app_nil_r.
      destruct Htotal as [-> | (Hpos & Hcount)].
      * exists []. repeat split; try constructor.
        intros _ [fs Habs]. discriminate.
      * exists [(i, total)]. split; [cbn [flat_map]; now rewrite app_nil_r |].
        split; [repeat constructor |].
        split; [repeat constructor; cbn [fst snd]; auto |].
        intros _ [fs Habs]. discriminate.
Qed.

Lemma seq_sorted (start n : nat) :
  StronglySorted Z.lt (map Z.of_nat (seq start n)).
Proof.
  revert start. induction n as [| n IH]; intros start; [constructor |].
  cbn [seq map]. constructor; [apply IH |].
  apply Forall_forall. intros z Hz. apply in_map_iff in Hz.
  destruct Hz as (k & <- & Hk). apply in_seq in Hk. lia.
Qed.

Lemma map_fst_enumerate {A} (l : list A) :
  map fst (enumerate l) = map Z.of_nat (seq 0 (length l)).
Proof.
  unfold enumerate. generalize 0%nat.
  induction l as [| a l IH]; intros start; [reflexivity |].
  cbn. now rewrite IH.
Qed.

Lemma In_enumerate_indices {A} (l : list A) (i : Z) :
  In i (map fst (enumerate l)) <-> 0 <= i < len l.
Proof.
  rewrite map_fst_enumerate, in_map_iff. unfold len. split.
  - intros (k & <- & Hk). apply in_seq in Hk. lia.
  - intros Hi. exists (Z.to_nat i). split; [lia |]. apply in_seq. lia.
Qed.

(** C9.  For a book of at most 2^53 chapters, whatever the order in which
    the tasks of each chapter complete.  The values [convert_book] reports
    to the progress callback never decrease.  They are those of the
    chapters that report, in chapter order, and a chapter that reports
    does so once for every count from 1 to the number of its chunks: the
    value for the count [current] of chapter [i] is the specification's
    metric [(i + current / total) / len(chapters) * 100], with [i] the
    number of chapters done before and [total] the number of chunks of
    chapter [i].  When the conversion goes through, every chapter that
    gave a file has reported.  The arithmetic is that of floats. *)
Theorem convert_book_progress_monotone (output_file : pystr)
    (progress_callback status_callback : bool)
    (chapters : list Ebook.chapter_obj) :
  get_chapters ebook = Ok chapters ->
  len chapters <= 2 ^ 53 ->
  (forall i m, Permutation (as_completed w i m) (seq 0 m)) ->
  let n := len chapters in
  let outcome := fun j =>
    fst (convert_chapter ebook w cfg j None
           (book_callback progress_callback j n)) in
  let run :=
    convert_book ebook w cfg output_file progress_callback status_callback in
  let trace := progress_values (snd run) in
  StronglySorted Qle trace
  /\ exists reporting : list (Z * Z),
       trace = flat_map (chapter_reports n) reporting
       /\ StronglySorted Z.lt (map fst reporting)
       /\ Forall (fun it => 0 <= fst it < n /\ 1 <= snd it
                            /\ chunk_count ebook cfg (fst it) (snd it))
            reporting
       /\ (progress_callback = true ->
           forall output, fst run = Ok (Some output) ->
           forall j f, 0 <= j < n -> outcome j = Ok (Some f) ->
                       In j (map fst reporting)).
Proof.
  intros Hch Hbound Hperm n outcome run trace.
  assert (Hempty : trace = [] -> (forall o, fst run <> Ok (Some o)) ->
          StronglySorted Qle trace
          /\ exists reporting : list (Z * Z),
               trace = flat_map (chapter_reports n) reporting
               /\ StronglySorted Z.lt (map fst reporting)
               /\ Forall (fun it => 0 <= fst it < n /\ 1 <= snd it
                                    /\ chunk_count ebook cfg (fst it) (snd it))
                    reporting
               /\ (progress_callback = true ->
                   forall output, fst run = Ok (Some output) ->
                   forall j f, 0 <= j < n -> outcome j = Ok (Some f) ->
                               In j (map fst reporting))).
  { intros -> Hno. split; [constructor |]. exists [].
    repeat split; try constructor.
    intros _ o Ho. now destruct (Hno o). }
  subst trace run. unfold convert_book in *.
  set (handler := fun e : exn => _) in *.
  assert (Hh : forall (m : M (option pystr)),
             progress_values (snd (try_exceptM m handler))
             = progress_values (snd m)
             /\ (forall o, fst (try_exceptM m handler) = Ok o ->
                           fst m = Ok o)).
  { intros [[a | e] t]; cbn [try_exceptM fst snd]; [now split |].
    subst handler. cbn beta.
    destruct (status status_callback (py "Error: " ++ str_of_exn e) ;;;
              raise (ConversionError (py "Error converting book: "
                                      ++ str_of_exn e)))
      as [r t'] eqn:Hst.
    assert (Ht' : progress_values t' = []
                  /\ r = Raise (ConversionError (py "Error converting book: "
                                                 ++ str_of_exn e))).
    { replace t' with (snd (r, t')) by reflexivity.
      replace r with (fst (r, t')) at 2 by reflexivity. rewrite <- Hst.
      split; [apply pv_bindM_nil; [apply pv_status | reflexivity] |].
      destruct status_callback; reflexivity. }
    destruct Ht' as [Ht' ->]. cbv beta iota. cbn [fst snd].
    split; [now rewrite progress_values_app, Ht', app_nil_r |].
    intros o Ho. discriminate. }
  destruct (working_dir w cfg None) as [tmp | e] eqn:Hdir.
  2: { rewrite bindM_lift_raise in *. apply Hempty.
       - now destruct status_callback.
       - intros o. now destruct status_callback. }
  rewrite bindM_lift_ok in *.
  destruct (make_output_dir w output_file) as [[] | e] eqn:Hmk.
  2: { rewrite bindM_lift_raise in *. apply Hempty.
       - now destruct status_callback.
       - intros o. now destruct status_callback. }
  rewrite bindM_lift_ok, Hch, bindM_lift_ok in *.
  destruct (truthy chapters) eqn:Htruthy.
  2: { cbn [negb] in *. apply Hempty.
       - now destruct status_callback.
       - intros o. now destruct status_callback. }
  clear Hempty. cbn [negb].
  match goal with
  | |- context [try_exceptM ?m handler] => destruct (Hh m) as [Hpv Hfst]
  end.
  rewrite Hpv. clear Hpv.
  rewrite pv_bindM_tail.
  2: { intros a. destruct (truthy a).
       - apply pv_bindM_nil; [apply pv_status | intros _].
         apply pv_bindM_nil; [apply pv_combine_audio_files | intros _].
         apply pv_bindM_nil;
           [destruct (keep_temp_files cfg); [reflexivity | apply pv_unlink_all]
           | intros _].
         apply pv_bindM_nil; [| intros _].
         + destruct (negb (keep_temp_files cfg) && _); [| reflexivity].
           apply pv_remove. discriminate.
         + apply pv_bindM_nil; [apply pv_status | reflexivity].
       - apply pv_bindM_nil; [apply pv_status | reflexivity]. }
  assert (Hn : 1 <= n).
  { subst n. destruct chapters; [discriminate |].
    unfold len. cbn [length]. lia. }
  destruct (@convert_chapters_progress progress_callback status_callback
              n (map fst (enumerate chapters)) Hperm)
    with (chapter_files := @nil pystr)
    as (reporting & Hrep & Hs & Hall & Hfiles).
  { rewrite map_fst_enumerate. apply seq_sorted. }
  cbv zeta in Hrep, Hfiles. fold n. rewrite Hrep.
  assert (Hall' : Forall (fun it => 0 <= fst it < n /\ 1 <= snd it
                                    /\ chunk_count ebook cfg (fst it) (snd it))
                    reporting).
  { eapply Forall_impl; [| exact Hall]. intros it (Hit & Hrest).
    split; [now apply In_enumerate_indices in Hit | exact Hrest]. }
  split.
  - apply reports_sorted; [exact Hn | exact Hs |].
    eapply Forall_impl; [| exact Hall']. intros it (Hit & _). cbv beta.
    fold n in Hbound. lia.
  - exists reporting. split; [reflexivity |]. split; [exact Hs |].
    split; [exact Hall' |].
    intros Hpc o Ho j f Hj Hjf.
    apply (Hfiles Hpc) with (f := f);
      [| now apply In_enumerate_indices | exact Hjf].
    apply Hfst in Ho. rewrite fst_bindM in Ho. fold n in Ho.
    destruct (fst (convert_chapters ebook w cfg progress_callback
                     status_callback n (map fst (enumerate chapters)) []))
      as [fs | e]; [now exists fs | discriminate].
Qed.


End Facts.

Section Concrete.
#[local] Existing Instance ascii_only.

Example demo_chunks :
  get_chapter_text demo_book 0 = Ok (py "Chapter 1 aa bb. cc dd. ee ff.")
  /\ get_chapter_title demo_book 0 = Ok (py "Chapter 1")
  /\ split_text_into_chunks (py "Chapter 1 aa bb. cc dd. ee ff.") 20
       default_overlap
     = [py "Chapter 1 aa bb."; py "Chapter 1 aa bb. cc dd.";
        py "Chapter 1 aa bb. cc dd. ee ff."].
Proof. repeat split; vm_compute; reflexivity. Qed.

(** C1.  The three tasks of the chapter complete in the order 2, 0, 1, all
    successfully: [combine_audio_files] receives the fragments in that
    order, chunk 2 first.  Nothing between the loop over the completed
    tasks and the call sorts [chunk_files]. *)
Theorem convert_chapter_combines_in_completion_order :
  let r := convert_chapter demo_book (demo_world [] [2; 0; 1]%nat)
             (demo_cfg 20) 0 None None in
  Permutation [2; 0; 1]%nat (seq 0 3)
  /\ combined_lists (snd r)
     = [[py "/tmp/work/chunk_2.mp3"; py "/tmp/work/chunk_0.mp3";
         py "/tmp/work/chunk_1.mp3"]]
  /\ fst r = Ok (Some (py "/tmp/work/chapter_1_Chapter 1.mp3")).
Proof.
  split; [| split; vm_compute; reflexivity].
  cbn [seq]. apply Permutation_sym.
  apply perm_trans with [1; 0; 2]%nat; [apply perm_swap |].
  apply perm_trans with [1; 2; 0]%nat; [apply perm_skip, perm_swap |].
  apply perm_trans with [2; 1; 0]%nat; [apply perm_swap |].
  apply perm_skip, perm_swap.
Qed.

(** C7, witness of the amended statement: of the three chunks the second
    fails; the chapter file is built from the first and the third. *)
Lemma convert_chapter_drops_failed_chunks_witness :
  let r := convert_chapter demo_book
             (demo_world [py "/tmp/work/chunk_1.mp3"] [0; 1; 2]%nat)
             (demo_cfg 20) 0 None None in
  combined_lists (snd r)
  = [[py "/tmp/work/chunk_0.mp3"; py "/tmp/work/chunk_2.mp3"]]
  /\ fst r = Ok (Some (py "/tmp/work/chapter_1_Chapter 1.mp3")).
Proof.
  destruct (@convert_chapter_drops_failed_chunks ascii_only demo_book
              (demo_world [py "/tmp/work/chunk_1.mp3"] [0; 1; 2]%nat)
              (demo_cfg 20) 0 None None
              (py "Chapter 1 aa bb. cc dd. ee ff.") (py "Chapter 1")
              (py "/tmp/work")
              [py "Chapter 1 aa bb."; py "Chapter 1 aa bb. cc dd.";
               py "Chapter 1 aa bb. cc dd. ee ff."])
    as (_ & Hcombined & _ & Hreturn & _).
  - vm_compute; reflexivity.
  - vm_compute; reflexivity.
  - discriminate.
  - reflexivity.
  - reflexivity.
  - vm_compute; reflexivity.
  - cbn [length]. lia.
  - reflexivity.
  - apply Permutation_refl.
  - reflexivity.
  - split; [exact Hcombined |].
    apply Hreturn; [discriminate | reflexivity | reflexivity].
Defined.

(** C7, as stated, fails on a chapter of one chunk: the chunk is
    synthesized directly to the chapter file, outside [_process_chunk],
    and the engine's failure leaves [convert_chapter] as a
    [ConversionError] instead of a dropped fragment and [None]. *)
Lemma convert_chapter_single_chunk_counterexample :
  let w := demo_world [py "/tmp/work/chapter_1_Chapter 1.mp3"] [] in
  split_text_into_chunks (py "Chapter 1 aa bb. cc dd. ee ff.") 2000
    default_overlap
  = [py "Chapter 1 aa bb. cc dd. ee ff."]
  /\ save_to_file w (py "Chapter 1 aa bb. cc dd. ee ff.")
       (py "/tmp/work/chapter_1_Chapter 1.mp3")
     = Raise (TTSEngineError (py "synthesis failed"))
  /\ convert_chapter demo_book w (demo_cfg 2000) 0 None None
     = (Raise (ConversionError
                 (py "Error converting chapter 0: synthesis failed")),
        [Synthesize (py "Chapter 1 aa bb. cc dd. ee ff.")
           (py "/tmp/work/chapter_1_Chapter 1.mp3")]).
Proof. repeat split; vm_compute; reflexivity. Qed.

(** [convert_book_no_chapters] on the PDF without pages. *)
Lemma convert_book_no_chapters_witness :
  convert_book empty_book reversing_world (demo_cfg 20) (py "/tmp/book.mp3")
    true true
  = (Ok None, [Status (py "No chapters found in book")]).
Proof.
  apply (@convert_book_no_chapters ascii_only empty_book reversing_world
           (demo_cfg 20) (py "/tmp/book.mp3") (py "/tmp/work") true);
    reflexivity.
Defined.

(** C9, witness: the book of two chapters, of three and of two chunks,
    whose tasks complete last submitted first. *)
Lemma convert_book_progress_monotone_witness :
  let n := 2 in
  let outcome := fun j =>
    fst (convert_chapter two_chapter_book reversing_world (demo_cfg 20) j
           None (book_callback true j n)) in
  let run :=
    convert_book two_chapter_book reversing_world (demo_cfg 20)
      (py "/tmp/book.mp3") true true in
  let trace := progress_values (snd run) in
  StronglySorted Qle trace
  /\ exists reporting : list (Z * Z),
       trace = flat_map (chapter_reports n) reporting
       /\ StronglySorted Z.lt (map fst reporting)
       /\ Forall (fun it => 0 <= fst it < n /\ 1 <= snd it
                            /\ chunk_count two_chapter_book (demo_cfg 20)
                                 (fst it) (snd it))
            reporting
       /\ (true = true ->
           forall output, fst run = Ok (Some output) ->
           forall j f, 0 <= j < n -> outcome j = Ok (Some f) ->
                       In j (map fst reporting)).
Proof.
  apply (@convert_book_progress_monotone ascii_only two_chapter_book
           reversing_world (demo_cfg 20) (py "/tmp/book.mp3") true true
           (map Ebook.TxtChapter
              (TextProcessor.chapters
                 (TextProcessor.init (py "Chapter 1
aa bb. cc dd. ee ff.
Chapter 2
gg hh. ii jj."))))).
  - reflexivity.
  - vm_compute. discriminate.
  - intros i m. apply Permutation_sym, Permutation_rev.
Defined.

(** The values reported for that book: the two chapters report for their
    three and their two chunks, and the values are floats (the first one
    is not 50/3). *)
Example two_chapter_book_trace :
  progress_values
    (snd (convert_book two_chapter_book reversing_world (demo_cfg 20)
            (py "/tmp/book.mp3") true true))
  = flat_map (chapter_reports 2) [(0, 3); (1, 2)]
  /\ flat_map (chapter_reports 2) [(0, 3); (1, 2)]
     = [(2345624805922133 # 140737488355328)%Q;
        (2345624805922133 # 70368744177664)%Q; 50%Q; 75%Q; 100%Q].
Proof. split; vm_compute; reflexivity. Qed.

End Concrete.
End ConverterFacts.

(* ===================================================================== *)
(** * Further properties of the text segmenter *)
(* ===================================================================== *)

Module SegmenterFacts.
Import Spec Shape TextStats TextUtilsFacts.

Section Facts.
Context `{Unicode}.

Lemma Forall_lstrip (P : char -> Prop) (s : pystr) :
  Forall P s -> Forall P (lstrip s).
Proof.
  induction 1 as [| c s Hc Hs IH]; [constructor |].
  cbn [lstrip]. destruct (isspace c); [exact IH | now constructor].
Qed.

Lemma Forall_strip (P : char -> Prop) (s : pystr) :
  Forall P s -> Forall P (strip s).
Proof.
  intros Hs. unfold strip, rstrip.
  apply Forall_rev, Forall_lstrip, Forall_rev, Forall_lstrip, Hs.
Qed.

Lemma Forall_replace (P : char -> Prop) (old : char) (new s : pystr) :
  Forall P new ->
  Forall (fun c => c <> old -> P c) s ->
  Forall P (replace old new s).
Proof.
  intros Hnew Hs. unfold replace.
  induction Hs as [| c s Hc Hs IH]; [constructor |].
  cbn [flat_map]. apply Forall_app. split; [| exact IH].
  destruct (N.eqb_spec c old) as [-> | Hne]; [exact Hnew |].
  constructor; [now apply Hc | constructor].
Qed.

Lemma sub_ws_runs_rewritten (in_run : bool) (s : pystr) :
  Forall (rewritten []) (sub_ws_runs in_run s).
Proof.
  revert in_run. induction s as [| c s IH]; intro in_run; [constructor |].
  cbn [sub_ws_runs]. destruct (isspace c) eqn:Hc.
  - destruct in_run; [apply IH |].
    constructor; [| apply IH]. split; [reflexivity | intros []].
  - constructor; [| apply IH]. split; [congruence | intros []].
Qed.

Lemma replace_rewritten (gone : list char) (old : char) (new s : pystr) :
  Forall (rewritten (old :: gone)) new ->
  Forall (rewritten gone) s ->
  Forall (rewritten (old :: gone)) (replace old new s).
Proof.
  intros Hnew Hs. apply Forall_replace; [exact Hnew |].
  apply (Forall_impl _ (P := rewritten gone)); [| exact Hs].
  intros c [Hsp Hin] Hne. split; [exact Hsp |].
  intros [Heq | Hg]; [now apply Hne | now apply Hin].
Qed.

Lemma Forall_filter_both {A} (f : A -> bool) (P : A -> Prop) (l : list A) :
  Forall P l -> Forall (fun a => f a = true /\ P a) (filter f l).
Proof.
  intros Hl. apply Forall_forall. intros a Ha. apply filter_In in Ha.
  destruct Ha as [Ha Hf]. split; [exact Hf |].
  rewrite Forall_forall in Hl. now apply Hl.
Qed.

Lemma clean_text_strip (T : pystr) : strip (clean_text T) = clean_text T.
Proof.
  unfold clean_text. destruct (truthy T); cbn [negb]; [| reflexivity].
  apply strip_idem.
Qed.

Ltac literal_rewritten :=
  repeat (apply Forall_cons; [split |]); try apply Forall_nil;
  try (let Habs := fresh in intro Habs; vm_compute in Habs; discriminate Habs);
  let Hin := fresh in
  intro Hin; cbn [In] in Hin;
  repeat (destruct Hin as [Hin | Hin]; [discriminate Hin |]); exact Hin.

Lemma clean_text_chars (T : pystr) :
  Forall (fun c => clean_char c = true) (clean_text T).
Proof.
  unfold clean_text. destruct (truthy T); cbn [negb]; [| constructor].
  apply Forall_strip.
  eapply Forall_impl;
    [| apply Forall_filter_both with
         (P := rewritten [8230; 8212; 8211; 8221; 8220; 8217; 8216]%N)].
  - intros c [Hctl [Hsp Hin]]. unfold clean_char.
    rewrite Hctl. cbn [andb].
    apply andb_true_iff. split.
    + apply negb_true_iff. destruct (existsb _ _) eqn:Hex; [| reflexivity].
      apply existsb_exists in Hex. destruct Hex as (x & Hx & Hcx).
      apply N.eqb_eq in Hcx. subst x. exfalso. apply Hin.
      unfold typographic in Hx. cbn [In] in *. tauto.
    + destruct (isspace c); [| reflexivity].
      rewrite (Hsp eq_refl). reflexivity.
  - repeat (apply replace_rewritten; [literal_rewritten |]).
    apply sub_ws_runs_rewritten.
Qed.

(** What [clean_text] returns is in normal form: it holds no control
    character, none of the typographic characters it rewrites, and no
    whitespace other than the space; and it has no whitespace at either
    end. *)
Theorem clean_text_normal_form (T : pystr) :
  Forall (fun c => clean_char c = true) (clean_text T)
  /\ strip (clean_text T) = clean_text T.
Proof. split; [apply clean_text_chars | apply clean_text_strip]. Qed.

(** ** Sentences *)

(** Every sentence returned is non-empty and trimmed. *)
Lemma sentences_are_solid (T : pystr) :
  Forall solid (split_into_sentences T).
Proof.
  unfold split_into_sentences. destruct (truthy T); cbn [negb]; [| constructor].
  apply Forall_forall. intros s Hs. apply in_map_iff in Hs.
  destruct Hs as (x & <- & Hx). apply filter_In in Hx. destruct Hx as [_ Hx].
  split; [| apply strip_idem].
  intro Hnil. rewrite Hnil in Hx. discriminate.
Qed.

Lemma filter_nonspace_lstrip (s : pystr) :
  filter nonspace (lstrip s) = filter nonspace s.
Proof.
  induction s as [| c s IH]; [reflexivity |].
  cbn [lstrip]. destruct (isspace c) eqn:Hc; [| reflexivity].
  cbn [filter]. unfold nonspace at 2. rewrite Hc. exact IH.
Qed.

Lemma filter_nonspace_strip (s : pystr) :
  filter nonspace (strip s) = filter nonspace s.
Proof.
  unfold strip, rstrip.
  rewrite filter_rev, filter_nonspace_lstrip, <- filter_rev, rev_involutive.
  apply filter_nonspace_lstrip.
Qed.

Lemma filter_nonspace_pieces (pieces : list pystr) :
  filter nonspace
    (concat (map strip (filter (fun s => truthy (strip s)) pieces)))
  = filter nonspace (concat pieces).
Proof.
  induction pieces as [| p pieces IH]; [reflexivity |].
  cbn [filter concat]. rewrite (filter_app _ p).
  destruct (truthy (strip p)) eqn:Hp.
  - cbn [map concat]. now rewrite filter_app, IH, filter_nonspace_strip.
  - rewrite IH, <- (filter_nonspace_strip p), (truthy_false_nil _ Hp).
    reflexivity.
Qed.

Lemma sentence_break_isspace (before : pystr) (c : char) :
  sentence_break before c = true -> isspace c = true.
Proof.
  unfold sentence_break. intros Hb. now apply andb_true_iff in Hb.
Qed.

Lemma filter_nonspace_re_split (before acc s : pystr) :
  filter nonspace (concat (re_split_acc before acc s))
  = filter nonspace (rev acc ++ s).
Proof.
  revert before acc. induction s as [| c s IH]; intros before acc.
  - cbn. now rewrite !app_nil_r.
  - cbn [re_split_acc]. destruct (sentence_break before c) eqn:Hb.
    + cbn [concat]. rewrite !filter_app, IH. cbn [rev app filter].
      unfold nonspace at 4. now rewrite (sentence_break_isspace _ _ Hb).
    + rewrite IH. cbn [rev]. now rewrite <- app_assoc.
Qed.

Lemma filter_nonspace_sentences (T : pystr) :
  filter nonspace (concat (split_into_sentences T)) = filter nonspace T.
Proof.
  unfold split_into_sentences.
  destruct T as [| c T]; [reflexivity |]. cbn [truthy negb].
  now rewrite filter_nonspace_pieces, filter_nonspace_re_split.
Qed.

(** ** No sentence is dropped *)

Lemma infix_refl (s : pystr) : infix s s.
Proof. exists [], []. now rewrite app_nil_r. Qed.

Lemma infix_trans (s c d : pystr) : infix s c -> infix c d -> infix s d.
Proof.
  intros (a & b & ->) (a' & b' & ->). exists (a' ++ a), (b ++ b').
  now rewrite <- !app_assoc.
Qed.

Lemma infix_app_l (s c a : pystr) : infix s c -> infix s (a ++ c).
Proof.
  intros (a' & b & ->). exists (a ++ a'), b. now rewrite <- app_assoc.
Qed.

Lemma infix_app_r (s c b : pystr) : infix s c -> infix s (c ++ b).
Proof.
  intros (a & b' & ->). exists a, (b' ++ b). now rewrite <- !app_assoc.
Qed.

Lemma infix_rev (s c : pystr) : infix s c -> infix (rev s) (rev c).
Proof.
  intros (a & b & ->). exists (rev b), (rev a).
  now rewrite !rev_app_distr, <- app_assoc.
Qed.

Lemma infix_nil (s : pystr) : infix s [] -> s = [].
Proof.
  intros (a & b & Heq). symmetry in Heq.
  apply app_eq_nil in Heq. destruct Heq as [_ Heq].
  now apply app_eq_nil in Heq.
Qed.

Lemma lstrip_suffix (s : pystr) : exists a, s = a ++ lstrip s.
Proof.
  induction s as [| c s [a IH]]; [now exists [] |].
  cbn [lstrip]. destruct (isspace c); [| now exists []].
  exists (c :: a). cbn. now rewrite <- IH.
Qed.

Lemma infix_strip_self (s : pystr) : infix (strip s) s.
Proof.
  unfold strip, rstrip.
  destruct (lstrip_suffix s) as [a Ha].
  destruct (lstrip_suffix (rev (lstrip s))) as [b Hb].
  exists a, (rev b). rewrite Ha at 1. f_equal.
  rewrite <- rev_app_distr, <- Hb. now rewrite rev_involutive.
Qed.

Lemma solid_lstrip (s : pystr) : solid s -> lstrip s = s.
Proof.
  intros [_ Hs]. rewrite <- Hs at 1. unfold strip.
  rewrite lstrip_rstrip_lstrip. exact Hs.
Qed.

Lemma solid_rev (s : pystr) : solid s -> lstrip (rev s) = rev s.
Proof.
  intros [_ Hs].
  assert (Hr : rstrip s = s).
  { rewrite <- Hs at 1. unfold strip. rewrite rstrip_idem. exact Hs. }
  unfold rstrip in Hr. rewrite <- Hr at 2. now rewrite rev_involutive.
Qed.

Lemma infix_lstrip (s c : pystr) :
  s <> [] -> lstrip s = s -> infix s c -> infix s (lstrip c).
Proof.
  intros Hne Hs (a & b & ->).
  destruct (lstrip_head s) as [Hnil | (x & t & Hxt & Hx)]; [congruence |].
  rewrite Hs in Hxt. subst s.
  induction a as [| y a IH].
  - cbn [app lstrip]. rewrite Hx. exists [], b. reflexivity.
  - cbn [app lstrip]. destruct (isspace y); [exact IH |].
    exists (y :: a), b. reflexivity.
Qed.

Lemma infix_strip (s c : pystr) : solid s -> infix s c -> infix s (strip c).
Proof.
  intros Hsolid Hin. unfold strip, rstrip.
  rewrite <- (rev_involutive s). apply infix_rev.
  apply infix_lstrip.
  - destruct Hsolid as [Hne _]. intro Hr. apply Hne.
    rewrite <- (rev_involutive s), Hr. reflexivity.
  - now apply solid_rev.
  - apply infix_rev. apply infix_lstrip; [apply Hsolid | | exact Hin].
    now apply solid_lstrip.
Qed.

Lemma re_split_infix (before acc s p : pystr) :
  In p (re_split_acc before acc s) -> infix p (rev acc ++ s).
Proof.
  revert before acc. induction s as [| c s IH]; intros before acc Hp.
  - destruct Hp as [<- | []]. rewrite app_nil_r. apply infix_refl.
  - cbn [re_split_acc] in Hp. destruct (sentence_break before c).
    + destruct Hp as [<- | Hp].
      * apply infix_app_r, infix_refl.
      * apply IH in Hp. cbn [rev app] in Hp.
        apply infix_app_l. change (c :: s) with ([c] ++ s).
        now apply infix_app_l.
    + apply IH in Hp. cbn [rev] in Hp. now rewrite <- app_assoc in Hp.
Qed.

(** Every sentence is a contiguous piece of the text it was split from. *)
Lemma sentence_infix (T s : pystr) :
  In s (split_into_sentences T) -> infix s T.
Proof.
  unfold split_into_sentences. destruct (truthy T); cbn [negb]; [| intros []].
  intros Hs. apply in_map_iff in Hs. destruct Hs as (x & <- & Hx).
  apply filter_In in Hx. destruct Hx as [Hx _].
  apply re_split_infix in Hx. cbn [rev app] in Hx.
  eapply infix_trans; [apply infix_strip_self | exact Hx].
Qed.

(** Splitting into sentences loses no character but whitespace and keeps
    the characters in order; and every sentence returned is a contiguous
    piece of the text, non-empty and trimmed. *)
Theorem sentences_keep_characters (T : pystr) :
  filter nonspace (concat (split_into_sentences T)) = filter nonspace T
  /\ Forall (fun s => infix s T /\ solid s) (split_into_sentences T).
Proof.
  split; [apply filter_nonspace_sentences |].
  apply Forall_forall. intros s Hs. split; [now apply sentence_infix |].
  pose proof (sentences_are_solid T) as Hsolid.
  rewrite Forall_forall in Hsolid. now apply Hsolid.
Qed.

Lemma kept_closed (chunks : list pystr) (cur cur' s : pystr) :
  solid s ->
  kept (chunks, cur) s -> kept (chunks ++ [strip cur], cur') s.
Proof.
  intros Hs [Hc | Hb]; left; cbn [fst snd] in *; apply Exists_app.
  - now left.
  - right. constructor. now apply infix_strip.
Qed.

Lemma chunk_step_keeps (chunk_size overlap : Z) (st : list pystr * pystr)
    (x s : pystr) :
  solid s -> kept st s -> kept (chunk_step chunk_size overlap st x) s.
Proof.
  intros Hs Hk. destruct st as [chunks cur]. unfold chunk_step.
  destruct (len cur + len x >? chunk_size); [now apply kept_closed |].
  destruct Hk as [Hc | Hb]; cbn [fst snd] in *.
  - destruct (truthy cur); now left.
  - destruct cur as [| c cur]; cbn [truthy].
    + apply infix_nil in Hb. destruct Hs as [Hne _]. contradiction.
    + right. cbn [snd]. now apply infix_app_r.
Qed.

Lemma chunk_step_takes (chunk_size overlap : Z) (st : list pystr * pystr)
    (x : pystr) :
  kept (chunk_step chunk_size overlap st x) x.
Proof.
  destruct st as [chunks cur]. unfold chunk_step. right.
  destruct (len cur + len x >? chunk_size); cbn [snd].
  - apply infix_app_l. change (py " " ++ x) with ([32%N] ++ x).
    apply infix_app_l, infix_refl.
  - destruct (truthy cur); cbn [snd]; [| apply infix_refl].
    apply infix_app_l. change (py " " ++ x) with ([32%N] ++ x).
    apply infix_app_l, infix_refl.
Qed.

Lemma fold_keeps (chunk_size overlap : Z) (l : list pystr)
    (st : list pystr * pystr) (s : pystr) :
  solid s -> kept st s ->
  kept (fold_left (chunk_step chunk_size overlap) l st) s.
Proof.
  intros Hs. revert st. induction l as [| x l IH]; intros st Hk; [exact Hk |].
  cbn [fold_left]. apply IH. now apply chunk_step_keeps.
Qed.

Lemma fold_takes (chunk_size overlap : Z) (l : list pystr)
    (st : list pystr * pystr) (s : pystr) :
  Forall solid l -> In s l ->
  kept (fold_left (chunk_step chunk_size overlap) l st) s.
Proof.
  intros Hl. revert st. induction Hl as [| x l Hx Hl IH]; intros st Hin;
    [destruct Hin |].
  cbn [fold_left]. destruct Hin as [<- | Hin]; [| now apply IH].
  apply fold_keeps; [exact Hx | apply chunk_step_takes].
Qed.

Lemma every_sentence_kept (T : pystr) (chunk_size overlap : Z) :
  Forall (fun s => Exists (infix s) (split_text_into_chunks T chunk_size overlap))
         (split_into_sentences (clean_text T)).
Proof.
  apply Forall_forall. intros s Hs.
  pose proof (sentences_are_solid (clean_text T)) as Hsolid.
  unfold split_text_into_chunks.
  destruct (truthy T) eqn:HT; cbn [negb].
  - destruct (len (clean_text T) <=? chunk_size).
    + constructor. now apply sentence_infix.
    + pose proof (@fold_takes chunk_size overlap _ ([], []) s Hsolid Hs)
        as Hk.
      destruct (fold_left _ _ _) as [chunks cur].
      assert (Hss : solid s) by (rewrite Forall_forall in Hsolid; auto).
      destruct Hk as [Hc | Hb]; cbn [fst snd] in *.
      * destruct (truthy (strip cur)); [apply Exists_app; now left | exact Hc].
      * apply infix_strip in Hb; [| exact Hss].
        destruct (strip cur) as [| c r] eqn:Hcur.
        -- apply infix_nil in Hb. destruct Hss as [Hne _]. contradiction.
        -- cbn [truthy]. apply Exists_app. right. now constructor.
  - apply truthy_false_nil in HT. subst T. destruct Hs.
Qed.

(** No sentence is dropped: every sentence of the cleaned text occurs, as
    a contiguous piece, in one of the chunks returned. *)
Theorem chunks_keep_every_sentence (T : pystr) (chunk_size overlap : Z) :
  Forall (fun s => Exists (infix s) (split_text_into_chunks T chunk_size overlap))
         (split_into_sentences (clean_text T)).
Proof. apply every_sentence_kept. Qed.

Lemma fold_chunk_count (chunk_size overlap : Z) (l : list pystr)
    (st : list pystr * pystr) :
  (length (fst (fold_left (chunk_step chunk_size overlap) l st))
   <= length (fst st) + length l)%nat.
Proof.
  revert st. induction l as [| x l IH]; intros [chunks cur]; cbn [fold_left].
  - cbn. lia.
  - etransitivity; [apply IH |]. unfold chunk_step.
    destruct (len cur + len x >? chunk_size).
    + cbn [fst length]. rewrite length_app. cbn. lia.
    + destruct (truthy cur); cbn; lia.
Qed.

Lemma lstrip_nil_nonspace (s : pystr) :
  lstrip s = [] -> filter nonspace s = [].
Proof. intros Hs. now rewrite <- filter_nonspace_lstrip, Hs. Qed.

Lemma sentences_of_cleaned (T : pystr) :
  clean_text T <> [] -> split_into_sentences (clean_text T) <> [].
Proof.
  intros Hne Hnil.
  pose proof (filter_nonspace_sentences (clean_text T)) as Hf.
  rewrite Hnil in Hf. cbn in Hf.
  pose proof (clean_text_strip T) as Hs.
  destruct (lstrip_head (clean_text T)) as [Hl | (c & t & Hl & Hc)].
  - apply Hne. rewrite <- Hs. unfold strip. now rewrite Hl.
  - assert (Hct : lstrip (clean_text T) = clean_text T).
    { rewrite <- Hs at 1. unfold strip. rewrite lstrip_rstrip_lstrip.
      exact Hs. }
    rewrite Hct in Hl. rewrite Hl in Hf. cbn [filter] in Hf.
    unfold nonspace in Hf. rewrite Hc in Hf. discriminate.
Qed.

(** There is at most one chunk more than there are sentences. *)
Theorem chunk_count_upper (T : pystr) (chunk_size overlap : Z) :
  len (split_text_into_chunks T chunk_size overlap)
  <= len (split_into_sentences (clean_text T)) + 1.
Proof.
  unfold split_text_into_chunks.
  destruct (truthy T); cbn [negb]; [| unfold len; cbn; lia].
  destruct (len (clean_text T) <=? chunk_size);
    [unfold len; cbn [length]; lia |].
  pose proof (@fold_chunk_count chunk_size overlap
                (split_into_sentences (clean_text T)) ([], [])) as Hn.
  destruct (fold_left _ _ _) as [chunks cur]. cbn [fst length] in Hn.
  unfold len. destruct (truthy (strip cur)); [rewrite length_app |];
    cbn [length]; lia.
Qed.

(** A text that is not empty gives at least one chunk, whatever the
    (natural) [chunk_size]: the branch of [convert_chapter] for an empty
    chunk list is never taken. *)
Theorem chunks_not_empty (T : pystr) (chunk_size overlap : Z) :
  T <> [] -> 0 <= chunk_size ->
  split_text_into_chunks T chunk_size overlap <> [].
Proof.
  intros HT Hcs.
  pose proof (every_sentence_kept T chunk_size overlap) as Hkeep.
  unfold split_text_into_chunks in *.
  rewrite (truthy_true_cons HT) in *. cbn [negb] in *.
  destruct (Z.leb_spec (len (clean_text T)) chunk_size) as [Hle | Hgt];
    [discriminate |].
  assert (Hne : clean_text T <> []).
  { intro Hnil. rewrite Hnil in Hgt. cbn in Hgt. lia. }
  apply sentences_of_cleaned in Hne.
  destruct (split_into_sentences (clean_text T)) as [| s l]; [congruence |].
  apply Forall_inv in Hkeep. apply Exists_exists in Hkeep.
  destruct Hkeep as (ch & Hin & _).
  destruct (fold_left _ _ _) as [chunks cur].
  intro Hnil. rewrite Hnil in Hin. destruct Hin.
Qed.

(** ** Cleaning twice *)

Lemma single_spaced_weaken (b : bool) (s : pystr) :
  single_spaced b s = true -> single_spaced false s = true.
Proof.
  destruct s as [| c s]; [reflexivity |]. cbn [single_spaced].
  destruct (isspace c); [| tauto].
  destruct b; cbn [negb andb]; [discriminate | tauto].
Qed.

Lemma sub_ws_runs_fixed (b : bool) (s : pystr) :
  single_spaced b s = true -> sub_ws_runs b s = s.
Proof.
  revert b. induction s as [| c s IH]; intros b Hs; [reflexivity |].
  cbn [single_spaced sub_ws_runs] in *. destruct (isspace c).
  - apply andb_true_iff in Hs. destruct Hs as [Hs Hr].
    apply andb_true_iff in Hs. destruct Hs as [Hb Hc].
    apply negb_true_iff in Hb. apply N.eqb_eq in Hc. subst b c.
    now rewrite IH.
  - now rewrite IH.
Qed.

Lemma sub_ws_runs_single_spaced (b : bool) (s : pystr) :
  single_spaced b (sub_ws_runs b s) = true.
Proof.
  revert b. induction s as [| c s IH]; intros b; [reflexivity |].
  cbn [sub_ws_runs]. destruct (isspace c) eqn:Hc.
  - destruct b; [apply IH |]. cbn [single_spaced].
    change (isspace 32%N) with true. cbn [negb andb]. apply IH.
  - cbn [single_spaced]. rewrite Hc. apply IH.
Qed.

Lemma single_spaced_app_solid (b : bool) (new rest : pystr) :
  new <> [] -> forallb nonspace new = true ->
  single_spaced b (new ++ rest) = single_spaced false rest.
Proof.
  intros Hne Hall. destruct new as [| x new]; [congruence |]. clear Hne.
  revert b x Hall. induction new as [| y new IH]; intros b x Hall;
    cbn [forallb] in Hall; apply andb_true_iff in Hall;
    destruct Hall as [Hx Hall]; unfold nonspace in Hx;
    apply negb_true_iff in Hx; cbn [app single_spaced]; rewrite Hx.
  - reflexivity.
  - apply (IH false y Hall).
Qed.

Lemma replace_single_spaced (old : char) (new : pystr) (b : bool)
    (s : pystr) :
  isspace old = false -> new <> [] -> forallb nonspace new = true ->
  single_spaced b s = true -> single_spaced b (replace old new s) = true.
Proof.
  intros Hold Hne Hall. unfold replace. revert b.
  induction s as [| c s IH]; intros b Hs; [reflexivity |].
  cbn [flat_map]. destruct (N.eqb_spec c old) as [-> | Hc].
  - rewrite single_spaced_app_solid by assumption.
    cbn [single_spaced] in Hs. rewrite Hold in Hs. now apply IH.
  - cbn [app single_spaced] in *. destruct (isspace c).
    + apply andb_true_iff in Hs. destruct Hs as [Hs Hr].
      rewrite Hs. cbn [andb]. now apply IH.
    + now apply IH.
Qed.

Lemma single_spaced_prefix (b : bool) (p q : pystr) :
  single_spaced b (p ++ q) = true -> single_spaced b p = true.
Proof.
  revert b. induction p as [| c p IH]; intros b Hs; [reflexivity |].
  cbn [app single_spaced] in *. destruct (isspace c).
  - apply andb_true_iff in Hs. destruct Hs as [Hs Hr].
    rewrite Hs. cbn [andb]. now apply IH.
  - now apply IH.
Qed.

Lemma single_spaced_suffix (b : bool) (p q : pystr) :
  single_spaced b (p ++ q) = true -> single_spaced false q = true.
Proof.
  revert b. induction p as [| c p IH]; intros b Hs.
  - now apply single_spaced_weaken with b.
  - cbn [app single_spaced] in Hs. destruct (isspace c).
    + apply andb_true_iff in Hs. destruct Hs as [_ Hr]. now apply IH with true.
    + now apply IH with false.
Qed.

Lemma strip_single_spaced (s : pystr) :
  single_spaced false s = true -> single_spaced false (strip s) = true.
Proof.
  intros Hs. unfold strip, rstrip.
  destruct (lstrip_suffix s) as [a Ha].
  destruct (lstrip_suffix (rev (lstrip s))) as [a' Ha'].
  rewrite Ha in Hs. apply single_spaced_suffix in Hs.
  assert (Hsplit : lstrip s = rev (lstrip (rev (lstrip s))) ++ rev a').
  { rewrite <- rev_app_distr, <- Ha'. now rewrite rev_involutive. }
  rewrite Hsplit in Hs. now apply single_spaced_prefix in Hs.
Qed.

Lemma replace_absent (old : char) (new s : pystr) :
  ~ In old s -> replace old new s = s.
Proof.
  unfold replace. induction s as [| c s IH]; intros Hin; [reflexivity |].
  cbn [flat_map]. destruct (N.eqb_spec c old) as [-> | Hc].
  - exfalso. apply Hin. now left.
  - cbn [app]. f_equal. apply IH. intro Hs. apply Hin. now right.
Qed.

Lemma filter_all {A} (f : A -> bool) (l : list A) :
  Forall (fun a => f a = true) l -> filter f l = l.
Proof.
  induction 1 as [| a l Ha Hl IH]; [reflexivity |].
  cbn [filter]. now rewrite Ha, IH.
Qed.

Lemma clean_char_not_typographic (c old : char) :
  clean_char c = true -> In old typographic -> c <> old.
Proof.
  unfold clean_char. intros Hc Hold ->.
  apply andb_true_iff in Hc. destruct Hc as [Hc _].
  apply andb_true_iff in Hc. destruct Hc as [_ Hc].
  apply negb_true_iff in Hc.
  assert (Habs : existsb (N.eqb old) typographic = true).
  { apply existsb_exists. exists old. split; [exact Hold | apply N.eqb_refl]. }
  congruence.
Qed.

Lemma replace_clean (old : char) (new s : pystr) :
  In old typographic ->
  Forall (fun c => clean_char c = true) s -> replace old new s = s.
Proof.
  intros Hold Hs. apply replace_absent. intro Hin.
  rewrite Forall_forall in Hs.
  exact (clean_char_not_typographic (Hs _ Hin) Hold eq_refl).
Qed.

(** The texts [clean_text] leaves alone: those in normal form whose
    spaces are single. *)
Lemma clean_text_fixed (X : pystr) :
  Forall (fun c => clean_char c = true) X ->
  strip X = X ->
  single_spaced false X = true ->
  clean_text X = X.
Proof.
  intros Hchars Hstrip Hsingle. unfold clean_text.
  destruct (truthy X) eqn:HX; cbn [negb];
    [| symmetry; now apply truthy_false_nil].
  rewrite sub_ws_runs_fixed by exact Hsingle.
  assert (Hrep : forall old new, In old typographic -> replace old new X = X)
    by (intros old new Hold; now apply replace_clean).
  rewrite (Hrep 8216%N), (Hrep 8217%N), (Hrep 8220%N), (Hrep 8221%N),
    (Hrep 8211%N), (Hrep 8212%N), (Hrep 8230%N)
    by (unfold typographic; cbn [In]; tauto).
  rewrite filter_all; [exact Hstrip |].
  eapply Forall_impl; [| exact Hchars]. intros c Hc. unfold clean_char in Hc.
  apply andb_true_iff in Hc. destruct Hc as [Hc _].
  now apply andb_true_iff in Hc.
Qed.

Lemma sub_ws_runs_printable (b : bool) (s : pystr) :
  Forall (fun c => isspace c = false -> is_control c = false) s ->
  Forall (fun c => negb (is_control c) = true) (sub_ws_runs b s).
Proof.
  intros Hs. revert b. induction Hs as [| c s Hc Hs IH]; intros b;
    [constructor |].
  cbn [sub_ws_runs]. destruct (isspace c) eqn:Hsp.
  - destruct b; [apply IH |]. constructor; [reflexivity | apply IH].
  - constructor; [| apply IH]. now rewrite Hc.
Qed.

(** Cleaning a cleaned text changes nothing, provided the text holds no
    control character other than whitespace.  (A control character
    between two spaces is removed after the runs of whitespace were
    collapsed, and leaves two spaces behind, which a second cleaning
    collapses.) *)
Theorem clean_text_idempotent (T : pystr) :
  Forall (fun c => isspace c = false -> is_control c = false) T ->
  clean_text (clean_text T) = clean_text T.
Proof.
  intros HT. apply clean_text_fixed;
    [apply clean_text_chars | apply clean_text_strip |].
  unfold clean_text. destruct (truthy T); cbn [negb]; [| reflexivity].
  apply strip_single_spaced.
  rewrite filter_all.
  - repeat (apply replace_single_spaced;
            [reflexivity | discriminate | reflexivity |]).
    apply sub_ws_runs_single_spaced.
  - repeat (apply Forall_replace; [repeat constructor |]).
    eapply Forall_impl; [| apply sub_ws_runs_printable; exact HT].
    intros c Hc. cbv beta. intros. exact Hc.
Qed.

(** A control character between two spaces: the first cleaning leaves
    two spaces, the second one space. *)
Example clean_text_twice :
  clean_text (py "a " ++ 0%N :: py " b") = py "a  b"
  /\ clean_text (py "a  b") = py "a b".
Proof. split; vm_compute; reflexivity. Qed.

(** ** Word count *)

Lemma count_words_runs (text : pystr) :
  count_words text = count_runs false text.
Proof. destruct text; reflexivity. Qed.

Lemma count_runs_sep (in_word : bool) (a b : pystr) (c : char) :
  isword c = false ->
  count_runs in_word (a ++ c :: b)
  = count_runs in_word a + count_runs false b.
Proof.
  intros Hc. revert in_word. induction a as [| x a IH]; intro in_word.
  - cbn. now rewrite Hc.
  - cbn [app count_runs]. destruct (isword x); rewrite IH; lia.
Qed.

Lemma count_runs_all_word (in_word : bool) (w r : pystr) :
  forallb isword w = true ->
  count_runs in_word (w ++ r)
  = (if in_word then 0 else if truthy w then 1 else 0)
    + count_runs (in_word || truthy w) r.
Proof.
  revert in_word. induction w as [| x w IH]; intros in_word Hall.
  - cbn [app truthy]. rewrite orb_false_r. now destruct in_word.
  - cbn [forallb] in Hall. apply andb_true_iff in Hall.
    destruct Hall as [Hx Hall]. cbn [app count_runs truthy].
    rewrite Hx, (IH true Hall), orb_true_r. cbn [orb]. lia.
Qed.

Lemma count_runs_word (in_word : bool) (w r : pystr) :
  is_word w = true ->
  count_runs in_word (w ++ r)
  = (if in_word then 0 else 1) + count_runs true r.
Proof.
  unfold is_word. intros Hw. apply andb_true_iff in Hw.
  destruct Hw as [Hne Hall]. rewrite count_runs_all_word by exact Hall.
  rewrite Hne.
  now rewrite orb_true_r.
Qed.

(** Words counted on both sides of a character that is not a word
    character add up. *)
Theorem count_words_additive (a b : pystr) (c : char) :
  isword c = false ->
  count_words (a ++ c :: b) = count_words a + count_words b.
Proof.
  intros Hc. rewrite !count_words_runs. now apply count_runs_sep.
Qed.

(** Joining words with single spaces and counting gives their number
    back. *)
Theorem count_words_join (ws : list pystr) :
  Forall (fun w => is_word w = true) ws ->
  count_words (join (py " ") ws) = len ws.
Proof.
  intros Hws. rewrite count_words_runs. unfold len.
  induction Hws as [| w ws Hw Hws IH]; [reflexivity |].
  destruct ws as [| w' ws].
  - cbn [join length]. rewrite <- (app_nil_r w).
    rewrite count_runs_word by exact Hw. reflexivity.
  - change (join (py " ") (w :: w' :: ws))
      with (w ++ 32%N :: join (py " ") (w' :: ws)).
    rewrite count_runs_sep by reflexivity. rewrite IH.
    rewrite <- (app_nil_r w). rewrite count_runs_word by exact Hw.
    cbn [count_runs length]. lia.
Qed.

(** [estimate_reading_time] raises exactly for a text that is not empty
    read at zero words per minute; the empty text takes no time at any
    rate, zero included. *)
Theorem estimate_reading_time_raises (text : pystr) (wpm : Z) :
  ((exists e, estimate_reading_time text wpm = Raise e)
   <-> text <> [] /\ wpm = 0)
  /\ estimate_reading_time [] wpm = Ok 0%Q.
Proof.
  split; [| reflexivity].
  unfold estimate_reading_time. destruct text as [| c text]; cbn [truthy negb].
  - split; [intros [e He]; discriminate | intros [Hne _]; congruence].
  - destruct (Z.eqb_spec wpm 0) as [-> | Hne]; cbn.
    + split; [intros _; split; [discriminate | reflexivity] |].
      intros _. eexists. reflexivity.
    + split; [intros [e He]; discriminate | intros [_ Hw]; contradiction].
Qed.

End Facts.

Lemma chunks_not_empty_witness :
  @split_text_into_chunks ascii_only (py "Hello world. Bye.") 5 50 <> [].
Proof.
  apply (@chunks_not_empty ascii_only (py "Hello world. Bye.") 5 50);
    [discriminate | lia].
Defined.

Lemma clean_text_idempotent_witness :
  clean_text (clean_text (py "  Hello,   world ")) = clean_text (py "  Hello,   world ").
Proof.
  apply (@clean_text_idempotent (py "  Hello,   world ")).
  repeat (constructor; [intros _; reflexivity |]). constructor.
Defined.

Lemma count_words_additive_witness :
  @count_words ascii_only (py "don" ++ 39%N :: py "t")
  = @count_words ascii_only (py "don") + @count_words ascii_only (py "t").
Proof.
  apply (@count_words_additive ascii_only (py "don") (py "t") 39%N).
  reflexivity.
Defined.

Lemma count_words_join_witness :
  @count_words ascii_only (join (py " ") [py "one"; py "two_2"; py "3"])
  = len [py "one"; py "two_2"; py "3"].
Proof.
  apply (@count_words_join ascii_only [py "one"; py "two_2"; py "3"]).
  repeat constructor.
Defined.

End SegmenterFacts.

(* ===================================================================== *)
(** * Properties of the chapter lists *)
(* ===================================================================== *)

Module ChapterFacts.
Import Spec Shape Layout TextUtilsFacts.

Section Facts.
Context `{Unicode}.

(** ** Spans *)

Lemma range_by_spans (total size : Z) (n' : nat) :
  0 < size -> 0 <= total ->
  forall start : nat,
    (0 < n')%nat ->
    Z.of_nat (start + n') = (total + size - 1) / size ->
    let spans :=
      map (fun i => (i, Z.min (i + size - 1) (total - 1)))
          (map (fun k => Z.of_nat k * size) (seq start n')) in
    tiles (Z.of_nat start * size) (total - 1) spans
    /\ Forall (fun se => 0 <= fst se <= snd se /\ snd se < fst se + size
                          /\ snd se < total) spans.
Proof.
  intros Hsize Htotal.
  assert (Hdiv : size * ((total + size - 1) / size) <= total + size - 1
                 < size * ((total + size - 1) / size) + size).
  { pose proof (Z.div_mod (total + size - 1) size ltac:(lia)) as Hdm.
    pose proof (Z.mod_pos_bound (total + size - 1) size Hsize) as Hm.
    lia. }
  induction n' as [| n' IH]; intros start Hpos Hn; [lia |].
  cbn [seq map]. cbv zeta.
  destruct n' as [| n''].
  - cbn [seq map tiles]. rewrite <- Hn in Hdiv.
    replace (start + 1)%nat with (S start) in Hdiv by lia.
    rewrite Nat2Z.inj_succ in Hdiv.
    split; [split; [reflexivity | lia] |].
    constructor; [| constructor]. cbn [fst snd]. nia.
  - specialize (IH (S start) ltac:(lia) ltac:(rewrite <- Hn; f_equal; lia)).
    cbv zeta in IH. destruct IH as [IHt IHf].
    rewrite <- Hn in Hdiv.
    assert (Hk : (Z.of_nat start + 2) * size <= total + size - 1) by nia.
    split.
    + cbn [tiles]. split; [reflexivity |].
      replace (Z.min (Z.of_nat start * size + size - 1) (total - 1) + 1)
        with (Z.of_nat (S start) * size) by nia.
      exact IHt.
    + constructor; [cbn [fst snd]; nia | exact IHf].
Qed.

(** The default chapters of both processors: steps of [size] from 0. *)
Lemma default_spans_tile (total size : Z) :
  0 < size -> 0 <= total ->
  let spans :=
    map (fun i => (i, Z.min (i + size - 1) (total - 1)))
        (range_by total size) in
  tiles 0 (total - 1) spans
  /\ Forall (fun se => 0 <= fst se <= snd se /\ snd se < fst se + size
                        /\ snd se < total) spans.
Proof.
  intros Hsize Htotal. unfold range_by.
  destruct (Z.to_nat ((total + size - 1) / size)) as [| n] eqn:Hn.
  - cbn. split; [| constructor].
    assert (Hq : (total + size - 1) / size <= 0) by lia.
    pose proof (Z.div_mod (total + size - 1) size ltac:(lia)) as Hdm.
    pose proof (Z.mod_pos_bound (total + size - 1) size Hsize) as Hm.
    nia.
  - apply (@range_by_spans total size (S n) Hsize Htotal 0%nat); [lia |].
    rewrite <- Hn. cbn [Nat.add]. rewrite Z2Nat.id; [reflexivity |].
    apply Z.div_pos; lia.
Qed.

Lemma tiles_nth (lo hi : Z) (spans : list (Z * Z)) (k : nat)
    (a b : Z * Z) :
  tiles lo hi spans ->
  nth_error spans k = Some a -> nth_error spans (S k) = Some b ->
  fst b = snd a + 1.
Proof.
  revert lo k. induction spans as [| [s e] spans IH]; intros lo k Ht Ha Hb;
    [destruct k; discriminate |].
  cbn [tiles] in Ht. destruct Ht as [_ Ht].
  destruct k as [| k].
  - cbn in Ha, Hb. injection Ha as <-.
    destruct spans as [| [s' e'] spans]; [discriminate |].
    injection Hb as <-. cbn [tiles] in Ht. cbn. lia.
  - cbn [nth_error] in Ha, Hb. eapply IH; eassumption.
Qed.

(** ** Text files *)

Lemma len_nonneg {A} (l : list A) : 0 <= len l.
Proof. unfold len. lia. Qed.

(** A text file without marker lines but with at least one sentence: the
    default chapters divide the sentences among them, in order, without
    gap or overlap, none empty and none of more than a hundred. *)
Theorem text_default_chapters_tile (text : pystr) :
  split_into_sentences text <> [] ->
  let chs := TextProcessor.create_default_chapters text [] in
  let total := len (split_into_sentences text) in
  tiles 0 (total - 1) (map text_span chs)
  /\ Forall (fun c => TextProcessor.is_sentence_index c = true
                      /\ 0 <= TextProcessor.start_idx c
                           <= TextProcessor.end_idx c
                      /\ TextProcessor.end_idx c
                         < TextProcessor.start_idx c + 100
                      /\ TextProcessor.end_idx c < total) chs.
Proof.
  intros Hne chs total. subst chs. unfold TextProcessor.create_default_chapters.
  fold total.
  assert (Htotal : 0 < total).
  { unfold total, len. destruct (split_into_sentences text); [congruence |].
    cbn [length]. lia. }
  set (size := if total <=? 50 then total
               else if total <=? 200 then 50 else 100).
  assert (Hsize : 0 < size <= 100).
  { unfold size. destruct (Z.leb_spec total 50); [lia |].
    destruct (Z.leb_spec total 200); lia. }
  destruct (Z.eqb_spec size 0) as [H0 | _]; [lia |].
  cbn [app].
  destruct (@default_spans_tile total size) as [Ht Hf]; [lia | lia |].
  cbv zeta in Ht, Hf. rewrite map_map in *. cbn [text_span] in *.
  split.
  - unfold text_span. cbn [TextProcessor.start_idx TextProcessor.end_idx].
    exact Ht.
  - rewrite Forall_map in *. cbn [TextProcessor.is_sentence_index
      TextProcessor.start_idx TextProcessor.end_idx].
    eapply Forall_impl; [| exact Hf]. cbn [fst snd]. intros i Hi.
    split; [reflexivity | lia].
Qed.

Lemma marker_chapters_starts (lines : list pystr) (idxs : list Z) :
  map TextProcessor.start_idx (TextProcessor.marker_chapters lines idxs) = idxs.
Proof.
  induction idxs as [| i idxs IH]; [reflexivity |].
  cbn [TextProcessor.marker_chapters map TextProcessor.start_idx].
  now rewrite IH.
Qed.

Lemma marker_chapters_tile (lines : list pystr) (first : Z) (rest : list Z) :
  tiles first (len lines - 1)
    (map text_span (TextProcessor.marker_chapters lines (first :: rest))).
Proof.
  revert first. induction rest as [| next rest IH]; intros first.
  - cbn. split; reflexivity.
  - cbn [TextProcessor.marker_chapters map text_span tiles
         TextProcessor.start_idx TextProcessor.end_idx].
    split; [reflexivity |].
    replace (next - 1 + 1) with next by lia. apply IH.
Qed.

Lemma marker_chapters_bounds (lines : list pystr) (idxs : list Z) :
  StronglySorted Z.lt idxs ->
  Forall (fun i => 0 <= i < len lines) idxs ->
  Forall (fun c => 0 <= TextProcessor.start_idx c <= TextProcessor.end_idx c
                   /\ TextProcessor.end_idx c < len lines
                   /\ TextProcessor.is_sentence_index c = false
                   /\ TextProcessor.is_full_text c = false
                   /\ TextProcessor.title c
                      = strip (nth (Z.to_nat (TextProcessor.start_idx c))
                                   lines []))
         (TextProcessor.marker_chapters lines idxs).
Proof.
  intros Hs Hb. induction Hs as [| i idxs Hs IH Hi]; [constructor |].
  inversion Hb as [| ? ? Hbi Hbr]; subst.
  cbn [TextProcessor.marker_chapters]. constructor; [| now apply IH].
  cbn [TextProcessor.start_idx TextProcessor.end_idx
       TextProcessor.is_sentence_index TextProcessor.is_full_text
       TextProcessor.title].
  repeat split; try lia.
  - destruct idxs as [| next idxs]; [lia |].
    apply Forall_inv in Hi. lia.
  - destruct idxs as [| next idxs]; [lia |].
    apply Forall_inv in Hbr. lia.
Qed.

Lemma filtered_indices_sorted {A} (f : Z * A -> bool) (l : list A)
    (start : nat) :
  let idxs :=
    map fst (filter f (combine (map Z.of_nat (seq start (length l))) l)) in
  StronglySorted Z.lt idxs
  /\ Forall (fun i => Z.of_nat start <= i < Z.of_nat (start + length l)) idxs.
Proof.
  revert start. induction l as [| a l IH]; intros start; cbn zeta.
  - cbn. split; constructor.
  - cbn [length seq map combine filter].
    destruct (IH (S start)) as [IHs IHb]. cbn zeta in IHs, IHb.
    assert (Hb' : Forall (fun i => Z.of_nat start <= i
                                   < Z.of_nat (start + S (length l)))
                    (map fst (filter f (combine
                       (map Z.of_nat (seq (S start) (length l))) l)))).
    { eapply Forall_impl; [| exact IHb]. cbn beta. intros i Hi. lia. }
    destruct (f (Z.of_nat start, a)); [| now split].
    cbn [map fst]. split.
    + constructor; [exact IHs |].
      eapply Forall_impl; [| exact IHb]. cbn beta. intros i Hi. lia.
    + constructor; [lia | exact Hb'].
Qed.

Lemma marker_lines_sorted (text : pystr) :
  StronglySorted Z.lt (marker_lines text)
  /\ Forall (fun i => 0 <= i < len (split_on 10%N text)) (marker_lines text).
Proof.
  unfold marker_lines, enumerate.
  destruct (@filtered_indices_sorted pystr
              (fun il => TextProcessor.is_chapter_line (snd il))
              (split_on 10%N text) 0) as [Hs Hb].
  cbn zeta in Hs, Hb. split; [exact Hs |].
  eapply Forall_impl; [| exact Hb]. cbn beta. unfold len. intros i Hi. lia.
Qed.

(** A text file with marker lines: there is one chapter for each marker
    line, in order, titled by the trimmed line; the chapters divide the
    lines from the first marker line to the end of the file among them
    without gap or overlap, none empty.  What precedes the first marker
    line is in no chapter. *)
Theorem text_marker_chapters_tile (text : pystr) (first : Z) (rest : list Z) :
  marker_lines text = first :: rest ->
  let lines := split_on 10%N text in
  let chs := TextProcessor.chapters (TextProcessor.init text) in
  map TextProcessor.start_idx chs = first :: rest
  /\ tiles first (len lines - 1) (map text_span chs)
  /\ Forall (fun c => 0 <= TextProcessor.start_idx c <= TextProcessor.end_idx c
                      /\ TextProcessor.end_idx c < len lines
                      /\ TextProcessor.is_sentence_index c = false
                      /\ TextProcessor.is_full_text c = false
                      /\ TextProcessor.title c
                         = strip (nth (Z.to_nat (TextProcessor.start_idx c))
                                      lines []))
            chs.
Proof.
  intros Hm lines chs. subst chs.
  cbn [TextProcessor.init TextProcessor.chapters].
  unfold TextProcessor.extract_chapters. fold (marker_lines text).
  fold lines. destruct (marker_lines_sorted text) as [Hs Hb].
  rewrite Hm in *. cbn [truthy negb].
  split; [apply marker_chapters_starts |].
  split; [apply marker_chapters_tile |].
  now apply marker_chapters_bounds.
Qed.

(** A text file always has at least one chapter, the empty file
    included. *)
Theorem text_chapters_not_empty (text : pystr) :
  TextProcessor.chapters (TextProcessor.init text) <> [].
Proof.
  cbn [TextProcessor.init TextProcessor.chapters].
  unfold TextProcessor.extract_chapters.
  destruct (map fst _) as [| i idxs]; cbn [truthy negb]; [| discriminate].
  unfold TextProcessor.create_default_chapters.
  set (total := len (split_into_sentences text)).
  set (size := if total <=? 50 then total
               else if total <=? 200 then 50 else 100).
  destruct (Z.eqb_spec size 0) as [H0 | Hn0]; [discriminate |].
  assert (Htotal : 0 < total).
  { pose proof (len_nonneg (split_into_sentences text)). fold total in H0.
    unfold size in Hn0. destruct (Z.leb_spec total 50); lia. }
  assert (Hsize : 0 < size).
  { unfold size. destruct (Z.leb_spec total 50); [lia |].
    destruct (Z.leb_spec total 200); lia. }
  cbn [app]. unfold range_by.
  assert (Hq : 0 < (total + size - 1) / size).
  { apply Z.div_str_pos. lia. }
  destruct (Z.to_nat ((total + size - 1) / size)) eqn:Hn; [lia |].
  discriminate.
Qed.

(** ** PDF files *)

Lemma last_end_ok_snoc (n : Z) (chs : list PDFProcessor.chapter)
    (c : PDFProcessor.chapter) :
  PDFProcessor.page_end c = None \/ PDFProcessor.page_end c = Some (n - 1) ->
  last_end_ok n (chs ++ [c]).
Proof.
  intros Hc. induction chs as [| a chs IH]; [exact Hc |].
  cbn [app]. destruct (chs ++ [c]) eqn:Heq; [| exact IH].
  destruct chs; discriminate.
Qed.

(** What the two closing loops of [_process_outline] leave: every chapter
    has its last page; the pages of the chapters follow one another from
    the first chapter's first page to the last page of the document. *)
Lemma close_tiles (n : Z) (chs : list PDFProcessor.chapter) :
  last_end_ok n chs ->
  let closed := PDFProcessor.set_last_page_end n
                  (PDFProcessor.set_page_ends chs) in
  last_end_ok n closed
  /\ map PDFProcessor.page_start closed = map PDFProcessor.page_start chs
  /\ map PDFProcessor.title closed = map PDFProcessor.title chs
  /\ exists spans,
       map pdf_span closed = map Some spans
       /\ match chs with
          | [] => spans = []
          | c :: _ => tiles (PDFProcessor.page_start c) (n - 1) spans
          end.
Proof.
  cbn zeta. induction chs as [| c chs IH]; intros Hok.
  - cbn. repeat split; try reflexivity. now exists [].
  - destruct chs as [| next rest].
    + cbn [PDFProcessor.set_page_ends PDFProcessor.set_last_page_end].
      cbn [last_end_ok] in Hok.
      destruct (PDFProcessor.page_end c) as [e |] eqn:He.
      * destruct Hok as [Hok | Hok]; [discriminate |]. injection Hok as ->.
        repeat split; try reflexivity; [now right |].
        exists [(PDFProcessor.page_start c, n - 1)]. split.
        -- cbn. unfold pdf_span. now rewrite He.
        -- cbn. split; reflexivity.
      * repeat split; try reflexivity; [now right |].
        exists [(PDFProcessor.page_start c, n - 1)]. split.
        -- reflexivity.
        -- cbn. split; reflexivity.
    + specialize (IH Hok).
      destruct IH as (IHok & IHstart & IHtitle & spans & IHspans & IHt).
      change (PDFProcessor.set_page_ends (c :: next :: rest))
        with (PDFProcessor.with_page_end c (PDFProcessor.page_start next - 1)
              :: PDFProcessor.set_page_ends (next :: rest)).
      assert (Hne : PDFProcessor.set_page_ends (next :: rest) <> []).
      { destruct rest; discriminate. }
      destruct (PDFProcessor.set_page_ends (next :: rest)) as [| x xs] eqn:Hx;
        [congruence |].
      change (PDFProcessor.set_last_page_end n
                (PDFProcessor.with_page_end c (PDFProcessor.page_start next - 1)
                 :: x :: xs))
        with (PDFProcessor.with_page_end c (PDFProcessor.page_start next - 1)
              :: PDFProcessor.set_last_page_end n (x :: xs)).
      assert (Hne' : PDFProcessor.set_last_page_end n (x :: xs) <> []).
      { destruct xs; cbn; [destruct (PDFProcessor.page_end x) |]; discriminate. }
      repeat split.
      * cbn [last_end_ok].
        destruct (PDFProcessor.set_last_page_end n (x :: xs)); [congruence |].
        exact IHok.
      * cbn [map]. now rewrite IHstart.
      * cbn [map]. now rewrite IHtitle.
      * exists ((PDFProcessor.page_start c, PDFProcessor.page_start next - 1)
                :: spans).
        split; [cbn [map]; now rewrite IHspans |].
        cbn [tiles]. split; [reflexivity |].
        now replace (PDFProcessor.page_start next - 1 + 1)
          with (PDFProcessor.page_start next) by lia.
Qed.

Lemma process_item_last_end_ok (n : Z) :
  forall (item : PDFProcessor.outline_item) (lvl : Z)
         (chs : list PDFProcessor.chapter),
    last_end_ok n chs ->
    last_end_ok n (PDFProcessor.process_item n lvl chs item).
Proof.
  fix IH 1. intros item lvl chs Hok. destruct item as [pn ot | items |].
  - cbn. apply last_end_ok_snoc. now left.
  - destruct items as [| parent [| children [| extra items]]]; try exact Hok.
    cbn [PDFProcessor.process_item].
    assert (Hparent :
      last_end_ok n
        match parent with
        | PDFProcessor.ODict pn ot =>
            chs ++ [PDFProcessor.outline_chapter chs pn ot lvl]
        | _ => chs
        end).
    { destruct parent; try exact Hok. apply last_end_ok_snoc. now left. }
    revert Hparent. generalize (match parent with
        | PDFProcessor.ODict pn ot =>
            chs ++ [PDFProcessor.outline_chapter chs pn ot lvl]
        | _ => chs
        end). intros chs' Hok'.
    destruct children as [| cs |]; try exact Hok'.
    apply close_tiles. revert chs' Hok'.
    induction cs as [| c cs IHcs]; intros chs' Hok'; [exact Hok' |].
    cbn [fold_left]. apply IHcs. apply IH. exact Hok'.
  - exact Hok.
Qed.

Lemma fold_process_item_last_end_ok (n lvl : Z)
    (outline : list PDFProcessor.outline_item)
    (chs : list PDFProcessor.chapter) :
  last_end_ok n chs ->
  last_end_ok n (fold_left (PDFProcessor.process_item n lvl) outline chs).
Proof.
  revert chs. induction outline as [| item outline IH]; intros chs Hok;
    [exact Hok |].
  cbn [fold_left]. apply IH. now apply process_item_last_end_ok.
Qed.

Lemma pdf_outline_spans (pages : list PDFProcessor.page)
    (outline : list PDFProcessor.outline_item) :
  outline <> [] ->
  let chs := PDFProcessor.extract_chapters pages (Ok outline) in
  exists spans,
    map pdf_span chs = map Some spans
    /\ match chs with
       | [] => spans = []
       | c :: _ => tiles (PDFProcessor.page_start c) (len pages - 1) spans
       end.
Proof.
  intros Hne. cbn zeta. unfold PDFProcessor.extract_chapters.
  rewrite (truthy_true_cons Hne). unfold PDFProcessor.process_outline.
  pose proof (@fold_process_item_last_end_ok (len pages) 0 outline []
                I) as Hok.
  destruct (close_tiles _ _ Hok) as (_ & Hstart & _ & spans & Hspans & Ht).
  cbn zeta in *. exists spans. split; [exact Hspans |].
  destruct (fold_left _ outline []) as [| c chs] eqn:Hfold.
  - cbn. exact Ht.
  - destruct (PDFProcessor.set_last_page_end _ _) as [| c' chs'] eqn:Hc;
      [discriminate |].
    cbn [map] in Hstart. injection Hstart as Hs _. now rewrite Hs.
Qed.

(** A PDF with an outline: every chapter has a last page, so that reading
    it never fails on a missing [page_end]; the pages of the chapters
    follow one another, each chapter ending on the page before the next
    one starts, from the first chapter's first page to the last page of
    the document. *)
Theorem pdf_outline_chapters_tile (pages : list PDFProcessor.page)
    (outline : list PDFProcessor.outline_item) :
  outline <> [] ->
  let chs := PDFProcessor.chapters (PDFProcessor.init pages (Ok outline)) in
  exists spans,
    map pdf_span chs = map Some spans
    /\ match chs with
       | [] => spans = []
       | c :: _ => tiles (PDFProcessor.page_start c) (len pages - 1) spans
       end.
Proof. apply pdf_outline_spans. Qed.

(** A PDF without a usable outline: the default chapters divide the pages
    among them, in order, without gap or overlap, none empty and none of
    more than ten pages. *)
Theorem pdf_default_chapters_tile (pages : list PDFProcessor.page)
    (outline : result (list PDFProcessor.outline_item)) :
  outline = Ok [] \/ (exists e, outline = Raise e) ->
  let chs := PDFProcessor.chapters (PDFProcessor.init pages outline) in
  exists spans,
    map pdf_span chs = map Some spans
    /\ tiles 0 (len pages - 1) spans
    /\ Forall (fun se => 0 <= fst se <= snd se /\ snd se < fst se + 10
                          /\ snd se < len pages) spans.
Proof.
  intros Ho. cbn zeta.
  assert (Hchs : PDFProcessor.chapters (PDFProcessor.init pages outline)
                 = PDFProcessor.create_default_chapters (len pages) []).
  { destruct Ho as [-> | [e ->]]; reflexivity. }
  rewrite Hchs. unfold PDFProcessor.create_default_chapters. cbn [app].
  set (total := len pages).
  set (size := if total <=? 10 then 1 else if total <=? 50 then 5 else 10).
  assert (Hsize : 0 < size <= 10).
  { unfold size. destruct (total <=? 10); [lia |].
    destruct (total <=? 50); lia. }
  destruct (@default_spans_tile total size) as [Ht Hf];
    [lia | apply len_nonneg |].
  cbn zeta in Ht, Hf.
  exists (map (fun i => (i, Z.min (i + size - 1) (total - 1)))
              (range_by total size)).
  split; [now rewrite !map_map | split; [exact Ht |]].
  eapply Forall_impl; [| exact Hf]. cbn beta. intros se Hse. lia.
Qed.

Lemma getitem_nth {A} (l : list A) (k : nat) (a : A) :
  nth_error l k = Some a -> getitem l (Z.of_nat k) = Ok a.
Proof.
  intros Hk. unfold getitem.
  destruct (Z.ltb_spec (Z.of_nat k) 0) as [Hneg | _]; [lia |].
  destruct (Z.ltb_spec (Z.of_nat k) 0) as [Hneg | _]; [lia |].
  now rewrite Nat2Z.id, Hk.
Qed.

Lemma nth_error_in_range {A} (l : list A) (k : nat) (a : A) :
  nth_error l k = Some a -> 0 <= Z.of_nat k < len l.
Proof.
  intros Hk. assert (Hlt : (k < length l)%nat).
  { apply nth_error_Some. congruence. }
  unfold len. lia.
Qed.

(** A chapter whose last page comes before its first page has the empty
    text. *)
Lemma pdf_empty_span_text (p : PDFProcessor.t) (k : nat)
    (c : PDFProcessor.chapter) (e : Z) :
  nth_error (PDFProcessor.chapters p) k = Some c ->
  PDFProcessor.page_end c = Some e ->
  e < PDFProcessor.page_start c ->
  PDFProcessor.get_chapter_text p (Z.of_nat k) = Ok [].
Proof.
  intros Hk He Hlt. unfold PDFProcessor.get_chapter_text.
  rewrite ExtractorFacts.in_range_test by (eapply nth_error_in_range; eassumption).
  rewrite getitem_nth with (a := c) by exact Hk. cbn [bind]. rewrite He. cbn [bind].
  unfold PDFProcessor.range_from.
  replace (Z.to_nat (e + 1 - PDFProcessor.page_start c)) with 0%nat by lia.
  reflexivity.
Qed.

(** In a PDF with an outline, a chapter that is followed by a chapter
    starting on the same page, or on an earlier one, has the empty text:
    its pages end before they start, and the text of the shared page goes
    to the chapter that follows. *)
Theorem pdf_chapter_sharing_a_page_is_empty (pages : list PDFProcessor.page)
    (outline : list PDFProcessor.outline_item) (k : nat)
    (c c' : PDFProcessor.chapter) :
  outline <> [] ->
  let p := PDFProcessor.init pages (Ok outline) in
  nth_error (PDFProcessor.chapters p) k = Some c ->
  nth_error (PDFProcessor.chapters p) (S k) = Some c' ->
  PDFProcessor.page_start c' <= PDFProcessor.page_start c ->
  PDFProcessor.page_end c = Some (PDFProcessor.page_start c' - 1)
  /\ PDFProcessor.get_chapter_text p (Z.of_nat k) = Ok [].
Proof.
  intros Hne p Hk Hk' Hle.
  destruct (@pdf_outline_spans pages outline Hne) as (spans & Hspans & Ht).
  cbn zeta in Hspans, Ht.
  change (PDFProcessor.extract_chapters pages (Ok outline))
    with (PDFProcessor.chapters p) in Hspans, Ht.
  assert (Ha : nth_error (map pdf_span (PDFProcessor.chapters p)) k
               = Some (pdf_span c)) by now rewrite nth_error_map, Hk.
  assert (Hb : nth_error (map pdf_span (PDFProcessor.chapters p)) (S k)
               = Some (pdf_span c')) by now rewrite nth_error_map, Hk'.
  rewrite Hspans, nth_error_map in Ha, Hb.
  destruct (nth_error spans k) as [a |] eqn:Hsa; [| discriminate].
  destruct (nth_error spans (S k)) as [b |] eqn:Hsb; [| discriminate].
  cbn [option_map] in Ha, Hb. injection Ha as Ha. injection Hb as Hb.
  destruct (PDFProcessor.chapters p) as [| c0 chs] eqn:Hchs;
    [destruct k; discriminate |].
  assert (Hnext : fst b = snd a + 1) by (eapply tiles_nth; eassumption).
  unfold pdf_span in Ha, Hb.
  destruct (PDFProcessor.page_end c) as [e |] eqn:He; [| discriminate].
  destruct (PDFProcessor.page_end c') as [e' |]; [| discriminate].
  cbn [option_map] in Ha, Hb. injection Ha as Ha. injection Hb as Hb.
  subst a b. cbn [fst snd] in Hnext.
  assert (Hend : e = PDFProcessor.page_start c' - 1) by lia.
  split; [now rewrite Hend |].
  rewrite <- Hchs in Hk. apply pdf_empty_span_text with (c := c) (e := e); [exact Hk | exact He | lia].
Qed.

End Facts.

Section Concrete.
#[local] Existing Instance ascii_only.

Lemma text_default_chapters_tile_witness :
  let chs := TextProcessor.create_default_chapters Demo.sixty_sentences [] in
  let total := len (split_into_sentences Demo.sixty_sentences) in
  tiles 0 (total - 1) (map text_span chs)
  /\ Forall (fun c => TextProcessor.is_sentence_index c = true
                      /\ 0 <= TextProcessor.start_idx c
                           <= TextProcessor.end_idx c
                      /\ TextProcessor.end_idx c
                         < TextProcessor.start_idx c + 100
                      /\ TextProcessor.end_idx c < total) chs.
Proof.
  apply (@text_default_chapters_tile ascii_only Demo.sixty_sentences).
  vm_compute. discriminate.
Defined.

Lemma text_marker_chapters_tile_witness :
  let text := TextProcessor.text Demo.three_chapter_txt in
  let lines := split_on 10%N text in
  let chs := TextProcessor.chapters (TextProcessor.init text) in
  map TextProcessor.start_idx chs = [0; 2; 4]
  /\ tiles 0 (len lines - 1) (map text_span chs)
  /\ Forall (fun c => 0 <= TextProcessor.start_idx c <= TextProcessor.end_idx c
                      /\ TextProcessor.end_idx c < len lines
                      /\ TextProcessor.is_sentence_index c = false
                      /\ TextProcessor.is_full_text c = false
                      /\ TextProcessor.title c
                         = strip (nth (Z.to_nat (TextProcessor.start_idx c))
                                      lines []))
            chs.
Proof.
  apply (@text_marker_chapters_tile ascii_only
           (TextProcessor.text Demo.three_chapter_txt) 0 [2; 4]).
  vm_compute. reflexivity.
Defined.

Lemma pdf_outline_chapters_tile_witness :
  let chs := PDFProcessor.chapters
               (PDFProcessor.init [Ok (py "A."); Ok (py "B."); Ok (py "C.")]
                  (Ok [PDFProcessor.ODict (Some 0) (Some (py "One"));
                       PDFProcessor.ODict (Some 2) (Some (py "Two"))])) in
  exists spans,
    map pdf_span chs = map Some spans
    /\ match chs with
       | [] => spans = []
       | c :: _ => tiles (PDFProcessor.page_start c) (3 - 1) spans
       end.
Proof.
  apply (@pdf_outline_chapters_tile
           [Ok (py "A."); Ok (py "B."); Ok (py "C.")]
           [PDFProcessor.ODict (Some 0) (Some (py "One"));
            PDFProcessor.ODict (Some 2) (Some (py "Two"))]).
  discriminate.
Defined.

Lemma pdf_default_chapters_tile_witness :
  let chs := PDFProcessor.chapters Demo.two_page_pdf in
  exists spans,
    map pdf_span chs = map Some spans
    /\ tiles 0 (2 - 1) spans
    /\ Forall (fun se => 0 <= fst se <= snd se /\ snd se < fst se + 10
                          /\ snd se < 2) spans.
Proof.
  apply (@pdf_default_chapters_tile [Ok (py "A."); Ok (py "B.")] (Ok [])).
  now left.
Defined.

Lemma pdf_chapter_sharing_a_page_is_empty_witness :
  let pages : list PDFProcessor.page := [Ok (py "A."); Ok (py "B.")] in
  let outline := [PDFProcessor.ODict (Some 0) (Some (py "Part I"));
                  PDFProcessor.ODict (Some 0) (Some (py "Chapter 1"))] in
  let p := PDFProcessor.init pages (Ok outline) in
  let c := {| PDFProcessor.title := py "Part I"; PDFProcessor.page_start := 0;
              PDFProcessor.page_end := Some (-1); PDFProcessor.level := 0 |} in
  PDFProcessor.page_end c = Some (0 - 1)
  /\ PDFProcessor.get_chapter_text p (Z.of_nat 0) = Ok [].
Proof.
  apply (@pdf_chapter_sharing_a_page_is_empty
           [Ok (py "A."); Ok (py "B.")]
           [PDFProcessor.ODict (Some 0) (Some (py "Part I"));
            PDFProcessor.ODict (Some 0) (Some (py "Chapter 1"))]
           0%nat
           {| PDFProcessor.title := py "Part I"; PDFProcessor.page_start := 0;
              PDFProcessor.page_end := Some (-1); PDFProcessor.level := 0 |}
           {| PDFProcessor.title := py "Chapter 1";
              PDFProcessor.page_start := 0;
              PDFProcessor.page_end := Some 1; PDFProcessor.level := 0 |}).
  - discriminate.
  - reflexivity.
  - reflexivity.
  - cbn. lia.
Defined.

End Concrete.
End ChapterFacts.

(* ===================================================================== *)
(** * Further properties of the conversion orchestrator *)
(* ===================================================================== *)

Module OrchestratorFacts.
Import BookConverter Spec Run Samples ConverterFacts.
Local Open Scope conv_scope.

Section Facts.
Context `{Unicode}.
Variable ebook : ebook_api.
Variable w : world.
Variable cfg : config.

Local Abbreviation chapter_output := (Spec.chapter_output cfg).
Local Abbreviation fragment_path := (Spec.fragment_path cfg).
Local Abbreviation synthesized := (Spec.synthesized w cfg).
Local Abbreviation submitted := (Spec.submitted w cfg).

(** ** The loop over the chapters *)

Lemma status_ok (sc : bool) (msg : pystr) : fst (status sc msg) = Ok tt.
Proof. destruct sc; reflexivity. Qed.

Lemma convert_chapters_outcome (pc sc : bool) (n : Z) (idxs : list Z) :
  forall chapter_files,
    fst (convert_chapters ebook w cfg pc sc n idxs chapter_files)
    = gather (fun i => fst (convert_chapter ebook w cfg i None
                              (book_callback pc i n)))
             idxs chapter_files.
Proof.
  induction idxs as [| i rest IH]; intros files; [reflexivity |].
  cbn [convert_chapters gather]. fold (book_callback pc i n).
  rewrite fst_bindM, status_ok, fst_bindM.
  destruct (fst (convert_chapter ebook w cfg i None (book_callback pc i n)));
    [apply IH | reflexivity].
Qed.

Lemma gather_all_ok (outcome : Z -> result (option pystr))
    (r : Z -> option pystr) (idxs : list Z) :
  (forall i, In i idxs -> outcome i = Ok (r i)) ->
  forall files, gather outcome idxs files = Ok (files ++ picked r idxs).
Proof.
  induction idxs as [| i rest IH]; intros Hok files.
  - cbn. now rewrite app_nil_r.
  - cbn [gather picked flat_map]. rewrite (Hok i (or_introl eq_refl)).
    rewrite IH by (intros j Hj; apply Hok; now right).
    unfold picked. destruct (r i); cbn [app]; [| reflexivity].
    now rewrite <- app_assoc.
Qed.

Lemma gather_first_raise (outcome : Z -> result (option pystr))
    (before after : list Z) (j : Z) (e : exn) :
  (forall i, In i before -> exists v, outcome i = Ok v) ->
  outcome j = Raise e ->
  forall files, gather outcome (before ++ j :: after) files = Raise e.
Proof.
  intros Hbefore Hj. induction before as [| i before IH]; intros files.
  - cbn. now rewrite Hj.
  - cbn [app gather]. destruct (Hbefore i (or_introl eq_refl)) as [v ->].
    apply IH. intros k Hk. apply Hbefore. now right.
Qed.

Lemma enumerate_indices {A} (l : list A) (i : Z) :
  In i (map fst (enumerate l)) <-> 0 <= i < len l.
Proof.
  rewrite map_fst_enumerate, in_map_iff. unfold len. split.
  - intros (k & <- & Hk). apply in_seq in Hk. lia.
  - intros Hi. exists (Z.to_nat i). split; [lia |]. apply in_seq. lia.
Qed.

(** [convert_book] once the loop over the chapters is through. *)
Lemma convert_book_after_loop (output_file tmp : pystr) (pc sc : bool)
    (chapters : list Ebook.chapter_obj) :
  working_dir w cfg None = Ok tmp ->
  make_output_dir w output_file = Ok tt ->
  get_chapters ebook = Ok chapters ->
  chapters <> [] ->
  convert_book ebook w cfg output_file pc sc
  = try_exceptM
      (chapter_files <~
         convert_chapters ebook w cfg pc sc (len chapters)
           (map fst (enumerate chapters)) [] ;;
       if truthy chapter_files then
         status sc (py "Combining audio files...") ;;;
         combine_audio_files w chapter_files output_file
           (output_format cfg) (bitrate cfg) ;;;
         (if negb (keep_temp_files cfg) then unlink_all w chapter_files
          else ret tt) ;;;
         (if negb (keep_temp_files cfg)
             && match temp_dir cfg with None => true | Some _ => false end
          then remove (Rmdir tmp) (rmdir w tmp) else ret tt) ;;;
         status sc (py "Book converted to " ++ output_file) ;;;
         ret (Some output_file)
       else
         status sc (py "No audio chapters generated") ;;;
         ret None)
      (fun e =>
         status sc (py "Error: " ++ str_of_exn e) ;;;
         raise (ConversionError (py "Error converting book: "
                                 ++ str_of_exn e))).
Proof.
  intros Hdir Hmk Hch Hne. unfold convert_book.
  rewrite Hdir, bindM_lift_ok, Hmk, bindM_lift_ok, Hch, bindM_lift_ok.
  rewrite (TextUtilsFacts.truthy_true_cons Hne). reflexivity.
Qed.

Lemma fst_try_status_raise {A} (m : M A) (sc : bool) (f g : exn -> pystr) :
  fst (try_exceptM m (fun e => status sc (f e) ;;;
                               raise (ConversionError (g e))))
  = match fst m with
    | Ok a => Ok a
    | Raise e => Raise (ConversionError (g e))
    end.
Proof. destruct m as [[a | e] t]; [reflexivity |]. destruct sc; reflexivity. Qed.

Lemma combined_lists_try_status_raise {A} (m : M A) (sc : bool)
    (f g : exn -> pystr) :
  combined_lists
    (snd (try_exceptM m (fun e => status sc (f e) ;;;
                                  raise (ConversionError (g e)))))
  = combined_lists (snd m).
Proof.
  destruct m as [[a | e] t]; [reflexivity |].
  destruct sc; cbn; rewrite combined_lists_app; cbn; now rewrite app_nil_r.
Qed.

Lemma combined_lists_status (sc : bool) (msg : pystr) :
  combined_lists (snd (status sc msg)) = [].
Proof. destruct sc; reflexivity. Qed.

(** The chapter files reach [combine_audio_files] in chapter order.  When
    no chapter raises, the last call of [combine_audio_files] of the run
    is the one for the book: it is handed the files of the chapters that
    gave one, in the order of the chapters, however long each chapter
    took; with a working FFmpeg [convert_book] returns the output file,
    and it raises only if the combination fails.  When no chapter gave a
    file, nothing is combined for the book and [None] is returned. *)
Theorem convert_book_chapter_order (output_file tmp : pystr) (pc sc : bool)
    (chapters : list Ebook.chapter_obj) (r : Z -> option pystr) :
  working_dir w cfg None = Ok tmp ->
  make_output_dir w output_file = Ok tt ->
  get_chapters ebook = Ok chapters ->
  chapters <> [] ->
  (forall i, 0 <= i < len chapters ->
             fst (convert_chapter ebook w cfg i None
                    (book_callback pc i (len chapters))) = Ok (r i)) ->
  let files := picked r (map fst (enumerate chapters)) in
  let concat :=
    ffmpeg_concat w files output_file (output_format cfg) (bitrate cfg) in
  let run := convert_book ebook w cfg output_file pc sc in
  (files = [] -> fst run = Ok None)
  /\ (files <> [] ->
      (exists earlier, combined_lists (snd run) = earlier ++ [files])
      /\ (ffmpeg_installed w = true ->
          fst concat = Ok true ->
          fst run = Ok (Some output_file))
      /\ (forall e, fst run = Raise e ->
          ffmpeg_installed w = false
          \/ exists e', fst concat = Raise e')).
Proof.
  intros Hdir Hmk Hch Hne Hok files concat run. subst run.
  rewrite (@convert_book_after_loop output_file tmp pc sc chapters Hdir Hmk Hch Hne).
  rewrite fst_try_status_raise, combined_lists_try_status_raise.
  rewrite fst_bindM, snd_bindM, convert_chapters_outcome.
  rewrite (@gather_all_ok _ r)
    by (intros i Hi; apply Hok; now apply enumerate_indices).
  cbn [app]. fold files. rewrite combined_lists_app.
  split.
  - intros ->. cbn [truthy]. now rewrite fst_bindM, status_ok.
  - intros Hfiles. rewrite (TextUtilsFacts.truthy_true_cons Hfiles).
    rewrite !fst_bindM, !snd_bindM, !status_ok, !combined_lists_app,
      !combined_lists_status.
    rewrite (combined_lists_combine_audio_files w output_file
               (output_format cfg) (bitrate cfg) Hfiles).
    rewrite (combine_audio_files_outcome w output_file (output_format cfg)
               (bitrate cfg) Hfiles).
    cbn [fst snd app]. fold concat.
    destruct (ffmpeg_installed w).
    + destruct (fst concat) as [b | e'].
      * destruct (combined_lists_unlink_all w files) as (Hun1 & Hun2 & _).
        destruct (keep_temp_files cfg); cbn [negb andb].
        -- destruct sc; cbn; (split; [| split]);
             try (eexists; reflexivity); try reflexivity;
             intros e He; discriminate.
        -- rewrite Hun1, !combined_lists_app, Hun2.
           destruct sc; destruct (temp_dir cfg);
             rewrite ?remove_outcome; cbn; (split; [| split]);
             try (eexists; reflexivity); try reflexivity;
             intros e He; discriminate.
      * cbn. split; [| split].
        -- eexists. reflexivity.
        -- intros _ Habs. discriminate.
        -- intros e _. right. now exists e'.
    + cbn. split; [| split].
      * eexists. reflexivity.
      * intros Habs. discriminate.
      * intros e _. now left.
Qed.

Lemma seq_split (n j : nat) :
  (j < n)%nat -> seq 0 n = seq 0 j ++ j :: seq (S j) (n - S j).
Proof.
  intros Hj. replace n with (j + S (n - S j))%nat at 1 by lia.
  rewrite seq_app. reflexivity.
Qed.

(** One failing chapter aborts the book.  When the text of chapter [j]
    cannot be retrieved (and the chapters before it were converted),
    [convert_book] raises [ConversionError]; the message names the
    chapter and carries the cause; the status callback is told the
    error. *)
Theorem convert_book_aborts_on_failing_chapter (output_file tmp : pystr)
    (pc sc : bool) (chapters : list Ebook.chapter_obj) (j : Z) (cause : exn) :
  working_dir w cfg None = Ok tmp ->
  make_output_dir w output_file = Ok tt ->
  get_chapters ebook = Ok chapters ->
  0 <= j < len chapters ->
  (forall i, 0 <= i < j ->
             exists v, fst (convert_chapter ebook w cfg i None
                              (book_callback pc i (len chapters))) = Ok v) ->
  get_chapter_text ebook j = Raise cause ->
  let msg := py "Error converting chapter " ++ str_of_Z j ++ py ": "
             ++ str_of_exn cause in
  let run := convert_book ebook w cfg output_file pc sc in
  fst run = Raise (ConversionError (py "Error converting book: " ++ msg))
  /\ (sc = true ->
      exists t, snd run = t ++ [Status (py "Error: " ++ msg)]).
Proof.
  intros Hdir Hmk Hch Hj Hbefore Hcause msg run. subst run.
  assert (Hne : chapters <> []).
  { intro Hnil. subst chapters. unfold len in Hj. cbn in Hj. lia. }
  rewrite (@convert_book_after_loop output_file tmp pc sc chapters Hdir Hmk Hch Hne).
  assert (Hloop : fst (convert_chapters ebook w cfg pc sc (len chapters)
                         (map fst (enumerate chapters)) [])
                  = Raise (ConversionError msg)).
  { rewrite convert_chapters_outcome, map_fst_enumerate.
    rewrite (@seq_split (length chapters) (Z.to_nat j))
      by (unfold len in Hj; lia).
    rewrite map_app. cbn [map]. rewrite Z2Nat.id by lia.
    apply gather_first_raise.
    - intros i Hi. apply in_map_iff in Hi. destruct Hi as (k & <- & Hk).
      apply in_seq in Hk. apply Hbefore. lia.
    - unfold convert_chapter. rewrite fst_try_raise, Hcause, bindM_lift_raise.
      reflexivity. }
  destruct (convert_chapters ebook w cfg pc sc (len chapters)
              (map fst (enumerate chapters)) []) as [res t] eqn:Hrun.
  cbn [fst] in Hloop. subst res. cbn [bindM try_exceptM str_of_exn].
  split.
  - destruct sc; reflexivity.
  - intros ->. cbn. exists t. reflexivity.
Qed.

(** ** The tasks of a chapter *)

Lemma synthesize_calls_app (t1 t2 : list event) :
  synthesize_calls (t1 ++ t2) = synthesize_calls t1 ++ synthesize_calls t2.
Proof. apply flat_map_app. Qed.

Lemma synthesize_calls_unlink_all (files : list pystr) :
  synthesize_calls (snd (unlink_all w files)) = [].
Proof.
  rewrite unlink_all_outcome. cbn [snd].
  induction files as [| f files IH]; [reflexivity | exact IH].
Qed.

Lemma synthesize_calls_combine_audio_files (files : list pystr)
    (output format rate : pystr) :
  synthesize_calls (snd (combine_audio_files w files output format rate))
  = [].
Proof.
  destruct files as [| f files]; [reflexivity |].
  rewrite combine_audio_files_outcome by discriminate. cbn [snd].
  destruct (ffmpeg_installed w); [| reflexivity].
  destruct (ffmpeg_concat_events w (f :: files) output format rate)
    as [-> | (lines & file_list & _ & ->)]; reflexivity.
Qed.

Lemma synthesize_calls_after_loop (chunk_files : list pystr) (output : pystr) :
  synthesize_calls
    (snd (if truthy chunk_files then
            combine_audio_files w chunk_files output
              (output_format cfg) (bitrate cfg) ;;;
            (if negb (keep_temp_files cfg) then unlink_all w chunk_files
             else ret tt) ;;;
            ret (Some output)
          else ret None)) = [].
Proof.
  destruct chunk_files as [| f files]; [reflexivity |]. cbn [truthy].
  rewrite snd_bindM, synthesize_calls_app,
    synthesize_calls_combine_audio_files.
  destruct (fst (combine_audio_files w (f :: files) output _ _));
    [| reflexivity].
  rewrite snd_bindM, synthesize_calls_app.
  destruct (keep_temp_files cfg); cbn [negb]; [reflexivity |].
  rewrite synthesize_calls_unlink_all.
  destruct (fst (unlink_all w (f :: files))); reflexivity.
Qed.

Lemma flat_map_nth_seq {A B} (f : A -> list B) (pre l : list A) :
  flat_map (fun j => match nth_error (pre ++ l) j with
                     | Some a => f a
                     | None => []
                     end)
           (seq (length pre) (length l))
  = flat_map f l.
Proof.
  revert pre. induction l as [| a l IH]; intros pre; [reflexivity |].
  cbn [length seq flat_map].
  rewrite nth_error_app2, Nat.sub_diag by lia. cbn [nth_error]. f_equal.
  specialize (IH (pre ++ [a])). rewrite <- app_assoc in IH. cbn [app] in IH.
  rewrite length_app in IH. cbn [length] in IH.
  now replace (length pre + 1)%nat with (S (length pre)) in IH by lia.
Qed.

Lemma synthesize_calls_loop (tmp : pystr) (chunks : list pystr) (cb : callback)
    (total : Z) (completed : list (Z * nat)) :
  (forall c t, synthesize_calls (cb_events cb c t) = []) ->
  synthesize_calls
    (flat_map (events_of (submitted tmp chunks) total cb) completed)
  = flat_map (fun kj => match nth_error (submitted tmp chunks) (snd kj) with
                        | Some fut => synthesize_calls (snd fut)
                        | None => []
                        end) completed.
Proof.
  intros Hcb. induction completed as [| [k j] rest IH]; [reflexivity |].
  cbn [flat_map]. rewrite synthesize_calls_app, IH. f_equal.
  unfold events_of. cbn [fst snd].
  destruct (nth_error (submitted tmp chunks) j) as [[r ev] |]; [| reflexivity].
  cbn [snd]. now rewrite synthesize_calls_app, Hcb, app_nil_r.
Qed.

Lemma synthesize_calls_submitted (tmp : pystr) (chunks : list pystr) :
  flat_map (fun fut => synthesize_calls (snd fut)) (submitted tmp chunks)
  = chunk_tasks cfg tmp chunks.
Proof.
  unfold Spec.submitted, chunk_tasks.
  induction (enumerate chunks) as [| [i c] l IH]; [reflexivity |].
  cbn [map flat_map fst snd]. rewrite IH, process_chunk_outcome. reflexivity.
Qed.

(** ** Distinct fragment files *)

Lemma py_inj (a b : string) : py a = py b -> a = b.
Proof.
  unfold py. intros Heq.
  rewrite <- (string_of_list_ascii_of_string a),
          <- (string_of_list_ascii_of_string b).
  f_equal. revert Heq.
  generalize (list_ascii_of_string a) (list_ascii_of_string b).
  induction l as [| x l IH]; intros [| y l'] Heq; try discriminate;
    [reflexivity |].
  cbn [map] in Heq. injection Heq as Hxy Hl. f_equal; [| now apply IH].
  rewrite <- (ascii_N_embedding x), <- (ascii_N_embedding y).
  now rewrite Hxy.
Qed.

Lemma to_int_not_nil (z : Z) :
  Z.to_int z <> Decimal.Pos Decimal.Nil
  /\ Z.to_int z <> Decimal.Neg Decimal.Nil.
Proof.
  destruct z as [| p | p]; cbn; split; try discriminate;
    intros [= Habs]; exact (Unsigned.to_uint_nonnil p Habs).
Qed.

(** [str(i)] tells the integers apart. *)
Lemma str_of_Z_inj (a b : Z) : str_of_Z a = str_of_Z b -> a = b.
Proof.
  unfold str_of_Z. intros Heq. apply py_inj in Heq.
  apply to_int_inj.
  destruct (to_int_not_nil a) as [Ha1 Ha2].
  destruct (to_int_not_nil b) as [Hb1 Hb2].
  pose proof (NilZero.isi (Z.to_int a) Ha1 Ha2) as Hia.
  pose proof (NilZero.isi (Z.to_int b) Hb1 Hb2) as Hib.
  rewrite Heq in Hia. rewrite Hia in Hib. now injection Hib.
Qed.

Lemma path_join_relative (a b : pystr) :
  startswith b (py "/") = false ->
  path_join a b
  = (if negb (truthy a) || startswith (rev a) (py "/") then a
     else a ++ py "/") ++ b.
Proof.
  intros Hb. unfold path_join. rewrite Hb.
  destruct (negb (truthy a) || startswith (rev a) (py "/"));
    [reflexivity | now rewrite <- app_assoc].
Qed.

Lemma fragment_path_inj (tmp : pystr) : Injective (fragment_path tmp).
Proof.
  intros j j' Heq. unfold Spec.fragment_path in Heq.
  rewrite !path_join_relative in Heq by reflexivity.
  apply app_inv_head in Heq. unfold chunk_file_name in Heq.
  apply app_inv_head in Heq. apply app_inv_tail in Heq.
  now apply Nat2Z.inj, str_of_Z_inj.
Qed.

Lemma chunk_task_paths (tmp : pystr) (chunks : list pystr) (start : nat) :
  map (fun ic : Z * pystr => path_join tmp (chunk_file_name cfg (fst ic)))
      (combine (map Z.of_nat (seq start (length chunks))) chunks)
  = map (fragment_path tmp) (seq start (length chunks)).
Proof.
  revert start. induction chunks as [| c l IH]; intros start; [reflexivity |].
  cbn [length seq map combine fst]. rewrite IH. reflexivity.
Qed.

(** Each chunk of a chapter is synthesized exactly once, whatever the
    order in which the tasks complete, and no two tasks write to the same
    file: with a pool of at least one worker the engine is called once
    for every chunk, with the chunk's own fragment path, and the fragment
    paths are pairwise distinct.  A pool without workers cannot be
    created: the engine is not called at all and [convert_chapter]
    raises. *)
Theorem convert_chapter_synthesizes_each_chunk_once (i : Z)
    (out : option pystr) (cb : callback) (text title tmp : pystr)
    (chunks : list pystr) :
  get_chapter_text ebook i = Ok text ->
  get_chapter_title ebook i = Ok title ->
  text <> [] ->
  working_dir w cfg (Some i) = Ok tmp ->
  make_output_dir w (chapter_output tmp i title out) = Ok tt ->
  split_text_into_chunks text (chunk_size cfg) default_overlap = chunks ->
  (2 <= length chunks)%nat ->
  Permutation (as_completed w i (length chunks)) (seq 0 (length chunks)) ->
  (forall c t, synthesize_calls (cb_events cb c t) = []) ->
  let r := convert_chapter ebook w cfg i out cb in
  (0 < max_workers cfg ->
   Permutation (synthesize_calls (snd r)) (chunk_tasks cfg tmp chunks))
  /\ NoDup (map snd (chunk_tasks cfg tmp chunks))
  /\ (max_workers cfg <= 0 ->
      synthesize_calls (snd r) = []
      /\ fst r = Raise (ConversionError
                          (py "Error converting chapter " ++ str_of_Z i
                           ++ py ": max_workers must be greater than 0"))).
Proof.
  intros Htext Htitle Hne Hdir Hmk Hsplit Hlen Hperm Hcb. cbv zeta.
  split; [| split].
  - intros Hw.
    destruct chunks as [| c1 [| c2 rest]]; cbn [length] in Hlen; try lia.
    pose proof (@convert_chapter_multi H ebook w cfg i out cb text title tmp
                  c1 c2 rest Htext Htitle
                  (TextUtilsFacts.truthy_true_cons Hne) Hdir Hmk Hsplit Hw)
      as Hshape.
    cbv zeta in Hshape. rewrite Hshape. clear Hshape.
    rewrite snd_try_raise, snd_bindM. cbn [fst snd].
    rewrite synthesize_calls_app, synthesize_calls_after_loop, app_nil_r.
    rewrite synthesize_calls_loop by exact Hcb.
    set (chunks := c1 :: c2 :: rest) in *.
    unfold enumerate.
    rewrite (flat_map_combine_snd
               (fun j => match nth_error (submitted tmp chunks) j with
                         | Some fut => synthesize_calls (snd fut)
                         | None => []
                         end))
      by (rewrite length_map, length_seq; reflexivity).
    rewrite <- synthesize_calls_submitted.
    rewrite <- (flat_map_nth_seq _ [] (submitted tmp chunks)).
    cbn [app length].
    replace (length (submitted tmp chunks)) with (length chunks)
      by (unfold Spec.submitted, enumerate;
          now rewrite length_map, length_combine, length_map, length_seq,
            Nat.min_id).
    apply Permutation_flat_map. exact Hperm.
  - unfold chunk_tasks. rewrite map_map. cbn [snd].
    unfold enumerate.
    rewrite chunk_task_paths.
    apply Injective_map_NoDup; [apply fragment_path_inj | apply seq_NoDup].
  - intros Hw. subst chunks.
    now rewrite (@convert_chapter_without_workers H ebook w cfg i out cb text
                   title tmp Htext Htitle Hne Hdir Hmk Hlen Hw).
Qed.

(** ** What a run removes *)

Lemma Forall_snd_bindM {A B} (Q : event -> Prop) (m : M A) (k : A -> M B) :
  Forall Q (snd m) ->
  (forall a, fst m = Ok a -> Forall Q (snd (k a))) ->
  Forall Q (snd (bindM m k)).
Proof.
  intros Hm Hk. rewrite snd_bindM. apply Forall_app. split; [exact Hm |].
  destruct (fst m) as [a | e]; [now apply Hk | constructor].
Qed.

Lemma Forall_snd_try {A} (Q : event -> Prop) (m : M A)
    (handler : exn -> M A) :
  Forall Q (snd m) ->
  (forall e, Forall Q (snd (handler e))) ->
  Forall Q (snd (try_exceptM m handler)).
Proof.
  intros Hm Hh. destruct m as [[a | e] t]; cbn [try_exceptM snd] in *;
    [exact Hm |].
  specialize (Hh e). destruct (handler e) as [r t']. cbn [snd] in *.
  apply Forall_app. now split.
Qed.

Section Events.
Variable Q : event -> Prop.
Hypothesis Q_synthesize : forall text path, Q (Synthesize text path).
Hypothesis Q_progress : forall v, Q (Progress v).
Hypothesis Q_status : forall msg, Q (Status msg).
Hypothesis Q_combine :
  forall files out fmt rate, Q (CombineAudioFiles files out fmt rate).
Hypothesis Q_unlink : keep_temp_files cfg = false -> forall f, Q (Unlink f).
Hypothesis Q_list_file : forall f, list_file w f -> Q (Unlink f).

Lemma status_events (sc : bool) (msg : pystr) :
  Forall Q (snd (status sc msg)).
Proof. destruct sc; cbn; repeat constructor. apply Q_status. Qed.

Lemma combine_audio_files_events (files : list pystr)
    (output format rate : pystr) :
  Forall Q (snd (combine_audio_files w files output format rate)).
Proof.
  destruct files as [| f files].
  - cbn. repeat constructor. apply Q_combine.
  - rewrite combine_audio_files_outcome by discriminate.
    cbn [snd]. constructor; [apply Q_combine |].
    destruct (ffmpeg_installed w); [| constructor].
    destruct (ffmpeg_concat_events w (f :: files) output format rate)
      as [-> | (lines & file_list & Hfile & ->)]; repeat constructor.
    apply Q_list_file. now exists lines.
Qed.

Lemma unlink_all_events (files : list pystr) :
  keep_temp_files cfg = false -> Forall Q (snd (unlink_all w files)).
Proof.
  intros Hk. rewrite unlink_all_outcome. cbn [snd].
  apply Forall_map, Forall_forall. intros f _. now apply Q_unlink.
Qed.

Lemma cleanup_events (files : list pystr) :
  Forall Q (snd (if negb (keep_temp_files cfg) then unlink_all w files
                 else ret tt)).
Proof.
  generalize (unlink_all_events files).
  case (keep_temp_files cfg); cbn [negb]; intros Hu; [constructor |].
  now apply Hu.
Qed.

Lemma process_results_events (futures : list (M (option pystr)))
    (total : Z) (cb : callback) (completed : list (Z * nat)) :
  Forall (fun fut => Forall Q (snd fut)) futures ->
  (forall c t, Forall Q (cb_events cb c t)) ->
  forall chunk_files,
    Forall Q (snd (process_results futures total cb completed chunk_files)).
Proof.
  intros Hfut Hcb. induction completed as [| [i j] rest IH]; intros files;
    [constructor |].
  cbn [process_results].
  destruct (nth_error futures j) as [fut |] eqn:Hj; [| apply IH].
  apply Forall_snd_bindM; [| intros a _; apply IH].
  apply Forall_snd_try; [| intros e; constructor].
  apply Forall_snd_bindM.
  - rewrite Forall_forall in Hfut. apply Hfut.
    eapply nth_error_In; eassumption.
  - intros a _. apply Forall_snd_bindM; [| intros; constructor].
    specialize (Hcb (i + 1) total). destruct cb; [exact Hcb | constructor].
Qed.

Lemma submitted_events (tmp : pystr) (chunks : list pystr) :
  Forall (fun fut => Forall Q (snd fut))
    (map (fun ic => process_chunk w cfg (snd ic) (fst ic) tmp)
         (enumerate chunks)).
Proof.
  apply Forall_map, Forall_forall. intros [i c] _. cbn [fst snd].
  rewrite process_chunk_outcome. cbn. repeat constructor.
  apply Q_synthesize.
Qed.

Lemma convert_chapter_events (i : Z) (out : option pystr) (cb : callback) :
  (forall c t, Forall Q (cb_events cb c t)) ->
  Forall Q (snd (convert_chapter ebook w cfg i out cb)).
Proof.
  intros Hcb. unfold convert_chapter.
  apply Forall_snd_try; [| intros e; constructor].
  apply Forall_snd_bindM; [constructor | intros text _].
  apply Forall_snd_bindM; [constructor | intros title _].
  destruct (negb (truthy text)); [constructor |].
  apply Forall_snd_bindM; [constructor | intros tmp _].
  apply Forall_snd_bindM; [constructor | intros _ _].
  destruct (split_text_into_chunks text (chunk_size cfg) default_overlap)
    as [| c1 [| c2 rest]]; [constructor | |].
  - apply Forall_snd_bindM; [cbn; repeat constructor; apply Q_synthesize |].
    intros _ _. apply Forall_snd_bindM; [constructor | intros _ _].
    apply Forall_snd_bindM; [| intros; constructor].
    specialize (Hcb 1 1). destruct cb; [exact Hcb | constructor].
  - apply Forall_snd_bindM; [constructor | intros _ _].
    apply Forall_snd_bindM.
    + apply process_results_events; [apply submitted_events | exact Hcb].
    + intros files _. destruct (truthy files); [| constructor].
      apply Forall_snd_bindM; [apply combine_audio_files_events | intros _ _].
      apply Forall_snd_bindM; [apply cleanup_events | intros; constructor].
Qed.

Lemma convert_chapters_events (pc sc : bool) (n : Z) (idxs : list Z) :
  forall chapter_files,
    Forall Q (snd (convert_chapters ebook w cfg pc sc n idxs chapter_files)).
Proof.
  induction idxs as [| i rest IH]; intros files; [constructor |].
  cbn [convert_chapters].
  apply Forall_snd_bindM; [apply status_events | intros _ _].
  apply Forall_snd_bindM; [| intros a _; apply IH].
  apply convert_chapter_events. intros c t. cbn.
  destruct pc; repeat constructor. apply Q_progress.
Qed.

(** Every event of [convert_book] satisfies [Q], provided the removal of
    the book's own temporary directory does. *)
Lemma convert_book_events (output_file : pystr) (pc sc : bool) :
  (forall tmp, keep_temp_files cfg = false -> temp_dir cfg = None ->
               working_dir w cfg None = Ok tmp -> Q (Rmdir tmp)) ->
  Forall Q (snd (convert_book ebook w cfg output_file pc sc)).
Proof.
  intros Q_rmdir. unfold convert_book.
  apply Forall_snd_try.
  2: { intros e. apply Forall_snd_bindM; [apply status_events |].
       intros; constructor. }
  destruct (working_dir w cfg None) as [tmp | e] eqn:Hdir;
    [| rewrite bindM_lift_raise; constructor].
  rewrite bindM_lift_ok.
  apply Forall_snd_bindM; [constructor | intros _ _].
  apply Forall_snd_bindM; [constructor | intros chapters _].
  destruct (negb (truthy chapters)).
  { apply Forall_snd_bindM; [apply status_events | intros; constructor]. }
  apply Forall_snd_bindM; [apply convert_chapters_events | intros files _].
  destruct (truthy files).
  - apply Forall_snd_bindM; [apply status_events | intros _ _].
    apply Forall_snd_bindM; [apply combine_audio_files_events | intros _ _].
    apply Forall_snd_bindM; [apply cleanup_events | intros _ _].
    apply Forall_snd_bindM.
    + generalize (Q_rmdir tmp).
      case (keep_temp_files cfg); cbn [negb andb]; [constructor |].
      case (temp_dir cfg); [constructor |].
      intros Hq. rewrite remove_outcome. cbn. repeat constructor.
      now apply Hq.
    + intros _ _.
      apply Forall_snd_bindM; [apply status_events | intros; constructor].
  - apply Forall_snd_bindM; [apply status_events | intros; constructor].
Qed.

End Events.

(** What a conversion removes.  With [keep_temp_files] set, the only
    thing [convert_book] removes, whatever happens during the run, is the
    temporary file to which [combine_audio_files] wrote the list of its
    inputs: no file under another name and no directory.  Without it, the only
    directory ever removed is the temporary directory the converter made
    for the book itself, and only when no [temp_dir] is configured: the
    directories made for the chapters are never removed. *)
Theorem convert_book_cleanup (output_file : pystr) (pc sc : bool) :
  let run := convert_book ebook w cfg output_file pc sc in
  (keep_temp_files cfg = true ->
   forall ev, In ev (snd run) -> deletion ev = true ->
              exists f, ev = Unlink f /\ list_file w f)
  /\ (forall d, In (Rmdir d) (snd run) ->
        keep_temp_files cfg = false /\ temp_dir cfg = None
        /\ working_dir w cfg None = Ok d).
Proof.
  cbn zeta. split.
  - intros Hkeep.
    assert (Hall : Forall (fun ev => deletion ev = true ->
                             exists f, ev = Unlink f /\ list_file w f)
                     (snd (convert_book ebook w cfg output_file pc sc))).
    { apply convert_book_events; try discriminate.
      - intros Hk. congruence.
      - intros f Hf _. now exists f.
      - intros tmp Hk. congruence. }
    rewrite Forall_forall in Hall. exact Hall.
  - intros d Hin.
    assert (Hall : Forall (fun ev => forall d, ev = Rmdir d ->
                             keep_temp_files cfg = false
                             /\ temp_dir cfg = None
                             /\ working_dir w cfg None = Ok d)
                     (snd (convert_book ebook w cfg output_file pc sc))).
    { apply convert_book_events; try discriminate.
      intros tmp Hk Ht Hdir d' Heq. injection Heq as Heq. subst d'.
      now repeat split. }
    rewrite Forall_forall in Hall. exact (Hall _ Hin d eq_refl).
Qed.

End Facts.

Section Epub.
Context `{Unicode}.

Lemma epub_chapters_outcome (p : EPUBProcessor.t) :
  fst (Ebook.get_chapters (Ebook.init (Ebook.Epub p))) = Ok []
  \/ exists e, fst (Ebook.get_chapters (Ebook.init (Ebook.Epub p))) = Raise e.
Proof.
  unfold Ebook.get_chapters. cbn [Ebook.init Ebook.chapters truthy negb
    Ebook.the_processor Ebook.processor_get_chapters].
  unfold EPUBProcessor.get_chapters.
  destruct (EPUBProcessor.collect_chapters _ _ _) as [cs | e] eqn:Hc;
    cbn [try_except bind fst].
  - apply ExtractorFacts.epub_collect_chapters in Hc. subst cs. now left.
  - right. eexists. reflexivity.
Qed.

Lemma epub_book_never_converted_aux (p : EPUBProcessor.t) (w : world)
    (cfg : config) (output_file : pystr) (pc sc : bool) :
  let run := convert_book (of_ebook (Ebook.init (Ebook.Epub p))) w cfg
               output_file pc sc in
  (forall f, fst run <> Ok (Some f))
  /\ synthesize_calls (snd run) = [].
Proof.
  cbn zeta. unfold convert_book.
  destruct (working_dir w cfg None) as [tmp | e];
    [| destruct sc; split; [intros f Hf; discriminate | reflexivity
                           | intros f Hf; discriminate | reflexivity]].
  rewrite bindM_lift_ok.
  destruct (make_output_dir w output_file) as [[] | e];
    [| destruct sc; split; [intros f Hf; discriminate | reflexivity
                           | intros f Hf; discriminate | reflexivity]].
  rewrite bindM_lift_ok. cbn [of_ebook get_chapters].
  destruct (epub_chapters_outcome p) as [-> | [e ->]].
  - rewrite bindM_lift_ok. cbn [truthy negb].
    destruct sc; split; [intros f Hf; discriminate | reflexivity
                        | intros f Hf; discriminate | reflexivity].
  - rewrite bindM_lift_raise.
    destruct sc; split; [intros f Hf; discriminate | reflexivity
                        | intros f Hf; discriminate | reflexivity].
Qed.

(** An EPUB is never converted.  [EPUBProcessor.get_chapters] returns no
    chapter or raises, so that [convert_book] on an EPUB document returns
    [None] or raises, whatever the document, the engine and the
    configuration: it never returns an output file, and the speech engine
    is never called. *)
Theorem epub_book_never_converted (p : EPUBProcessor.t) (w : world)
    (cfg : config) (output_file : pystr) (pc sc : bool) :
  let run := convert_book (of_ebook (Ebook.init (Ebook.Epub p))) w cfg
               output_file pc sc in
  (forall f, fst run <> Ok (Some f))
  /\ synthesize_calls (snd run) = [].
Proof. apply epub_book_never_converted_aux. Qed.

End Epub.

Section Concrete.
#[local] Existing Instance ascii_only.

Lemma convert_book_chapter_order_witness :
  let files := [py "/tmp/work/chapter_1_Chapter 1.mp3";
                py "/tmp/work/chapter_2_Chapter 2.mp3"] in
  let concat :=
    ffmpeg_concat Demo.reversing_world files (py "/tmp/book.mp3")
      (py "mp3") (py "192k") in
  let run := convert_book Demo.two_chapter_book Demo.reversing_world
               (Demo.demo_cfg 20) (py "/tmp/book.mp3") true true in
  (files = [] -> fst run = Ok None)
  /\ (files <> [] ->
      (exists earlier, combined_lists (snd run) = earlier ++ [files])
      /\ (ffmpeg_installed Demo.reversing_world = true ->
          fst concat = Ok true ->
          fst run = Ok (Some (py "/tmp/book.mp3")))
      /\ (forall e, fst run = Raise e ->
          ffmpeg_installed Demo.reversing_world = false
          \/ exists e', fst concat = Raise e')).
Proof.
  apply (@convert_book_chapter_order ascii_only Demo.two_chapter_book
           Demo.reversing_world (Demo.demo_cfg 20) (py "/tmp/book.mp3")
           (py "/tmp/work") true true
           (map Ebook.TxtChapter
              (TextProcessor.chapters
                 (TextProcessor.init (py "Chapter 1
aa bb. cc dd. ee ff.
Chapter 2
gg hh. ii jj."))))
           (fun i => Some (py "/tmp/work/chapter_" ++ str_of_Z (i + 1)
                           ++ py "_Chapter " ++ str_of_Z (i + 1)
                           ++ py ".mp3"))).
  - reflexivity.
  - reflexivity.
  - reflexivity.
  - vm_compute. discriminate.
  - intros i Hi. change (len _) with 2 in Hi.
    assert (Hc : i = 0 \/ i = 1) by lia.
    destruct Hc as [-> | ->]; vm_compute; reflexivity.
Defined.

Lemma convert_book_aborts_on_failing_chapter_witness :
  let msg := py "Error converting chapter 1: Error getting chapter text: Error getting chapter text: bad page" in
  let run := convert_book torn_pdf Demo.reversing_world (Demo.demo_cfg 20)
               (py "/tmp/book.mp3") true true in
  fst run = Raise (ConversionError (py "Error converting book: " ++ msg))
  /\ (true = true ->
      exists t, snd run = t ++ [Status (py "Error: " ++ msg)]).
Proof.
  apply (@convert_book_aborts_on_failing_chapter ascii_only torn_pdf
           Demo.reversing_world (Demo.demo_cfg 20) (py "/tmp/book.mp3")
           (py "/tmp/work") true true
           (map Ebook.PdfChapter
              (PDFProcessor.chapters
                 (PDFProcessor.init
                    [Ok (py "A."); Raise (ExternalError (py "bad page"))]
                    (Ok []))))
           1
           (FileError (py "Error getting chapter text: Error getting chapter text: bad page"))).
  - reflexivity.
  - reflexivity.
  - reflexivity.
  - vm_compute. split; [discriminate | reflexivity].
  - intros i Hi. assert (Hc : i = 0) by lia. subst i.
    eexists. vm_compute. reflexivity.
  - reflexivity.
Defined.

Lemma convert_chapter_synthesizes_each_chunk_once_witness :
  let chunks := [py "Chapter 1 aa bb."; py "Chapter 1 aa bb. cc dd.";
                 py "Chapter 1 aa bb. cc dd. ee ff."] in
  let r := convert_chapter Demo.demo_book Demo.reversing_world
             (Demo.demo_cfg 20) 0 None None in
  (0 < max_workers (Demo.demo_cfg 20) ->
   Permutation (synthesize_calls (snd r))
     (chunk_tasks (Demo.demo_cfg 20) (py "/tmp/work") chunks))
  /\ NoDup (map snd (chunk_tasks (Demo.demo_cfg 20) (py "/tmp/work") chunks))
  /\ (max_workers (Demo.demo_cfg 20) <= 0 ->
      synthesize_calls (snd r) = []
      /\ fst r = Raise (ConversionError
                          (py "Error converting chapter " ++ str_of_Z 0
                           ++ py ": max_workers must be greater than 0"))).
Proof.
  apply (@convert_chapter_synthesizes_each_chunk_once ascii_only
           Demo.demo_book Demo.reversing_world (Demo.demo_cfg 20) 0 None None
           (py "Chapter 1 aa bb. cc dd. ee ff.") (py "Chapter 1")
           (py "/tmp/work")
           [py "Chapter 1 aa bb."; py "Chapter 1 aa bb. cc dd.";
            py "Chapter 1 aa bb. cc dd. ee ff."]).
  - reflexivity.
  - reflexivity.
  - discriminate.
  - reflexivity.
  - reflexivity.
  - vm_compute. reflexivity.
  - cbn. lia.
  - apply Permutation_sym, Permutation_rev.
  - reflexivity.
Defined.

End Concrete.
End OrchestratorFacts.

(* ===================================================================== *)
(** * Properties of the metadata *)
(* ===================================================================== *)

Module MetadataFacts.
Import Metadata.

Lemma epub_metadata_keys (basename : pystr)
    (dc : pystr -> result (list (option pystr))) :
  exists t a l rest,
    epub_extract_metadata basename dc
    = (py "title", t) :: (py "author", a) :: (py "language", l) :: rest.
Proof.
  unfold epub_extract_metadata.
  destruct (dc (py "title")); cbn [bind]; [| repeat eexists].
  destruct (dc (py "creator")); cbn [bind]; [| repeat eexists].
  destruct (dc (py "language")); cbn [bind]; [| repeat eexists].
  destruct (dc (py "identifier")); cbn [bind]; [| repeat eexists].
  destruct (dc (py "publisher")); cbn [bind]; [| repeat eexists].
  destruct (dc (py "date")); cbn [bind]; [| repeat eexists].
  destruct (dc (py "rights")); cbn [bind]; [| repeat eexists].
  destruct (dc (py "description")); cbn [bind]; repeat eexists.
Qed.

Lemma pdf_metadata_keys (basename : pystr) (pdf_metadata : result pydict) :
  exists t a rest,
    pdf_extract_metadata basename pdf_metadata
    = (py "title", t) :: (py "author", a) :: rest
    /\ dict_get rest (py "language") (Some (py "en")) = Some (py "en").
Proof.
  unfold pdf_extract_metadata.
  destruct pdf_metadata as [[| kv md] | e]; cbn [truthy map fst snd];
    repeat eexists.
Qed.

(** The defaults of [Ebook._load_metadata] for the title and the author
    are never used: every processor records both keys, so that [title]
    and [author] are whatever the processor recorded, [None] included.
    Only the default of [language] can apply. *)
Theorem ebook_title_author_defaults_unused (basename : pystr) (src : source)
    (default : option pystr) :
  dict_get (get_metadata basename src) (py "title") default
  = title (ebook_info basename src)
  /\ dict_get (get_metadata basename src) (py "author") default
     = author (ebook_info basename src).
Proof.
  unfold ebook_info, load_metadata. cbn [title author].
  destruct src as [dc | md |]; cbn [get_metadata].
  - destruct (epub_metadata_keys basename dc) as (t & a & l & rest & ->).
    split; reflexivity.
  - destruct (pdf_metadata_keys basename md) as (t & a & rest & -> & _).
    split; reflexivity.
  - split; reflexivity.
Qed.

(** A PDF that has metadata but no title in it, or an empty one, has the
    title [None], not the name of the file; likewise for the author.  Its
    language is always "en". *)
Theorem pdf_missing_title_is_none (basename : pystr) (md : pydict) :
  md <> [] ->
  let i := ebook_info basename (PdfSource (Ok md)) in
  (falsy_to_none (dict_get md (py "Title") None) = None -> title i = None)
  /\ (falsy_to_none (dict_get md (py "Author") None) = None ->
      author i = None)
  /\ language i = Some (py "en").
Proof.
  intros Hne. destruct md as [| kv md]; [congruence |].
  cbn zeta. unfold ebook_info, load_metadata. cbn [title author language].
  cbn [get_metadata pdf_extract_metadata truthy map fst snd].
  repeat split; intros; cbn; assumption.
Qed.

(** An EPUB gets the first recorded value of each field; a field without
    any recorded value is [None], not the default: an EPUB without a
    title has the title [None], and one without a language the language
    [None]. *)
Theorem epub_missing_fields_are_none (basename : pystr)
    (dc : pystr -> result (list (option pystr))) :
  (forall name, exists values, dc name = Ok values) ->
  let i := ebook_info basename (EpubSource dc) in
  let first name := match dc name with
                    | Ok (value :: _) => value
                    | _ => None
                    end in
  title i = first (py "title")
  /\ author i = first (py "creator")
  /\ language i = first (py "language").
Proof.
  intros Hdc. cbn zeta. unfold ebook_info, load_metadata.
  cbn [title author language get_metadata]. unfold epub_extract_metadata.
  destruct (Hdc (py "title")) as [t ->].
  destruct (Hdc (py "creator")) as [a ->].
  destruct (Hdc (py "language")) as [l ->].
  destruct (Hdc (py "identifier")) as [x1 ->].
  destruct (Hdc (py "publisher")) as [x2 ->].
  destruct (Hdc (py "date")) as [x3 ->].
  destruct (Hdc (py "rights")) as [x4 ->].
  destruct (Hdc (py "description")) as [x5 ->].
  cbn [bind map fst snd]. repeat split; reflexivity.
Qed.

Lemma pdf_missing_title_is_none_witness :
  let md := [(py "Producer", Some (py "LaTeX"))] in
  let i := ebook_info (py "book.pdf") (PdfSource (Ok md)) in
  (falsy_to_none (dict_get md (py "Title") None) = None -> title i = None)
  /\ (falsy_to_none (dict_get md (py "Author") None) = None ->
      author i = None)
  /\ language i = Some (py "en").
Proof.
  apply (@pdf_missing_title_is_none (py "book.pdf")
           [(py "Producer", Some (py "LaTeX"))]).
  discriminate.
Defined.

Lemma epub_missing_fields_are_none_witness :
  let dc := fun name : pystr =>
              if pystr_eqb name (py "creator")
              then Ok [Some (py "A. Author"); Some (py "B. Author")]
              else Ok [] in
  let i := ebook_info (py "book.epub") (EpubSource dc) in
  let first name := match dc name with
                    | Ok (value :: _) => value
                    | _ => None
                    end in
  title i = first (py "title")
  /\ author i = first (py "creator")
  /\ language i = first (py "language").
Proof.
  apply (@epub_missing_fields_are_none (py "book.epub")
           (fun name : pystr =>
              if pystr_eqb name (py "creator")
              then Ok [Some (py "A. Author"); Some (py "B. Author")]
              else Ok [])).
  intros name. destruct (pystr_eqb name (py "creator")); eexists; reflexivity.
Defined.

End MetadataFacts.

(* ===================================================================== *)
(** * Properties of the configuration *)
(* ===================================================================== *)

Module ConfigFacts.
Import Config Settings ConfigSamples.

Lemma pystr_eqb_eq (a b : pystr) : pystr_eqb a b = true <-> a = b.
Proof.
  revert b. induction a as [| x a IH]; intros [| y b]; cbn;
    try (split; [discriminate | discriminate]); [tauto |].
  rewrite andb_true_iff, N.eqb_eq, IH. split.
  - intros [-> ->]. reflexivity.
  - intros [= -> ->]. now split.
Qed.

Lemma pystr_eqb_refl (a : pystr) : pystr_eqb a a = true.
Proof. now apply pystr_eqb_eq. Qed.

Lemma pystr_eqb_neq (a b : pystr) : a <> b -> pystr_eqb a b = false.
Proof.
  intros Hne. destruct (pystr_eqb a b) eqn:Heq; [| reflexivity].
  apply pystr_eqb_eq in Heq. contradiction.
Qed.

(** A string is the same key as itself and as nothing else. *)
Lemma key_eqb_str_r (k : pyval) (s : pystr) :
  key_eqb k (VStr s) = true <-> k = VStr s.
Proof.
  split.
  - destruct k as [| b | i | [q | | n |] | s' | l | d]; cbn;
      try discriminate.
    intros Heq. apply pystr_eqb_eq in Heq. now subst.
  - intros ->. cbn. apply pystr_eqb_refl.
Qed.

Lemma key_eqb_str_l (k : pyval) (s : pystr) :
  key_eqb (VStr s) k = true <-> k = VStr s.
Proof.
  split.
  - destruct k as [| b | i | [q | | n |] | s' | l | d]; cbn;
      try discriminate.
    intros Heq. apply pystr_eqb_eq in Heq. now subst.
  - intros ->. cbn. apply pystr_eqb_refl.
Qed.

Lemma key_eqb_str (k k' : pyval) (s : pystr) :
  key_eqb k k' = true -> key_eqb k (VStr s) = key_eqb k' (VStr s).
Proof.
  intros Heq.
  destruct (key_eqb k' (VStr s)) eqn:Hk'.
  - apply key_eqb_str_r in Hk'. subst k'. exact Heq.
  - destruct (key_eqb k (VStr s)) eqn:Hk; [| reflexivity].
    apply key_eqb_str_r in Hk. subst k. apply key_eqb_str_l in Heq.
    subst k'. cbn in Hk'. now rewrite pystr_eqb_refl in Hk'.
Qed.

Lemma has_key_In (d : dict) (key : pystr) :
  has_key d key = true <-> In (VStr key) (keys d).
Proof.
  unfold has_key. rewrite existsb_exists. split.
  - intros (k & Hk & Heq). apply key_eqb_str_r in Heq. now subst.
  - intros Hin. exists (VStr key). split; [exact Hin |].
    now apply key_eqb_str_r.
Qed.

Lemma dict_get_absent (d : dict) (key : pystr) (d1 d2 : pyval) :
  has_key d key = true ->
  dict_get d (VStr key) d1 = dict_get d (VStr key) d2.
Proof.
  induction d as [| [k v] d IH]; [discriminate |].
  unfold has_key. cbn [keys map fst existsb dict_get].
  destruct (key_eqb k (VStr key)); [reflexivity | exact IH].
Qed.

Lemma dict_get_missing (d : dict) (key : pystr) (default : pyval) :
  has_key d key = false -> dict_get d (VStr key) default = default.
Proof.
  induction d as [| [k v] d IH]; [reflexivity |].
  unfold has_key. cbn [keys map fst existsb dict_get].
  destruct (key_eqb k (VStr key)); [discriminate | exact IH].
Qed.

(** Reading a string key after writing any key. *)
Lemma dict_get_set_any (d : dict) (key : pyval) (key' : pystr)
    (value default : pyval) :
  dict_get (dict_set d key value) (VStr key') default
  = if key_eqb key (VStr key') then value
    else dict_get d (VStr key') default.
Proof.
  induction d as [| [k v] d IH]; cbn [dict_set dict_get].
  - reflexivity.
  - destruct (key_eqb k key) eqn:Hk; cbn [dict_get].
    + rewrite (@key_eqb_str _ _ key' Hk).
      destruct (key_eqb key (VStr key')); reflexivity.
    + destruct (key_eqb k (VStr key')) eqn:Hk'; [| exact IH].
      apply key_eqb_str_r in Hk'. subst k.
      destruct (key_eqb key (VStr key')) eqn:Hkey; [| reflexivity].
      apply key_eqb_str_r in Hkey. subst key. cbn in Hk.
      now rewrite pystr_eqb_refl in Hk.
Qed.

(** Reading after writing. *)
Lemma dict_get_set (d : dict) (key key' : pystr) (value default : pyval) :
  dict_get (dict_set d (VStr key) value) (VStr key') default
  = if pystr_eqb key key' then value else dict_get d (VStr key') default.
Proof. apply dict_get_set_any. Qed.

(** Writing keeps the keys there are, those objects, in their places. *)
Lemma keys_dict_set_any (d : dict) (key value : pyval) :
  keys (dict_set d key value)
  = if existsb (fun k => key_eqb k key) (keys d) then keys d
    else keys d ++ [key].
Proof.
  induction d as [| [k v] d IH]; [reflexivity |].
  unfold keys in *. cbn [dict_set map fst existsb] in *.
  destruct (key_eqb k key); cbn [orb map fst]; [reflexivity |].
  rewrite IH. destruct (existsb _ _); reflexivity.
Qed.

Lemma keys_dict_set (d : dict) (key : pystr) (value : pyval) :
  keys (dict_set d (VStr key) value)
  = if has_key d key then keys d else keys d ++ [VStr key].
Proof. apply keys_dict_set_any. Qed.

Lemma has_key_dict_set (d : dict) (k v : pyval) (key : pystr) :
  has_key d key = true -> has_key (dict_set d k v) key = true.
Proof.
  rewrite !has_key_In, keys_dict_set_any. intros Hin.
  destruct (existsb _ _); [exact Hin |]. apply in_or_app. now left.
Qed.

Lemma has_key_assign (entries : list (pyval * pyval)) (d : dict)
    (key : pystr) :
  has_key d key = true -> has_key (assign d entries) key = true.
Proof.
  unfold assign. revert d.
  induction entries as [| [k v] entries IH]; intros d Hd; [exact Hd |].
  cbn [fold_left fst snd]. apply IH. now apply has_key_dict_set.
Qed.

(** [update] with a sequence applies its leading entries, and raises
    unless every element is an entry. *)
Lemma update_from_seq_entries (items : list pyval) (d : dict) (i : Z) :
  snd (update_from_seq d i items) = assign d (leading_entries items).
Proof.
  revert d i. induction items as [| item items IH]; intros d i;
    [reflexivity |].
  cbn [update_from_seq leading_entries]. unfold entry_of.
  destruct (elements item) as [[| k [| v [| x l]]] |]; try reflexivity.
  destruct (hashable k); [| reflexivity].
  rewrite IH. reflexivity.
Qed.

Lemma update_from_seq_raises (items : list pyval) (d : dict) (i : Z) :
  fst (update_from_seq d i items) = Ok tt
  <-> Forall (fun item => entry_of item <> None) items.
Proof.
  revert d i. induction items as [| item items IH]; intros d i.
  - split; [constructor | reflexivity].
  - cbn [update_from_seq]. rewrite Forall_cons_iff. unfold entry_of at 1.
    destruct (elements item) as [[| k [| v [| x l]]] |];
      try (split; [discriminate | intros [Habs _]; now contradiction Habs]).
    destruct (hashable k);
      [| split; [discriminate | intros [Habs _]; now contradiction Habs]].
    rewrite IH. split; [intros Hall; split; [discriminate | exact Hall] |].
    now intros [_ Hall].
Qed.

(** [update] with an object is [update] with its entries. *)
Lemma update_from_mapping_assign (m : list (pystr * pyval)) (d : dict) :
  update_from_mapping d m = assign d (of_object m).
Proof.
  unfold update_from_mapping, assign, of_object. revert d.
  induction m as [| [k v] m IH]; intros d; [reflexivity |].
  cbn [fold_left map fst snd]. apply IH.
Qed.

Lemma keys_of_object (m : list (pystr * pyval)) :
  keys (of_object m) = map VStr (map fst m).
Proof. unfold keys, of_object. rewrite !map_map. reflexivity. Qed.

Lemma has_key_of_object (m : list (pystr * pyval)) (key : pystr) :
  has_key (of_object m) key = true <-> In key (map fst m).
Proof.
  rewrite has_key_In, keys_of_object, in_map_iff. split.
  - intros (k & [= ->] & Hin). exact Hin.
  - intros Hin. now exists key.
Qed.

(** Reading after [update] with an object: the value of the object where
    it has the key, the old value elsewhere. *)
Lemma dict_get_update (m : list (pystr * pyval)) (d : dict) (key : pystr)
    (default : pyval) :
  NoDup (map fst m) ->
  dict_get (update_from_mapping d m) (VStr key) default
  = if has_key (of_object m) key
    then dict_get (of_object m) (VStr key) default
    else dict_get d (VStr key) default.
Proof.
  unfold update_from_mapping. revert d.
  induction m as [| [k v] m IH]; intros d Hnd; [reflexivity |].
  cbn [fold_left fst snd map] in *. inversion Hnd as [| ? ? Hk Hnd']; subst.
  rewrite IH by exact Hnd'. unfold has_key at 2.
  cbn [of_object keys map fst snd existsb dict_get].
  fold (of_object m). fold (keys (of_object m)).
  fold (has_key (of_object m) key).
  rewrite dict_get_set. cbn [key_eqb].
  destruct (pystr_eqb k key) eqn:Hkk; cbn [orb]; [| reflexivity].
  apply pystr_eqb_eq in Hkk. subst k.
  destruct (has_key (of_object m) key) eqn:Hh; [| reflexivity].
  apply has_key_of_object in Hh. contradiction.
Qed.

Lemma defaults_complete : complete defaults.
Proof.
  split; [| split; [| apply incl_refl]].
  - unfold keys, defaults. cbn [map fst].
    repeat (constructor; [eexists; reflexivity |]). constructor.
  - unfold keys, defaults. cbn [map fst].
    repeat (constructor;
            [cbn [In]; intro Hin;
             repeat (destruct Hin as [Hin | Hin]; [discriminate Hin |]);
             exact Hin |]).
    constructor.
Qed.

Lemma dict_set_complete (d : dict) (key : pystr) (value : pyval) :
  complete d -> complete (dict_set d (VStr key) value).
Proof.
  intros (Hstr & Hnd & Hincl). unfold complete. rewrite keys_dict_set.
  destruct (has_key d key) eqn:Hh; [now repeat split |]. repeat split.
  - apply Forall_app. split; [exact Hstr |].
    constructor; [now exists key | constructor].
  - apply NoDup_app; [exact Hnd | repeat constructor; intros [] |].
    intros k Hk [<- | []]. apply has_key_In in Hk. congruence.
  - intros k Hk. apply in_or_app. left. now apply Hincl.
Qed.

Lemma set_complete (self : t) (key : pystr) (value : pyval) :
  complete (config self) -> complete (config (set self key value)).
Proof. apply dict_set_complete. Qed.

(** A dictionary with string keys is a JSON object. *)
Lemma complete_of_object (d : dict) :
  complete d -> exists m, d = of_object m /\ NoDup (map fst m).
Proof.
  intros (Hstr & Hnd & _).
  assert (Hm : exists m, d = of_object m).
  { clear Hnd. induction d as [| [k v] d IH]; [now exists [] |].
    unfold keys in Hstr. cbn [map fst] in Hstr.
    inversion Hstr as [| ? ? [s ->] Hrest]; subst.
    destruct (IH Hrest) as [m ->]. now exists ((s, v) :: m). }
  destruct Hm as [m ->]. exists m. split; [reflexivity |].
  rewrite keys_of_object in Hnd. now apply NoDup_map_inv in Hnd.
Qed.

Lemma object_set_fresh (o : list (pystr * pyval)) (key : pystr)
    (value : pyval) :
  ~ In key (map fst o) -> object_set o key value = o ++ [(key, value)].
Proof.
  induction o as [| [k v] o IH]; intros Hnin; [reflexivity |].
  cbn [object_set app]. cbn [map fst In] in Hnin.
  rewrite pystr_eqb_neq by tauto. f_equal. apply IH. tauto.
Qed.

(** [json.dump] writes a dictionary with string keys as it is. *)
Lemma dumped_of_object (fs : files) (m : list (pystr * pyval)) :
  NoDup (map fst m) -> dumped fs (of_object m) = m.
Proof.
  unfold dumped.
  enough (Hgen : forall o, NoDup (map fst (o ++ m)) ->
            fold_left (fun o kv => object_set o (json_key fs (fst kv))
                                     (snd kv)) (of_object m) o = o ++ m)
    by (intros Hnd; exact (Hgen [] Hnd)).
  induction m as [| [k v] m IH]; intros o Hnd.
  - now rewrite app_nil_r.
  - cbn [of_object map fold_left fst snd json_key]. fold (of_object m).
    rewrite object_set_fresh.
    + rewrite IH; rewrite <- app_assoc; [reflexivity | exact Hnd].
    + rewrite map_app in Hnd. cbn [map fst] in Hnd.
      apply NoDup_remove_2 in Hnd. intro Hin. apply Hnd.
      apply in_or_app. now left.
Qed.

Lemma save_load_json (fs fs' : files) (self : t) :
  save fs self = Done fs' ->
  load_json fs' (config_file self) = Ok (VDict (dumped fs (config self)))
  /\ exists_file fs' (config_file self) = true
  /\ mkdir_parent fs' = mkdir_parent fs.
Proof.
  unfold save. destruct (writable fs _); [| discriminate].
  intros [= <-]. cbn. now rewrite pystr_eqb_refl.
Qed.

(** What [__init__] leaves in [self.config], whatever the file holds. *)
Lemma init_config (fs : files) (config_file : option pystr) (self : t) :
  init fs config_file = Ok self ->
  config self
  = if exists_file fs (Config.config_file self)
    then match load_json fs (Config.config_file self) with
         | Ok loaded => snd (dict_update defaults loaded)
         | Raise _ => defaults
         end
    else defaults.
Proof.
  unfold init, init_at. destruct (mkdir_parent fs _); [| discriminate].
  cbn [bind]. unfold load. cbn [Config.config_file config].
  set (path := match config_file with
               | Some f => if truthy f then f else default_config_file fs
               | None => default_config_file fs
               end).
  destruct (exists_file fs path) eqn:Hex;
    [destruct (load_json fs path) as [loaded | e] eqn:Hfile;
     [destruct (dict_update defaults loaded) as [updated d] eqn:Hupdate |] |];
    intros [= <-]; cbn [snd Config.config_file];
    rewrite ?Hex, ?Hfile, ?Hupdate; reflexivity.
Qed.

(** [update] applies the leading entries of what is no object. *)
Lemma dict_update_sequence (d : dict) (loaded : pyval)
    (items : list pyval) :
  elements loaded = Some items -> (forall m, loaded <> VDict m) ->
  snd (dict_update d loaded) = assign d (leading_entries items).
Proof.
  intros Hitems Hobj.
  destruct loaded as [| b | i | x | s | l | m]; try discriminate Hitems;
    [| | now contradiction (Hobj m)];
    unfold dict_update; rewrite Hitems; apply update_from_seq_entries.
Qed.

Lemma dict_update_scalar (d : dict) (loaded : pyval) :
  elements loaded = None -> snd (dict_update d loaded) = d.
Proof. destruct loaded; try discriminate; reflexivity. Qed.

(** [reset] does not restore the defaults once the configuration has been
    saved.  It runs [__init__] on the same file, which reads back what
    [save] wrote: after a successful [save], [reset] leaves every setting
    as it was. *)
Theorem reset_after_save_restores_nothing (fs fs' : files) (self : t) :
  complete (config self) ->
  save fs self = Done fs' ->
  mkdir_parent fs (config_file self) = Ok tt ->
  exists self',
    reset fs' self = Ok self'
    /\ config_file self' = config_file self
    /\ forall key default, get self' key default = get self key default.
Proof.
  intros Hc Hsave Hmk. pose proof Hc as (_ & _ & Hincl).
  destruct (complete_of_object Hc) as (m & Hm & Hnd).
  destruct (@save_load_json fs fs' self Hsave) as (Hfile & Hex & Hmk').
  rewrite Hm, dumped_of_object in Hfile by exact Hnd.
  unfold reset, init_at, load. cbn [Config.config_file].
  rewrite Hmk', Hmk, Hex, Hfile. cbn [bind dict_update].
  eexists. split; [reflexivity |]. split; [reflexivity |].
  intros key default. unfold get. cbn [snd config].
  rewrite dict_get_update by exact Hnd. rewrite Hm in *.
  destruct (has_key (of_object m) key) eqn:Hh; [reflexivity |].
  transitivity default; [| symmetry; now apply dict_get_missing].
  apply dict_get_missing.
  destruct (has_key defaults key) eqn:Hd; [| reflexivity].
  apply has_key_In in Hd. apply Hincl in Hd. apply has_key_In in Hd.
  congruence.
Qed.

(** What a configuration file does to a fresh [Config].  Of a file that
    holds a JSON object, a key overrides the default (or is added, when
    the defaults do not have it), and every other key keeps its default.
    Of a file that holds an array or a string, the elements before the
    first that is no pair of a hashable key and a value are applied as
    entries, although [load] fails when there is such an element.  A file
    with any other value, and a file that is missing or cannot be read
    or parsed, leave the defaults alone.  No file takes a key of the
    defaults away. *)
Theorem init_reads_file_over_defaults (fs : files)
    (config_file : option pystr) (self : t) :
  init fs config_file = Ok self ->
  let path := Config.config_file self in
  (exists_file fs path = true ->
   (forall loaded,
      load_json fs path = Ok (VDict loaded) ->
      NoDup (map fst loaded) ->
      forall key default,
        get self key default
        = if has_key (of_object loaded) key
          then dict_get (of_object loaded) (VStr key) default
          else dict_get defaults (VStr key) default)
   /\ (forall loaded items,
         load_json fs path = Ok loaded ->
         elements loaded = Some items ->
         (forall m, loaded <> VDict m) ->
         config self = assign defaults (leading_entries items)
         /\ (fst (load fs {| config := defaults; Config.config_file := path |})
             = Done tt
             <-> Forall (fun item => entry_of item <> None) items))
   /\ (forall loaded,
         load_json fs path = Ok loaded ->
         elements loaded = None ->
         config self = defaults))
  /\ (exists_file fs path = false
      \/ (exists e, load_json fs path = Raise e) ->
      config self = defaults)
  /\ (forall key, has_key defaults key = true ->
                  has_key (config self) key = true).
Proof.
  intros Hinit path. pose proof (init_config _ _ Hinit) as Hcfg.
  fold path in Hcfg. split; [| split].
  - intros Hex. rewrite Hex in Hcfg. split; [| split].
    + intros loaded Hfile Hnd key default. unfold get.
      rewrite Hcfg, Hfile. cbn [dict_update snd].
      now apply dict_get_update.
    + intros loaded items Hfile Hitems Hobj. rewrite Hfile in Hcfg.
      split; [rewrite Hcfg; now apply dict_update_sequence |].
      unfold load. cbn [Config.config_file config]. rewrite Hfile.
      rewrite <- (update_from_seq_raises items defaults 0).
      destruct loaded as [| b | i | x | s | l | m];
        try discriminate Hitems; [| | now contradiction (Hobj m)];
        unfold dict_update; rewrite Hitems;
        destruct (update_from_seq defaults 0 items) as [[[] | e] d];
        cbn [fst]; split; congruence.
    + intros loaded Hfile Hnone. rewrite Hcfg, Hfile.
      now apply dict_update_scalar.
  - intros [Hex | [e Hfile]]; rewrite Hcfg; [now rewrite Hex |].
    rewrite Hfile. now destruct (exists_file fs path).
  - intros key Hkey. rewrite Hcfg.
    destruct (exists_file fs path); [| exact Hkey].
    destruct (load_json fs path) as [loaded | e]; [| exact Hkey].
    destruct (elements loaded) as [items |] eqn:Hitems.
    + destruct loaded as [| b | i | x | s | l | m];
        try discriminate Hitems;
        try (rewrite (@dict_update_sequence _ _ items Hitems)
               by discriminate; now apply has_key_assign).
      cbn [dict_update snd]. rewrite update_from_mapping_assign.
      now apply has_key_assign.
    + rewrite dict_update_scalar by exact Hitems. exact Hkey.
Qed.

Section Concrete.

(** The file [[["chunk_size", 5], 7]]: [load] fails on the 7, after the
    chunk size has been set to 5. *)
Example load_broken_file :
  let self := {| config := defaults; config_file := py "config.json" |} in
  fst (load broken_file self)
  = ConfigError (py "Failed to load configuration: cannot convert dictionary update sequence element #1 to a sequence")
  /\ get (snd (load broken_file self)) (py "chunk_size") VNone = VInt 5
  /\ get (snd (load broken_file self)) (py "max_workers") VNone = VInt 4.
Proof. now vm_compute. Qed.

Lemma reset_after_save_restores_nothing_witness :
  exists fs' self',
    save no_files edited = Done fs'
    /\ reset fs' edited = Ok self'
    /\ config_file self' = config_file edited
    /\ forall key default, get self' key default = get edited key default.
Proof.
  eexists.
  destruct (@reset_after_save_restores_nothing no_files
              {| default_config_file := default_config_file no_files;
                 mkdir_parent := mkdir_parent no_files;
                 exists_file := fun p =>
                   if pystr_eqb p (config_file edited) then true
                   else exists_file no_files p;
                 load_json := fun p =>
                   if pystr_eqb p (config_file edited)
                   then Ok (VDict (dumped no_files (config edited)))
                   else load_json no_files p;
                 writable := writable no_files;
                 float_repr := float_repr no_files |}
              edited)
    as (self' & Hreset & Hfile & Hget).
  - apply set_complete, defaults_complete.
  - reflexivity.
  - reflexivity.
  - exists self'. split; [reflexivity | now repeat split].
Defined.

Lemma init_reads_file_over_defaults_witness :
  (exists self,
     init saved_file None = Ok self
     /\ get self (py "chunk_size") VNone = VInt 500
     /\ get self (py "voice_sample") VNone = VStr (py "me.wav")
     /\ get self (py "max_workers") VNone = VInt 4)
  /\ (exists self,
        init broken_file None = Ok self
        /\ config self
           = assign defaults [(VStr (py "chunk_size"), VInt 5)]
        /\ fst (load broken_file
                  {| config := defaults;
                     config_file := Config.config_file self |}) <> Done tt).
Proof.
  split.
  - eexists. split; [reflexivity |].
    destruct (@init_reads_file_over_defaults saved_file None _ eq_refl)
      as [Hfile _].
    destruct (Hfile eq_refl) as [Hobject _].
    specialize (Hobject _ eq_refl).
    assert (Hnd : NoDup (map fst [(py "chunk_size", VInt 500);
                                  (py "voice_sample", VStr (py "me.wav"))])).
    { repeat constructor; cbn; intuition discriminate. }
    specialize (Hobject Hnd).
    repeat split; rewrite Hobject; reflexivity.
  - eexists. split; [reflexivity |].
    destruct (@init_reads_file_over_defaults broken_file None _ eq_refl)
      as [Hfile _].
    destruct (Hfile eq_refl) as (_ & Hseq & _).
    destruct (Hseq _ _ eq_refl eq_refl) as [Hcfg Hload];
      [discriminate |].
    split; [exact Hcfg |].
    intros Hdone. apply Hload in Hdone.
    inversion Hdone as [| ? ? _ Hrest]; subst.
    inversion Hrest as [| ? ? Habs _]; subst. now apply Habs.
Defined.

End Concrete.
End ConfigFacts.

(* ===================================================================== *)
(** * Properties of the commands *)
(* ===================================================================== *)

Module CliFacts.
Import BookConverter Config Settings ConfigFacts TTSEngines Cli CliSamples.

Section Facts.
Context `{Unicode}.
Variable engine : Type.

(** [get_tts_engine] returns an engine only if it is registered under
    the name, was constructed without error and reports itself
    available; whatever goes wrong, what it raises is a
    [TTSEngineError]. *)
Theorem get_tts_engine_outcome (construct : pystr -> result engine)
    (is_available : engine -> result bool) (engine_name : pystr) :
  match get_tts_engine construct is_available engine_name with
  | Ok e =>
      In engine_name engine_names
      /\ construct engine_name = Ok e
      /\ is_available e = Ok true
  | Raise x => exists msg, x = TTSEngineError msg
  end.
Proof.
  unfold get_tts_engine.
  destruct (existsb (pystr_eqb engine_name) engine_names) eqn:Hn;
    cbn [negb]; [| eexists; reflexivity].
  apply existsb_exists in Hn. destruct Hn as (n & Hin & Heq).
  apply pystr_eqb_eq in Heq. subst n.
  destruct (construct engine_name) as [e | x] eqn:Hc; cbn;
    [| eexists; reflexivity].
  destruct (is_available e) as [[] | x] eqn:Ha; cbn;
    try (eexists; reflexivity).
  now repeat split.
Qed.

Lemma get_set (c : Config.t) (key key' : pystr) (value default : pyval) :
  get (set c key value) key' default
  = if pystr_eqb key key' then value else get c key' default.
Proof. apply dict_get_set. Qed.

Lemma get_overrides_other (a : args) (c : Config.t) (key : pystr)
    (default : pyval) :
  existsb (pystr_eqb key)
    [py "tts_engine"; py "voice"; py "language"; py "chunk_size";
     py "max_workers"; py "keep_temp_files"; py "voice_sample"] = false ->
  get (overrides a c) key default = get c key default.
Proof.
  intros Hk. cbn [existsb] in Hk.
  repeat (apply orb_false_iff in Hk; destruct Hk as [? Hk]).
  assert (Hsym : forall k, pystr_eqb key k = false -> pystr_eqb k key = false).
  { intros k Hkk. destruct (pystr_eqb k key) eqn:Heq; [| reflexivity].
    apply pystr_eqb_eq in Heq. subst k. now rewrite pystr_eqb_refl in Hkk. }
  unfold overrides.
  destruct (voice_sample a) as [s |]; [destruct (truthy s) |];
    rewrite ?get_set, ?Hsym by assumption; reflexivity.
Qed.

Lemma overrides_settings (a : args) (c : Config.t) (default : pyval) :
  let c' := overrides a c in
  get c' (py "tts_engine") default = VStr (engine_name a)
  /\ get c' (py "voice") default
     = match voice a with Some v => VStr v | None => VNone end
  /\ get c' (py "language") default = VStr (language a)
  /\ get c' (py "chunk_size") default = VInt (chunk_size a)
  /\ get c' (py "max_workers") default = VInt (processes a)
  /\ get c' (py "keep_temp_files") default = VBool (keep_temp a)
  /\ get c' (py "temp_dir") default = get c (py "temp_dir") default
  /\ get c' (py "output_format") default = get c (py "output_format") default
  /\ get c' (py "output_quality") default
     = get c (py "output_quality") default.
Proof.
  cbn zeta.
  repeat split;
    try (apply get_overrides_other; reflexivity);
    unfold overrides;
    (destruct (voice_sample a) as [s |]; [destruct (truthy s) |]);
    rewrite ?get_set; reflexivity.
Qed.

(** The command line always wins.  Whatever the configuration file
    holds, [convert] runs with the engine, language, chunk size, number
    of workers and [keep_temp_files] of the command line, which are the
    defaults of the parser when the options are not given; and with the
    voice of the command line, which is [None] when no voice is given:
    the voice of the configuration is then discarded.  The working
    directory, the output format and the output quality are those of the
    configuration; and so is the converter built from it configured. *)
Theorem convert_options_override_configuration (a : args) (c : Config.t)
    (default : pyval) :
  let c' := overrides a c in
  (get c' (py "tts_engine") default = VStr (engine_name a)
   /\ get c' (py "voice") default
      = match voice a with Some v => VStr v | None => VNone end
   /\ get c' (py "language") default = VStr (language a)
   /\ get c' (py "chunk_size") default = VInt (chunk_size a)
   /\ get c' (py "max_workers") default = VInt (processes a)
   /\ get c' (py "keep_temp_files") default = VBool (keep_temp a)
   /\ get c' (py "temp_dir") default = get c (py "temp_dir") default
   /\ get c' (py "output_format") default
      = get c (py "output_format") default
   /\ get c' (py "output_quality") default
      = get c (py "output_quality") default)
  /\ forall cfg,
       converter_config c' = Some cfg ->
       BookConverter.chunk_size cfg = chunk_size a
       /\ max_workers cfg = processes a
       /\ keep_temp_files cfg = keep_temp a.
Proof.
  cbn zeta. split; [apply overrides_settings |].
  intros cfg. unfold converter_config.
  destruct (overrides_settings a c (VInt 2000)) as (_ & _ & _ & H1 & _).
  destruct (overrides_settings a c (VInt 4)) as (_ & _ & _ & _ & H2 & _).
  destruct (overrides_settings a c (VBool false))
    as (_ & _ & _ & _ & _ & H3 & _).
  cbn zeta in H1, H2, H3. rewrite H1, H2, H3.
  destruct (get (overrides a c) (py "output_format") _); try discriminate.
  destruct (get (overrides a c) (py "output_quality") _); try discriminate.
  destruct (get (overrides a c) (py "temp_dir") _); try discriminate;
    intros [= <-]; now repeat split.
Qed.

(** [convert] reports success whatever [convert_book] returns, [None]
    included: when nothing raises, the exit code is 0 and the last line
    printed is "Audiobook saved to <output>", also for a book without
    chapters or without any audio, for which no output file is
    written. *)
Theorem convert_reports_success_without_audio (sys : system engine)
    (a : args) (config : Config.t) (ebook : opened) (tts : engine)
    (cfg : BookConverter.config) (r : option pystr) :
  Config.init (fs sys) None = Ok config ->
  open_ebook sys (input_file a) = Ok ebook ->
  get_tts_engine (construct sys (overrides a config)) (is_available sys)
    (engine_name a) = Ok tts ->
  text_only a = false ->
  converter_config (overrides a config) = Some cfg ->
  fst (convert_book (api ebook) (with_engine sys tts) cfg (output a)
         true true) = Ok r ->
  exists t,
    convert_command sys a
    = Some (0, t ++ [Say (10%N :: py "Audiobook saved to " ++ output a)]).
Proof.
  intros Hc He Ht Hto Hcfg Hr. unfold convert_command, convert_body.
  rewrite Hc, He, Ht, Hto, Hcfg.
  destruct (convert_book _ _ _ _ _ _) as [res t]. cbn [fst] in Hr. subst res.
  cbn. eexists (_ :: _). reflexivity.
Qed.

Lemma epub_full_text (p : EPUBProcessor.t) :
  Ebook.get_full_text (Ebook.init (Ebook.Epub p)) = Ok []
  \/ exists e, Ebook.get_full_text (Ebook.init (Ebook.Epub p)) = Raise e.
Proof.
  unfold Ebook.get_full_text. cbn [Ebook.init Ebook.the_processor
    Ebook.processor_get_full_text].
  unfold EPUBProcessor.get_full_text, EPUBProcessor.get_chapters.
  destruct (EPUBProcessor.collect_chapters _ _ _) as [cs | e] eqn:Hc;
    cbn [try_except bind].
  - apply ExtractorFacts.epub_collect_chapters in Hc. subst cs. now left.
  - right. eexists. reflexivity.
Qed.

Lemma in_map_Run (t : list event) (ev : event) :
  In (Run ev) (map Run t) -> In ev t.
Proof.
  intros Hin. apply in_map_iff in Hin. destruct Hin as (x & [= ->] & Hx).
  exact Hx.
Qed.

Lemma synthesize_calls_nil (t : list event) (text path : pystr) :
  Run.synthesize_calls t = [] -> ~ In (Synthesize text path) t.
Proof.
  intros Hs Hin. induction t as [| ev t IH]; [destruct Hin |].
  cbn [Run.synthesize_calls flat_map] in Hs.
  apply app_eq_nil in Hs. destruct Hs as [Hev Ht].
  destruct Hin as [-> | Hin]; [discriminate | now apply IH].
Qed.

(** The commands on an EPUB.  [convert] never has a word synthesized:
    it fails with exit code 1, or it ends with exit code 0 and
    "Audiobook saved to <output>" without any audio.  [extract] fails
    too, or writes the empty text. *)
Theorem commands_on_epub (sys : system engine) (a : args)
    (p : EPUBProcessor.t) (i : Metadata.info) :
  open_ebook sys (input_file a)
  = Ok (open_as (Ebook.init (Ebook.Epub p)) i) ->
  (text_only a = false ->
   forall code t,
     convert_command sys a = Some (code, t) ->
     (forall text path, ~ In (Run (Synthesize text path)) t)
     /\ (code = 1
         \/ (code = 0
             /\ exists t',
                  t = t' ++ [Say (10%N :: py "Audiobook saved to "
                                  ++ output a)])))
  /\ (fst (extract_command sys (input_file a) (output a)) = 1
      \/ extract_command sys (input_file a) (output a)
         = (0, [WriteText (output a) [];
                Say (py "Text extracted to " ++ output a)])).
Proof.
  intros Hopen. split.
  - intros Hto code t. unfold convert_command, convert_body.
    rewrite Hopen, Hto.
    destruct (Config.init (fs sys) None) as [config | e];
      [| intros [= <- <-]; split;
         [intros text path [Habs | []]; discriminate | now left]].
    destruct (get_tts_engine _ _ _) as [tts | e];
      [| intros [= <- <-]; split;
         [intros text path [Habs | []]; discriminate | now left]].
    destruct (converter_config _) as [cfg |]; [| discriminate].
    cbn [api open_as title].
    destruct (@OrchestratorFacts.epub_book_never_converted_aux _ p
                (with_engine sys tts) cfg (output a) true true)
      as [Hnone Hsyn].
    destruct (convert_book _ _ _ _ _ _) as [[r | e] t0];
      cbn [fst snd] in Hnone, Hsyn; cbn [option_map exit_code];
      intros [= <- <-].
    + split.
      * intros text path [Habs | Hin]; [discriminate |].
        apply in_app_or in Hin. destruct Hin as [Hin | [Habs | []]];
          [| discriminate].
        apply in_map_Run in Hin.
        now apply (synthesize_calls_nil _ text path Hsyn).
      * right. split; [reflexivity |]. eexists (_ :: _). reflexivity.
    + split; [| now left].
      intros text path [Habs | Hin]; [discriminate |].
      apply in_app_or in Hin. destruct Hin as [Hin | [Habs | []]];
        [| discriminate].
      apply in_map_Run in Hin.
      now apply (synthesize_calls_nil _ text path Hsyn).
  - unfold extract_command. rewrite Hopen. cbn [full_text open_as].
    destruct (epub_full_text p) as [-> | [e ->]]; [| now left].
    destruct (write_text sys (output a) []); [now right | now left].
Qed.

End Facts.

Section Concrete.
#[local] Existing Instance ascii_only.

Lemma convert_reports_success_without_audio_witness :
  exists t,
    convert_command (system_with empty_pdf) (plain_args (py "book.pdf"))
    = Some (0, t ++ [Say (10%N :: py "Audiobook saved to " ++ py "book.mp3")]).
Proof.
  apply (@convert_reports_success_without_audio ascii_only unit
           (system_with empty_pdf) (plain_args (py "book.pdf"))
           {| config := defaults;
              config_file := py "/home/user/.epub2tts/config.json" |}
           (open_as empty_pdf
              {| Metadata.title := None; Metadata.author := None;
                 Metadata.language := None |})
           tt
           {| BookConverter.chunk_size := 2000; max_workers := 4;
              temp_dir := None; keep_temp_files := false;
              output_format := py "mp3"; output_quality := 192 |}
           None); reflexivity.
Defined.

Lemma commands_on_epub_witness :
  (text_only (plain_args (py "book.epub")) = false ->
   forall code t,
     convert_command (system_with (Ebook.init (Ebook.Epub empty_epub)))
       (plain_args (py "book.epub")) = Some (code, t) ->
     (forall text path, ~ In (Run (Synthesize text path)) t)
     /\ (code = 1
         \/ (code = 0
             /\ exists t',
                  t = t' ++ [Say (10%N :: py "Audiobook saved to "
                                  ++ output (plain_args (py "book.epub")))])))
  /\ (fst (extract_command (system_with (Ebook.init (Ebook.Epub empty_epub)))
             (input_file (plain_args (py "book.epub")))
             (output (plain_args (py "book.epub")))) = 1
      \/ extract_command (system_with (Ebook.init (Ebook.Epub empty_epub)))
           (input_file (plain_args (py "book.epub")))
           (output (plain_args (py "book.epub")))
         = (0, [WriteText (output (plain_args (py "book.epub"))) [];
                Say (py "Text extracted to "
                     ++ output (plain_args (py "book.epub")))])).
Proof.
  apply (@commands_on_epub ascii_only unit
           (system_with (Ebook.init (Ebook.Epub empty_epub)))
           (plain_args (py "book.epub")) empty_epub
           {| Metadata.title := None; Metadata.author := None;
              Metadata.language := None |}).
  reflexivity.
Defined.

End Concrete.
End CliFacts.
